(** * Hierarchical context resolution of cookiecutter (prompt.py, variables.py,
    replay.py): a shallow embedding and the properties checked on it.

    Layout: [Py] holds the fragment of Python's dynamic semantics the three
    modules rely on (values, [==], truthiness, subscripts, ordered dicts,
    exceptions).  [VariablesPy], [Prompt] and [Replay] follow the source files
    of the same names function by function.  The theorems come last. *)

From Stdlib Require Import String Ascii List ZArith Bool Arith Lia DecimalString.
From Stdlib Require Import Permutation.
Import ListNotations.
Set Warnings "-register-all".
Open Scope list_scope.
Open Scope string_scope.

(* ===================================================================== *)
(** ** Python values, exceptions and built-in operations                  *)
(* ===================================================================== *)

Module Py.

(** Exceptions the code raises or lets through.  [ExternalError] is any
    failure of a collaborator (file system, YAML, template engine) other than
    those named; [Unmodelled] marks a run that leaves the typed model (a
    variable whose name is not a str), about which nothing is said. *)
Inductive exn : Type :=
| ValueError (msg : string)
| TypeError
| KeyError
| IndexError
| AttributeError
| EOFError
| InvalidResponse (msg : string)
| UndefinedError
| UndefinedVariableInTemplate (msg : string)
| ExternalError (origin : string)
| Unmodelled (why : string).

Inductive result (A : Type) : Type :=
| Ok (a : A)
| Raise (e : exn).
Arguments Ok {A} a.
Arguments Raise {A} e.

Definition bind {A B : Type} (r : result A) (k : A -> result B) : result B :=
  match r with
  | Ok a => k a
  | Raise e => Raise e
  end.

Definition is_ok {A : Type} (r : result A) : bool :=
  match r with Ok _ => true | Raise _ => false end.

(** [_Raw]: None, bool, int, str, list and dict.  Floats are outside the
    model.  A dict is the list of its items in insertion order. *)
Inductive pyval : Type :=
| VNone
| VBool (b : bool)
| VInt (z : Z)
| VStr (s : string)
| VList (items : list pyval)
| VDict (items : list (pyval * pyval)).

Definition is_none (v : pyval) : bool :=
  match v with VNone => true | _ => false end.
Definition is_bool (v : pyval) : bool :=
  match v with VBool _ => true | _ => false end.
Definition is_list (v : pyval) : bool :=
  match v with VList _ => true | _ => false end.
Definition is_dict (v : pyval) : bool :=
  match v with VDict _ => true | _ => false end.
Definition is_str (v : pyval) : bool :=
  match v with VStr _ => true | _ => false end.

(** [bool(v)] *)
Definition truthy (v : pyval) : bool :=
  match v with
  | VNone => false
  | VBool b => b
  | VInt z => negb (Z.eqb z 0)
  | VStr s => negb (String.eqb s "")
  | VList l => match l with [] => false | _ => true end
  | VDict l => match l with [] => false | _ => true end
  end.

(** [a == b] on plain values: bool is an int, dicts compare regardless of
    order, values of different kinds are unequal. *)
Fixpoint py_eq (a b : pyval) {struct a} : bool :=
  match a, b with
  | VNone, VNone => true
  | VBool x, VBool y => Bool.eqb x y
  | VBool x, VInt y => Z.eqb (Z.b2z x) y
  | VInt x, VBool y => Z.eqb x (Z.b2z y)
  | VInt x, VInt y => Z.eqb x y
  | VStr x, VStr y => String.eqb x y
  | VList xs, VList ys =>
      (fix all2 (xs ys : list pyval) {struct xs} : bool :=
         match xs, ys with
         | [], [] => true
         | x :: xs', y :: ys' => py_eq x y && all2 xs' ys'
         | _, _ => false
         end) xs ys
  | VDict xs, VDict ys =>
      Nat.eqb (List.length xs) (List.length ys) &&
      (fix each (xs : list (pyval * pyval)) : bool :=
         match xs with
         | [] => true
         | (k, v) :: xs' =>
             (fix find (ys : list (pyval * pyval)) : bool :=
                match ys with
                | [] => false
                | (k', v') :: ys' => if py_eq k k' then py_eq v v' else find ys'
                end) ys && each xs'
         end) xs
  | _, _ => false
  end.

(** Lists and dicts cannot be dict keys. *)
Definition hashable (v : pyval) : bool :=
  match v with VList _ | VDict _ => false | _ => true end.

(** *** Dicts keyed by arbitrary (hashable) values *)

Fixpoint dict_get (k : pyval) (d : list (pyval * pyval)) : option pyval :=
  match d with
  | [] => None
  | (k', v) :: d' => if py_eq k' k then Some v else dict_get k d'
  end.

(** [d[k] = v]: an existing key keeps its place (and its first spelling). *)
Fixpoint dict_set (k v : pyval) (d : list (pyval * pyval)) : list (pyval * pyval) :=
  match d with
  | [] => [(k, v)]
  | (k', v') :: d' => if py_eq k' k then (k', v) :: d' else (k', v') :: dict_set k v d'
  end.

(** *** The ordered dict keyed by strings that resolution fills *)

Definition odict : Type := list (string * pyval).

Fixpoint od_get (k : string) (d : odict) : option pyval :=
  match d with
  | [] => None
  | (k', v) :: d' => if String.eqb k' k then Some v else od_get k d'
  end.

Fixpoint od_set (k : string) (v : pyval) (d : odict) : odict :=
  match d with
  | [] => [(k, v)]
  | (k', v') :: d' => if String.eqb k' k then (k', v) :: d' else (k', v') :: od_set k v d'
  end.

Definition od_keys (d : odict) : list string := map fst d.

Definition od_mem (k : string) (d : odict) : bool :=
  match od_get k d with Some _ => true | None => false end.

(** [d.update(e)] *)
Definition od_update (d e : odict) : odict :=
  fold_left (fun acc kv => od_set (fst kv) (snd kv) acc) e d.

(** *** Strings *)

Definition startswith (s p : string) : bool := String.prefix p s.

Definition endswith (s suffix : string) : bool :=
  (String.length suffix <=? String.length s)%nat &&
  String.eqb (substring (String.length s - String.length suffix)
                        (String.length suffix) s) suffix.

Fixpoint is_substring (p s : string) : bool :=
  String.prefix p s ||
  match s with
  | EmptyString => false
  | String _ s' => is_substring p s'
  end.

(** A str is the list of its code points, for text whose code points are
    below 256.  [c.isspace()] there: the controls 9 to 13 and 28 to 31, the
    blank, and the code points 133 and 160. *)
Definition is_space (c : ascii) : bool :=
  let n := nat_of_ascii c in
  (n =? 32)%nat || ((9 <=? n)%nat && (n <=? 13)%nat) ||
  ((28 <=? n)%nat && (n <=? 31)%nat) || (n =? 133)%nat || (n =? 160)%nat.

Fixpoint lstrip (s : string) : string :=
  match s with
  | String c s' => if is_space c then lstrip s' else s
  | EmptyString => EmptyString
  end.

Fixpoint rev_string (s : string) (acc : string) : string :=
  match s with
  | EmptyString => acc
  | String c s' => rev_string s' (String c acc)
  end.

(** [s.strip()]: every leading and trailing code point that [isspace] *)
Definition strip (s : string) : string :=
  rev_string (lstrip (rev_string (lstrip s) "")) "".

(** The lower case of a code point below 256: the capitals [A] to [Z]
    and 192 to 222, the sign 215 apart. *)
Definition lower_ascii (c : ascii) : ascii :=
  let n := nat_of_ascii c in
  if ((65 <=? n)%nat && (n <=? 90)%nat) ||
     ((192 <=? n)%nat && (n <=? 222)%nat && negb (n =? 215)%nat)
  then ascii_of_nat (n + 32) else c.

(** [s.lower()] *)
Fixpoint lower (s : string) : string :=
  match s with
  | EmptyString => EmptyString
  | String c s' => String (lower_ascii c) (lower s')
  end.

Definition str_of_nat (n : nat) : string :=
  NilZero.string_of_uint (Nat.to_uint n).

Definition str_of_Z (z : Z) : string :=
  NilZero.string_of_int (Z.to_int z).

Fixpoint chars (s : string) : list pyval :=
  match s with
  | EmptyString => []
  | String c s' => VStr (String c EmptyString) :: chars s'
  end.

Fixpoint join (sep : string) (l : list string) : string :=
  match l with
  | [] => ""
  | [x] => x
  | x :: l' => x ++ sep ++ join sep l'
  end.

(** [s.split(sep)] for a one-character separator *)
Fixpoint split (sep : ascii) (s : string) : list string :=
  match s with
  | EmptyString => [""]
  | String a s' =>
      match split sep s' with
      | [] => [""]
      | h :: t => if Ascii.eqb a sep then "" :: h :: t else String a h :: t
      end
  end.

(** *** Subscripts, iteration, membership *)

(** Index of a sequence of length [n] by an int [i], negative from the end. *)
Definition seq_index (n : nat) (i : Z) : option nat :=
  let i' := if (i <? 0)%Z then (i + Z.of_nat n)%Z else i in
  if ((0 <=? i') && (i' <? Z.of_nat n))%Z then Some (Z.to_nat i') else None.

Definition as_index (i : pyval) : option Z :=
  match i with
  | VInt z => Some z
  | VBool b => Some (Z.b2z b)
  | _ => None
  end.

(** [c[i]] *)
Definition getitem (c i : pyval) : result pyval :=
  match c with
  | VDict d =>
      if hashable i then
        match dict_get i d with Some v => Ok v | None => Raise KeyError end
      else Raise TypeError
  | VList l =>
      match as_index i with
      | None => Raise TypeError
      | Some z =>
          match seq_index (List.length l) z with
          | None => Raise IndexError
          | Some n => match nth_error l n with Some v => Ok v | None => Raise IndexError end
          end
      end
  | VStr s =>
      match as_index i with
      | None => Raise TypeError
      | Some z =>
          match seq_index (String.length s) z with
          | None => Raise IndexError
          | Some n => match nth_error (chars s) n with Some v => Ok v | None => Raise IndexError end
          end
      end
  | _ => Raise TypeError
  end.

(** [d.get(k, default)]; only dicts have the method. *)
Definition dict_method_get (d : pyval) (k : string) (default : pyval) : result pyval :=
  match d with
  | VDict items =>
      Ok (match dict_get (VStr k) items with Some v => v | None => default end)
  | _ => Raise AttributeError
  end.

(** [for x in c] *)
Definition iter (c : pyval) : result (list pyval) :=
  match c with
  | VList l => Ok l
  | VDict d => Ok (map fst d)
  | VStr s => Ok (chars s)
  | _ => Raise TypeError
  end.

(** [x in c] *)
Definition contains (x c : pyval) : result bool :=
  match c with
  | VDict d =>
      if hashable x then
        Ok (match dict_get x d with Some _ => true | None => false end)
      else Raise TypeError
  | VList l => Ok (existsb (fun y => py_eq y x) l)
  | VStr s =>
      match x with
      | VStr p => Ok (is_substring p s)
      | _ => Raise TypeError
      end
  | _ => Raise TypeError
  end.

End Py.

Export Py.

Declare Scope py_scope.
Delimit Scope py_scope with py.
Notation "x <- e ;; k" := (bind e (fun x => k))
  (at level 61, e at next level, right associativity) : py_scope.
Notation "' p <- e ;; k" := (bind e (fun p => k))
  (at level 61, p pattern, e at next level, right associativity) : py_scope.
Open Scope py_scope.

(* ===================================================================== *)
(** ** variables.py                                                       *)
(* ===================================================================== *)

Module VariablesPy.

(** The fields of [CookiecutterVariable], typed as [__init__] annotates
    them; [value], [matches] and [metadata] are [Any]. *)
Inductive CookiecutterVariable : Type := mkVariable {
  name : string;
  value : pyval;
  prompt : string;
  variables : list CookiecutterVariable;
  matches : pyval;
  metadata : pyval
}.

(** [CookiecutterVariable.__init__] *)
Definition init (name_ : string) (value_ : pyval) (prompt_ : string)
    (variables_ : list CookiecutterVariable) (matches_ metadata_ : pyval)
    : CookiecutterVariable :=
  mkVariable name_ value_ (if String.eqb prompt_ "" then name_ else prompt_)
             variables_ matches_ metadata_.

Definition get_or (default : pyval) (o : option pyval) : pyval :=
  match o with Some v => v | None => default end.

(** A field annotated [str]. *)
Definition as_str (v : pyval) : result string :=
  match v with
  | VStr s => Ok s
  | _ => Raise (Unmodelled "a name or prompt that is not a str")
  end.

(** [CookiecutterVariable.from_dict].  The lookup of ["variables"] is
    written out so that the recursion on its elements is structural;
    [from_dict_unfold] below restates it with [dict_method_get] and [iter].
    A prompt that is false ([None], [""]) is replaced by the name in
    [__init__] whatever its type, so it is passed on as [""]. *)
Fixpoint from_dict (d : pyval) : result CookiecutterVariable :=
  match d with
  | VDict items =>
      let name_ := get_or (VStr "") (dict_get (VStr "name") items) in
      let value_ := get_or VNone (dict_get (VStr "value") items) in
      let prompt_ := get_or name_ (dict_get (VStr "prompt") items) in
      vars <- (fix find (l : list (pyval * pyval)) : result (list CookiecutterVariable) :=
                 match l with
                 | [] => Ok []
                 | (k, x) :: l' =>
                     if py_eq k (VStr "variables") then
                       match x with
                       | VList xs =>
                           (fix each (xs : list pyval) : result (list CookiecutterVariable) :=
                              match xs with
                              | [] => Ok []
                              | y :: ys => t <- from_dict y ;; ts <- each ys ;; Ok (t :: ts)
                              end) xs
                       | VDict kv =>
                           (fix each (kv : list (pyval * pyval)) : result (list CookiecutterVariable) :=
                              match kv with
                              | [] => Ok []
                              | (y, _) :: ys => t <- from_dict y ;; ts <- each ys ;; Ok (t :: ts)
                              end) kv
                       | VStr s =>
                           match s with
                           | EmptyString => Ok []
                           | String _ _ => Raise AttributeError
                           end
                       | _ => Raise TypeError
                       end
                     else find l'
                 end) items ;;
      let matches_ := get_or VNone (dict_get (VStr "matches") items) in
      let metadata_ := get_or VNone (dict_get (VStr "metadata") items) in
      n <- as_str name_ ;;
      p <- (if truthy prompt_ then as_str prompt_ else Ok "") ;;
      Ok (init n value_ p vars matches_ metadata_)
  | _ => Raise AttributeError
  end.

(** [CookiecutterVariable.to_cookiecutter_dict] *)
Fixpoint to_cookiecutter_dict (self : CookiecutterVariable) (parent : string) : odict :=
  (fix loop (vs : list CookiecutterVariable) (d : odict) : odict :=
     match vs with
     | [] => d
     | v :: vs' =>
         let name_ := parent ++ name v in
         let d := od_set name_ (value v) d in
         let d := od_update d (to_cookiecutter_dict v (name_ ++ "/")) in
         loop vs' d
     end) (variables self) [].


(** [CookiecutterVariable.is_template] *)
Definition is_template (v : CookiecutterVariable) : bool :=
  String.eqb (lower (name v)) "template".

(** [CookiecutterVariable.get], with [None] standing for the default. *)
Definition get (self : CookiecutterVariable) (name_ : string)
    : option CookiecutterVariable :=
  find (fun v => String.eqb (name v) name_) (variables self).

Definition with_value (v : CookiecutterVariable) (value_ : pyval) : CookiecutterVariable :=
  mkVariable (name v) value_ (prompt v) (variables v) (matches v) (metadata v).

Definition with_children (v : CookiecutterVariable)
    (variables_ : list CookiecutterVariable) : CookiecutterVariable :=
  mkVariable (name v) (value v) (prompt v) variables_ (matches v) (metadata v).

(** The first of [vs] named [name_], changed by [f]: what an assignment to,
    or an in-place update of, the object that [get] returns does to the
    tree. *)
Fixpoint change_first (name_ : string) (f : CookiecutterVariable -> CookiecutterVariable)
    (vs : list CookiecutterVariable) : list CookiecutterVariable :=
  match vs with
  | [] => []
  | v :: vs' =>
      if String.eqb (name v) name_ then f v :: vs'
      else v :: change_first name_ f vs'
  end.

(** [CookiecutterVariable.set] *)
Definition set (self : CookiecutterVariable) (name_ : string) (value_ : pyval)
    : CookiecutterVariable :=
  with_children self (change_first name_ (fun v => with_value v value_) (variables self)).

(** One item [k: v] of [CookiecutterVariable.update], along the segments
    of [k.split("/")].  The source hands the child the rest of the key
    joined again, which the child splits again; [update_item_unfold] below
    restates it that way. *)
Fixpoint update_path (parents : list string) (v : pyval) (self : CookiecutterVariable)
    {struct parents} : CookiecutterVariable :=
  match parents with
  | [] => self
  | [k] =>
      match get self k with
      | Some _ => set self k v
      | None => self
      end
  | first :: rest =>
      match get self first with
      | Some _ =>
          with_children self (change_first first (update_path rest v) (variables self))
      | None => self
      end
  end.

Definition update_item (self : CookiecutterVariable) (k : string) (v : pyval)
    : CookiecutterVariable :=
  update_path (split "/" k) v self.

(** [CookiecutterVariable.update] *)
Definition update (self : CookiecutterVariable) (d : odict) : CookiecutterVariable :=
  fold_left (fun t kv => update_item t (fst kv) (snd kv)) d self.

End VariablesPy.

Export VariablesPy.

(* ===================================================================== *)
(** ** Collaborators: pathlib, rich.prompt, and what the host supplies    *)
(* ===================================================================== *)

(** [pathlib] on POSIX, the pure (lexical) part. *)
Module Pathlib.

Record PurePath : Type := mkPath { root : string; parts : list string }.

Fixpoint split_on (sep : ascii) (s : string) : list string :=
  match s with
  | EmptyString => [""]
  | String a s' =>
      match split_on sep s' with
      | [] => [""]
      | h :: t => if Ascii.eqb a sep then "" :: h :: t else String a h :: t
      end
  end.

Fixpoint leading_slashes (s : string) : nat :=
  match s with
  | String "/" s' => S (leading_slashes s')
  | _ => 0
  end.

(** [Path(s)]: repeated slashes and ["."] components vanish, [".."] stays;
    exactly two leading slashes are a root of their own. *)
Definition Path (s : string) : PurePath :=
  {| root := match leading_slashes s with 0 => "" | 2 => "//" | _ => "/" end;
     parts := filter (fun p => negb (String.eqb p "") && negb (String.eqb p "."))
                     (split_on "/" s) |}.

Definition is_absolute (p : PurePath) : bool := negb (String.eqb (root p) "").

(** [a / b] *)
Definition joinpath (a b : PurePath) : PurePath :=
  if is_absolute b then b
  else {| root := root a; parts := (parts a ++ parts b)%list |}.


Fixpoint collapse (ps acc : list string) : list string :=
  match ps with
  | [] => rev acc
  | p :: ps' =>
      if String.eqb p ".." then collapse ps' (tl acc) else collapse ps' (p :: acc)
  end.

(** [Path.resolve()] on a file system without symbolic links, from the
    working directory [cwd]: the path is made absolute, its [".."]
    components are folded, and a root of two slashes becomes one slash, as
    [os.path.realpath] has it. *)
Definition lexical_resolve (cwd p : PurePath) : PurePath :=
  let q := joinpath cwd p in
  {| root := if String.eqb (root q) "" then "" else "/";
     parts := collapse (parts q) [] |}.

End Pathlib.

(** [rich.prompt]: the console and the ask loop the source's prompt classes
    inherit from [PromptBase]. *)
Module Rich.

(** What the operator will type, line by line, and the questions shown. *)
Record console : Type := mkConsole { stdin : list string; stdout : list string }.

(** [PromptBase.__call__]: show the question, read a line; an empty line
    gives the default; a line that [process_response] rejects with
    [InvalidResponse] asks again. *)
Fixpoint ask_from {A : Type} (process_response : string -> result A)
    (text : string) (default : A) (input shown : list string) : result (A * console) :=
  match input with
  | [] => Raise EOFError
  | line :: rest =>
      let shown := (shown ++ [text])%list in
      if String.eqb line "" then Ok (default, mkConsole rest shown)
      else
        match process_response line with
        | Ok a => Ok (a, mkConsole rest shown)
        | Raise (InvalidResponse _) => ask_from process_response text default rest shown
        | Raise e => Raise e
        end
  end.

(** [PromptBase.ask]: the prompt object is built first, its question
    parsed by [Text.from_markup], which raises [MarkupError] on a closing
    tag that closes nothing; then the loop runs, showing the parsed
    question.  [from_markup] is rich's parser, taken as given. *)
Definition ask {A : Type} (from_markup : string -> result string)
    (process_response : string -> result A)
    (text : string) (default : A) (c : console) : result (A * console) :=
  prompt <- from_markup text ;;
  ask_from process_response prompt default (stdin c) (stdout c).

(** [PromptBase.process_response] for [Prompt] (response type str) *)
Definition process_response (choices : option (list string)) (value : string)
    : result string :=
  let value := strip value in
  match choices with
  | None => Ok value
  | Some cs =>
      if existsb (String.eqb value) cs then Ok value
      else Raise (InvalidResponse "Please select one of the available options")
  end.

(** [Prompt.ask(text, default=default)] *)
Definition Prompt_ask (from_markup : string -> result string)
    (text : string) (default : pyval) (c : console)
    : result (pyval * console) :=
  ask from_markup (fun line => s <- process_response None line ;; Ok (VStr s))
      text default c.

(** [Prompt.ask(text, choices=choices, default=default)] *)
Definition Prompt_ask_choices (from_markup : string -> result string)
    (text : string) (choices : list string)
    (default : string) (c : console) : result (string * console) :=
  ask from_markup (process_response (Some choices)) text default c.

End Rich.

Export Rich.

(** A context: the dict handed to [prompt_for_config] and [dump] and
    returned by [load].  Its values are plain or a variable tree. *)
Inductive ctxval : Type :=
| Plain (v : pyval)
| Tree (t : CookiecutterVariable).

Definition context : Type := list (pyval * ctxval).

Fixpoint context_get (k : pyval) (ctx : context) : option ctxval :=
  match ctx with
  | [] => None
  | (k', v) :: ctx' => if py_eq k' k then Some v else context_get k ctx'
  end.

Fixpoint context_set (k : pyval) (v : ctxval) (ctx : context) : context :=
  match ctx with
  | [] => [(k, v)]
  | (k', v') :: ctx' =>
      if py_eq k' k then (k', v) :: ctx' else (k', v') :: context_set k v ctx'
  end.

Definition plain_context (items : list (pyval * pyval)) : context :=
  map (fun kv => (fst kv, Plain (snd kv))) items.

(** What prompt.py takes from outside the three modules:
    [create_env_with_context] (cookiecutter.utils), the template engine
    ([env.from_string(raw).render(cookiecutter=d)]), [str()] of a list or
    dict, [json.loads], [Path.resolve] and rich's [Text.from_markup], which
    gives the text to show or raises [MarkupError]. *)
Class Host : Type := {
  Environment : Type;
  create_env_with_context : context -> result Environment;
  template_render : Environment -> string -> odict -> result string;
  py_repr : pyval -> string;
  json_loads : string -> result pyval;
  path_resolve : Pathlib.PurePath -> Pathlib.PurePath;
  from_markup : string -> result string
}.

(** What replay.py takes from outside: [make_sure_path_exists]
    (cookiecutter.utils), [open(file, 'w')] (which creates or empties the
    file), writing and reading its text, and [yaml.safe_dump] /
    [yaml.safe_load].  [Text] is what a text file holds; the code passes it
    on without looking at it. *)
Class Store : Type := {
  FileSystem : Type;
  Text : Type;
  make_sure_path_exists : string -> FileSystem -> result FileSystem;
  open_write : string -> FileSystem -> result FileSystem;
  write_text : string -> Text -> FileSystem -> result FileSystem;
  read_text : string -> FileSystem -> result Text;
  safe_dump : context -> result Text;
  safe_load : Text -> result pyval
}.

(** What [prompt_and_delete] takes from outside: [os.path.isdir],
    [rmtree] (cookiecutter.utils) and [os.remove]. *)
Class Disk : Type := {
  DiskState : Type;
  isdir : string -> DiskState -> bool;
  rmtree : string -> DiskState -> result DiskState;
  os_remove : string -> DiskState -> result DiskState
}.

(* ===================================================================== *)
(** ** prompt.py                                                          *)
(* ===================================================================== *)

Module Prompt.

Section WithHost.
Context {H : Host}.

Definition nl : string := String (ascii_of_nat 10) EmptyString.

(** [str(v)], as f-strings and [str.format] apply it *)
Definition py_str (v : pyval) : string :=
  match v with
  | VNone => "None"
  | VBool true => "True"
  | VBool false => "False"
  | VInt z => str_of_Z z
  | VStr s => s
  | _ => py_repr v
  end.

(** The expression the three readers share:
    [prompts[var_name] if prompts and var_name in prompts and prompts[var_name]
     else var_name] *)
Definition question_of (var_name : string) (prompts : pyval) : result pyval :=
  if truthy prompts then
    has <- contains (VStr var_name) prompts ;;
    if has then
      q <- getitem prompts (VStr var_name) ;;
      if truthy q then getitem prompts (VStr var_name) else Ok (VStr var_name)
    else Ok (VStr var_name)
  else Ok (VStr var_name).

(** The [while True] of [read_user_variable]; every turn reads at least one
    line, so [fuel] beyond the lines left is never used up. *)
Fixpoint read_user_variable_loop (fuel : nat) (text : string) (default_value : pyval)
    (c : console) : result (pyval * console) :=
  match fuel with
  | 0 => Raise EOFError
  | S fuel' =>
      '(variable, c') <- Prompt_ask from_markup text default_value c ;;
      if negb (is_none variable) then Ok (variable, c')
      else read_user_variable_loop fuel' text default_value c'
  end.

Definition read_user_variable (var_name : string) (default_value prompts : pyval)
    (prefix : string) (c : console) : result (pyval * console) :=
  question <- question_of var_name prompts ;;
  read_user_variable_loop (S (List.length (stdin c)))
                          (prefix ++ py_str question) default_value c.

Definition yes_choices : list string := ["1"; "true"; "t"; "yes"; "y"; "on"].
Definition no_choices : list string := ["0"; "false"; "f"; "no"; "n"; "off"].

(** [YesNoPrompt.process_response] *)
Definition YesNoPrompt_process_response (value : string) : result bool :=
  let value := lower (strip value) in
  if existsb (String.eqb value) yes_choices then Ok true
  else if existsb (String.eqb value) no_choices then Ok false
  else Raise (InvalidResponse "Please enter Y or N").

Definition read_user_yes_no (var_name : string) (default_value prompts : pyval)
    (prefix : string) (c : console) : result (pyval * console) :=
  question <- question_of var_name prompts ;;
  ask from_markup (fun line => b <- YesNoPrompt_process_response line ;; Ok (VBool b))
      (prefix ++ py_str question) default_value c.

(** [enumerate(options, 1)] with the index formatted: the items of
    [choice_map] *)
Fixpoint enumerate_from (i : nat) (options : list pyval) : odict :=
  match options with
  | [] => []
  | o :: options' => (str_of_nat i, o) :: enumerate_from (S i) options'
  end.

Fixpoint mapM {A B : Type} (f : A -> result B) (l : list A) : result (list B) :=
  match l with
  | [] => Ok []
  | x :: l' => y <- f x ;; ys <- mapM f l' ;; Ok (y :: ys)
  end.

Definition choice_line (k label : string) : string :=
  "    [bold magenta]" ++ k ++ "[/] - [bold]" ++ label ++ "[/]".

Definition read_user_choice (var_name : string) (options prompts : pyval)
    (prefix : string) (c : console) : result (pyval * console) :=
  if negb (truthy options) then Raise (ValueError "")
  else
    opts <- iter options ;;
    let choice_map := enumerate_from 1 opts in
    let choices := od_keys choice_map in
    let question := VStr ("Select " ++ var_name) in
    names <- mapM (fun kv => n <- getitem (snd kv) (VStr "name") ;; Ok (fst kv, n))
                  choice_map ;;
    let choice_lines : result (list string) :=
      Ok (map (fun kn => choice_line (fst kn) (py_str (snd kn))) names) in
    '(question, choice_lines) <-
      (if truthy prompts then
         has <- contains (VStr var_name) prompts ;;
         if has then
           p <- getitem prompts (VStr var_name) ;;
           if is_str p then Ok (p, choice_lines)
           else
             has_prompt <- contains (VStr "__prompt__") p ;;
             question <- (if has_prompt then getitem p (VStr "__prompt__")
                          else Ok question) ;;
             Ok (question,
                 mapM (fun kv =>
                         n <- getitem (snd kv) (VStr "name") ;;
                         known <- contains n p ;;
                         if known then
                           label <- getitem p n ;;
                           Ok (choice_line (fst kv) (py_str label))
                         else
                           Ok (choice_line (fst kv) (py_str n)))
                      choice_map)
         else Ok (question, choice_lines)
       else Ok (question, choice_lines)) ;;
    let head := prefix ++ py_str question in
    lines <- choice_lines ;;
    let prompt_ := join nl [head; join nl lines; "    Choose from"] in
    '(user_choice, c') <-
       Prompt_ask_choices from_markup prompt_ choices (hd "" choices) c ;;
    match od_get user_choice choice_map with
    | Some o => Ok (o, c')
    | None => Raise KeyError
    end.

Definition DEFAULT_DISPLAY : string := "default".

Definition process_json (user_value : string) : result pyval :=
  match json_loads user_value with
  | Raise _ => Raise (InvalidResponse "Unable to decode to JSON.")
  | Ok user_dict =>
      if negb (is_dict user_dict) then Raise (InvalidResponse "Requires JSON dict.")
      else Ok user_dict
  end.

Definition read_user_dict (var_name : string) (default_value prompts : pyval)
    (prefix : string) (c : console) : result (pyval * console) :=
  if negb (is_dict default_value) then Raise TypeError
  else
    question <- question_of var_name prompts ;;
    ask from_markup process_json
        (prefix ++ py_str question ++ " [cyan bold](" ++ DEFAULT_DISPLAY ++ ")[/]")
        default_value c.

Fixpoint render_variable (env : Environment) (raw : pyval) (cookiecutter_dict : odict)
    {struct raw} : result pyval :=
  match raw with
  | VNone | VBool _ => Ok raw
  | VDict items =>
      (fix each (items : list (pyval * pyval)) (acc : list (pyval * pyval))
         : result pyval :=
         match items with
         | [] => Ok (VDict acc)
         | (k, v) :: items' =>
             k' <- render_variable env k cookiecutter_dict ;;
             v' <- render_variable env v cookiecutter_dict ;;
             if hashable k' then each items' (dict_set k' v' acc) else Raise TypeError
         end) items []
  | VList l =>
      l' <- (fix each (l : list pyval) : result (list pyval) :=
               match l with
               | [] => Ok []
               | v :: l' =>
                   v' <- render_variable env v cookiecutter_dict ;;
                   vs <- each l' ;;
                   Ok (v' :: vs)
               end) l ;;
      Ok (VList l')
  | VInt z =>
      s <- template_render env (str_of_Z z) cookiecutter_dict ;; Ok (VStr s)
  | VStr raw =>
      s <- template_render env raw cookiecutter_dict ;; Ok (VStr s)
  end.

Definition _prompts_from_options (options : pyval) : result pyval :=
  opts <- iter options ;;
  prompts <- fold_left
    (fun acc opt =>
       prompts <- acc ;;
       title <- getitem opt (VStr "name") ;;
       description <- dict_method_get opt "description" (VStr "") ;;
       let label := if py_eq title description then title
                    else VStr (py_str title ++ " (" ++ py_str description ++ ")") in
       if hashable title then Ok (dict_set title label prompts) else Raise TypeError)
    opts (Ok [(VStr "__prompt__", VStr "Select a template")]) ;;
  Ok (VDict prompts).


Definition prompt_choice_for_config (cookiecutter_dict : odict) (env : Environment)
    (key : string) (options : list pyval) (no_input : bool) (prompts : pyval)
    (prefix : string) (c : console) : result (pyval * console) :=
  rendered_options <- mapM (fun raw => render_variable env raw cookiecutter_dict) options ;;
  if no_input then o <- getitem (VList rendered_options) (VInt 0) ;; Ok (o, c)
  else read_user_choice key (VList rendered_options) prompts prefix c.

(** The [if]/[elif] chain that opens [get_cookiecutter_values]: the value
    of [v] itself, stored under [name_]. *)
Definition store_own_value (v : CookiecutterVariable) (cookiecutter_dict : odict)
    (env : Environment) (no_input : bool) (prefix name_ : string) (c : console)
    : result (odict * console) :=
  let prompts := VDict [(VStr (name v), VStr (prompt v))] in
  match value v with
  | VList options =>
      '(val, c') <- prompt_choice_for_config cookiecutter_dict env (name v) options
                                             no_input prompts prefix c ;;
      choice <- getitem val (VStr "name") ;;
      Ok (od_set name_ choice cookiecutter_dict, c')
  | VBool _ =>
      if no_input then
        val <- render_variable env (value v) cookiecutter_dict ;;
        Ok (od_set name_ val cookiecutter_dict, c)
      else
        '(val, c') <- read_user_yes_no (name v) (value v) prompts prefix c ;;
        Ok (od_set name_ val cookiecutter_dict, c')
  | VDict _ => Ok (cookiecutter_dict, c)
  | _ =>
      val <- render_variable env (value v) cookiecutter_dict ;;
      '(val, c') <- (if negb no_input
                     then read_user_variable (name v) val prompts prefix c
                     else Ok (val, c)) ;;
      Ok (od_set name_ val cookiecutter_dict, c')
  end.

Fixpoint get_cookiecutter_values (v : CookiecutterVariable) (cookiecutter_dict : odict)
    (env : Environment) (no_input : bool) (prefix parent : string) (c : console)
    {struct v} : result (odict * console) :=
  let name_ := parent ++ name v in
  '(cookiecutter_dict, c) <-
     store_own_value v cookiecutter_dict env no_input prefix name_ c ;;
  (fix branches (bs : list CookiecutterVariable) (cookiecutter_dict : odict)
       (c : console) {struct bs} : result (odict * console) :=
     match bs with
     | [] => Ok (cookiecutter_dict, c)
     | branch :: bs' =>
         match od_get name_ cookiecutter_dict with
         | None => Raise KeyError
         | Some stored =>
             if py_eq (matches branch) stored then
               '(cookiecutter_dict, c) <-
                  get_cookiecutter_values branch cookiecutter_dict env no_input
                                          prefix (name_ ++ "/") c ;;
               branches bs' cookiecutter_dict c
             else branches bs' cookiecutter_dict c
         end
     end) (variables v) cookiecutter_dict c.

(** [except UndefinedError as err: raise UndefinedVariableInTemplate(msg, err, context)] *)
Definition reraise_undefined {A : Type} (var_name : string) (r : result A) : result A :=
  match r with
  | Raise UndefinedError =>
      Raise (UndefinedVariableInTemplate ("Unable to render variable '" ++ var_name ++ "'"))
  | _ => r
  end.

Definition is_private (v : CookiecutterVariable) : bool :=
  startswith (name v) "_" && negb (startswith (name v) "__").

Definition count_prefix (count size : nat) : string :=
  "  [dim][" ++ str_of_nat count ++ "/" ++ str_of_nat size ++ "][/] ".

(** The first [for] loop of [prompt_for_config]. *)
Fixpoint first_pass (env : Environment) (no_input : bool) (size : nat)
    (vs : list CookiecutterVariable) (cookiecutter_dict : odict) (c : console)
    (count : nat) : result (odict * console * nat) :=
  match vs with
  | [] => Ok (cookiecutter_dict, c, count)
  | v :: vs' =>
      if is_private v then
        first_pass env no_input size vs' (od_set (name v) (value v) cookiecutter_dict)
                   c count
      else if startswith (name v) "__" then
        val <- render_variable env (value v) cookiecutter_dict ;;
        first_pass env no_input size vs' (od_set (name v) val cookiecutter_dict) c count
      else
        let count := if negb (is_dict (value v)) then S count else count in
        let prefix := if negb (is_dict (value v)) then count_prefix count size else "" in
        '(cookiecutter_dict, c) <-
           reraise_undefined (name v)
             (get_cookiecutter_values v cookiecutter_dict env no_input prefix "" c) ;;
        first_pass env no_input size vs' cookiecutter_dict c count
  end.

(** The body of the second loop for one dict variable. *)
Definition resolve_dict (env : Environment) (no_input : bool) (size : nat)
    (v : CookiecutterVariable) (cookiecutter_dict : odict) (c : console) (count : nat)
    : result (odict * console * nat) :=
  let count := S count in
  let prefix := count_prefix count size in
  val <- render_variable env (value v) cookiecutter_dict ;;
  '(val, c) <- (if negb no_input && negb (startswith (name v) "__")
                then read_user_dict (name v) val
                       (VDict [(VStr (name v), VStr (prompt v))]) prefix c
                else Ok (val, c)) ;;
  Ok (od_set (name v) val cookiecutter_dict, c, count).

(** The second [for] loop of [prompt_for_config]. *)
Fixpoint second_pass (env : Environment) (no_input : bool) (size : nat)
    (vs : list CookiecutterVariable) (cookiecutter_dict : odict) (c : console)
    (count : nat) : result (odict * console * nat) :=
  match vs with
  | [] => Ok (cookiecutter_dict, c, count)
  | v :: vs' =>
      if is_private v then second_pass env no_input size vs' cookiecutter_dict c count
      else if is_dict (value v) then
        '(cookiecutter_dict, c, count) <-
           reraise_undefined (name v)
             (resolve_dict env no_input size v cookiecutter_dict c count) ;;
        second_pass env no_input size vs' cookiecutter_dict c count
      else second_pass env no_input size vs' cookiecutter_dict c count
  end.

(** [context['cookiecutter'].variables] *)
Definition context_variables (ctx : context) : result (list CookiecutterVariable) :=
  match context_get (VStr "cookiecutter") ctx with
  | None => Raise KeyError
  | Some (Plain _) => Raise AttributeError
  | Some (Tree t) => Ok (variables t)
  end.

Definition prompt_for_config (ctx : context) (no_input : bool) (c : console)
    : result (odict * console) :=
  let cookiecutter_dict : odict := [] in
  env <- create_env_with_context ctx ;;
  let count := 0 in
  vs <- context_variables ctx ;;
  let visible_prompts :=
    map prompt (filter (fun v => negb (startswith (name v) "_")) vs) in
  let size := List.length visible_prompts in
  '(cookiecutter_dict, c, count) <-
     first_pass env no_input size vs cookiecutter_dict c count ;;
  '(cookiecutter_dict, c, _) <-
     second_pass env no_input size vs cookiecutter_dict c count ;;
  Ok (cookiecutter_dict, c).


(** [prompt_loop_exit]: the default ["Yes"] is a str, and true. *)
Definition prompt_loop_exit (prefix : string) (c : console) : result (bool * console) :=
  '(stop_loop, c) <- read_user_yes_no "Exit?" (VStr "Yes") VNone prefix c ;;
  Ok (negb (truthy stop_loop), c).

(** [inner_func(prefix=prefix, **inner_func_args)]: the argument after
    [**] must be a mapping with str keys, none of them [prefix], which is
    given already. *)
Definition call_inner (inner_func : string -> list (pyval * pyval) -> console ->
                                    result (pyval * console))
    (prefix : string) (inner_func_args : pyval) (c : console) : result (pyval * console) :=
  match inner_func_args with
  | VDict kwargs =>
      if forallb (fun kv => is_str (fst kv)) kwargs then
        if existsb (fun kv => py_eq (fst kv) (VStr "prefix")) kwargs then Raise TypeError
        else inner_func prefix kwargs c
      else Raise TypeError
  | _ => Raise TypeError
  end.

(** The [while loop] of [read_user_variable_json].  Every turn reads at
    least one line, so with an [inner_func] that adds no input, [fuel]
    beyond the lines left is never used up. *)
Fixpoint read_user_variable_json_loop (fuel : nat) (var_name exit_condition prefix : string)
    (inner_func : option (string -> list (pyval * pyval) -> console ->
                          result (pyval * console)))
    (inner_func_args : pyval) (variables_ : odict) (c : console)
    : result (odict * console) :=
  match fuel with
  | 0 => Raise EOFError
  | S fuel' =>
      '(var, c) <- read_user_variable var_name (VStr exit_condition) VNone prefix c ;;
      if negb (py_eq var (VStr exit_condition)) then
        key <- as_str var ;;
        let variables_ := od_set key (VDict []) variables_ in
        '(variables_, c) <-
           match inner_func with
           | Some f =>
               '(val, c) <- call_inner f prefix inner_func_args c ;;
               Ok (od_set key val variables_, c)
           | None => Ok (variables_, c)
           end ;;
        read_user_variable_json_loop fuel' var_name exit_condition prefix
                                     inner_func inner_func_args variables_ c
      else
        '(loop, c) <- prompt_loop_exit prefix c ;;
        if loop then
          read_user_variable_json_loop fuel' var_name exit_condition prefix
                                       inner_func inner_func_args variables_ c
        else Ok (variables_, c)
  end.

Definition read_user_variable_json (var_name exit_condition prefix : string)
    (inner_func : option (string -> list (pyval * pyval) -> console ->
                          result (pyval * console)))
    (inner_func_args : pyval) (c : console) : result (odict * console) :=
  read_user_variable_json_loop (S (List.length (stdin c))) var_name exit_condition
                               prefix inner_func inner_func_args [] c.

Definition read_user_variable_list (var_name exit_condition prefix : string)
    (c : console) : result (list string * console) :=
  '(variables_, c) <-
     read_user_variable_json var_name exit_condition prefix None (VList []) c ;;
  Ok (od_keys variables_, c).

Section WithDisk.
Context {D : Disk}.

(** [prompt_and_delete]; [sys.exit()] is the exception [SystemExit]. *)
Definition prompt_and_delete (path : string) (no_input : bool) (c : console)
    (fs : DiskState) : result (bool * console * DiskState) :=
  '(ok_to_delete, c) <-
     (if no_input then Ok (VBool true, c)
      else
        let question :=
          "You've downloaded " ++ path ++
          " before. Is it okay to delete and re-download it?" in
        read_user_yes_no question (VStr "yes") VNone "" c) ;;
  if truthy ok_to_delete then
    fs <- (if isdir path fs then rmtree path fs else os_remove path fs) ;;
    Ok (true, c, fs)
  else
    '(ok_to_reuse, c) <-
       read_user_yes_no "Do you want to re-use the existing version?"
                        (VStr "yes") VNone "" c ;;
    if truthy ok_to_reuse then Ok (false, c, fs)
    else Raise (ExternalError "SystemExit").

End WithDisk.

End WithHost.
End Prompt.

(* ===================================================================== *)
(** ** replay.py                                                          *)
(* ===================================================================== *)

Module Replay.

(** [os.path.join(a, b)] on POSIX *)
Definition os_path_join (a b : string) : string :=
  if startswith b "/" then b
  else if String.eqb a "" || endswith a "/" then a ++ b
  else a ++ "/" ++ b.

Definition get_file_name (replay_dir template_name : string) : string :=
  let suffix := if negb (endswith template_name ".yaml") then ".yaml" else ".json" in
  let file_name := template_name ++ suffix in
  os_path_join replay_dir file_name.

Section WithStore.
Context {S : Store}.

Definition has_cookiecutter (ctx : context) : bool :=
  match context_get (VStr "cookiecutter") ctx with Some _ => true | None => false end.

Definition dump (replay_dir template_name : string) (ctx : context) (fs : FileSystem)
    : result FileSystem :=
  fs <- make_sure_path_exists replay_dir fs ;;
  if negb (has_cookiecutter ctx) then
    Raise (ValueError "Context is required to contain a cookiecutter key")
  else
    let replay_file := get_file_name replay_dir template_name in
    fs <- open_write replay_file fs ;;
    text <- safe_dump ctx ;;
    write_text replay_file text fs.

Definition load (replay_dir template_name : string) (fs : FileSystem) : result context :=
  let replay_file := get_file_name replay_dir template_name in
  text <- read_text replay_file fs ;;
  doc <- safe_load text ;;
  has <- contains (VStr "cookiecutter") doc ;;
  if negb has then
    Raise (ValueError "Context is required to contain a cookiecutter key")
  else
    cookiecutter <- getitem doc (VStr "cookiecutter") ;;
    tree <- from_dict cookiecutter ;;
    match doc with
    | VDict items =>
        Ok (context_set (VStr "cookiecutter") (Tree tree) (plain_context items))
    | _ => Raise TypeError
    end.

End WithStore.
End Replay.

(* ===================================================================== *)
(** ** Concrete collaborators, used to run the code on examples           *)
(* ===================================================================== *)

Module Examples.

(** A small template engine: ["$k"] renders to the string stored under [k]
    and is undefined when [k] is not resolved yet; ["?k"] renders to ["yes"]
    or ["no"] according to whether [k] is resolved; any other text renders
    to itself. *)
Definition toy_render (raw : string) (d : odict) : result string :=
  match raw with
  | String "$" k =>
      match od_get k d with
      | Some (VStr s) => Ok s
      | Some _ => Ok "<value>"
      | None => Raise UndefinedError
      end
  | String "?" k => Ok (if od_mem k d then "yes" else "no")
  | _ => Ok raw
  end.

(** A small markup parser: a tag opens with a bracket and a small letter
    and closes with a bracket and a slash; a closing tag with nothing open
    is an error; the text is shown with its tags left in. *)
Fixpoint toy_tags (s : string) (open_tags : nat) : bool :=
  match s with
  | String "[" (String c s') =>
      if Ascii.eqb c "/" then
        match open_tags with
        | 0 => false
        | S n => toy_tags s' n
        end
      else
        let n := nat_of_ascii c in
        if (97 <=? n)%nat && (n <=? 122)%nat then toy_tags s' (S open_tags)
        else toy_tags s' open_tags
  | String _ s' => toy_tags s' open_tags
  | EmptyString => true
  end.

Definition toy_markup (text : string) : result string :=
  if toy_tags text 0 then Ok text else Raise (ExternalError "MarkupError").

#[export] Instance toy_host : Host := {|
  Environment := unit;
  create_env_with_context := fun _ => Ok tt;
  template_render := fun _ => toy_render;
  py_repr := fun _ => "<repr>";
  json_loads := fun _ => Raise (ExternalError "json");
  path_resolve := Pathlib.lexical_resolve (Pathlib.Path "/work");
  from_markup := toy_markup
|}.

(** A file system that is a list of files, and a YAML that loads back
    exactly the plain mapping that was dumped (and cannot represent a
    [CookiecutterVariable] object). *)
Fixpoint file_get (path : string) (fs : list (string * pyval)) : result pyval :=
  match fs with
  | [] => Raise (ExternalError "FileNotFoundError")
  | (p, t) :: fs' => if String.eqb p path then Ok t else file_get path fs'
  end.

Fixpoint plain_items (ctx : context) : result (list (pyval * pyval)) :=
  match ctx with
  | [] => Ok []
  | (k, Plain v) :: ctx' => items <- plain_items ctx' ;; Ok ((k, v) :: items)
  | (_, Tree _) :: _ => Raise (ExternalError "RepresenterError")
  end.

#[export] Instance toy_store : Store := {|
  FileSystem := list (string * pyval);
  Text := pyval;
  make_sure_path_exists := fun _ fs => Ok fs;
  open_write := fun path fs => Ok ((path, VNone) :: fs);
  write_text := fun path text fs => Ok ((path, text) :: fs);
  read_text := file_get;
  safe_dump := fun ctx => items <- plain_items ctx ;; Ok (VDict items);
  safe_load := fun text => Ok text
|}.

(** A disk that is a list of paths, each a directory or a file. *)
Definition toy_exists (path : string) (fs : list (string * bool)) : bool :=
  existsb (fun e => String.eqb (fst e) path) fs.

Definition toy_delete (path : string) (fs : list (string * bool)) : list (string * bool) :=
  filter (fun e => negb (String.eqb (fst e) path)) fs.

#[export] Instance toy_disk : Disk := {|
  DiskState := list (string * bool);
  isdir := fun path fs => existsb (fun e => String.eqb (fst e) path && snd e) fs;
  rmtree := fun path fs => Ok (toy_delete path fs);
  os_remove := fun path fs =>
    if toy_exists path fs then Ok (toy_delete path fs)
    else Raise (ExternalError "FileNotFoundError")
|}.




Definition leaf (name_ : string) (value_ : pyval) : CookiecutterVariable :=
  VariablesPy.init name_ value_ "" [] VNone VNone.

Definition node (name_ : string) (value_ : pyval)
    (variables_ : list CookiecutterVariable) : CookiecutterVariable :=
  VariablesPy.init name_ value_ "" variables_ VNone VNone.

Definition branch (name_ : string) (value_ matches_ : pyval)
    (variables_ : list CookiecutterVariable) : CookiecutterVariable :=
  VariablesPy.init name_ value_ "" variables_ matches_ VNone.

Definition root_of (vs : list CookiecutterVariable) : context :=
  [(VStr "cookiecutter", Tree (node "" VNone vs))].

Definition quiet : console := mkConsole [] [].

(** [kind = "x"] with three branch children: a dict-valued one and a
    private-looking one that match ["x"], and one that matches ["y"]. *)
Definition opts : CookiecutterVariable :=
  branch "opts" (VDict [(VStr "k", VStr "v")]) (VStr "x") [].
Definition secret : CookiecutterVariable :=
  branch "_secret" (VStr "$kind") (VStr "x") [].
Definition other : CookiecutterVariable :=
  branch "other" (VStr "o") (VStr "y") [].
Definition kind : CookiecutterVariable :=
  node "kind" (VStr "x") [opts; secret; other].

(** A dict-valued variable that has branch children, in three places: at
    the top level under a private name, inside a branch that is not
    selected, and at the top level under a public name. *)
Definition settings (name_ : string) (matches_ : pyval) : CookiecutterVariable :=
  branch name_ (VDict [(VStr "k", VStr "v")]) matches_ [leaf "inner" (VStr "i")].
Definition sheltered : context :=
  root_of [ settings "_settings" VNone;
            node "kind" (VStr "x") [settings "extra" (VStr "y")] ].
Definition exposed : context :=
  root_of [ leaf "kind" (VStr "x"); settings "settings" VNone ].

(** Dict-valued variables under marker names, around a scalar [later]. *)
Definition meta_first : context :=
  root_of [ leaf "__meta" (VDict [(VStr "k", VStr "$later")]); leaf "later" (VStr "L") ].
Definition meta_last : context :=
  root_of [ leaf "later" (VStr "L"); leaf "__meta" (VDict [(VStr "k", VStr "$later")]) ].
Definition raw_dict : context :=
  root_of [ leaf "later" (VStr "L"); leaf "_raw" (VDict [(VStr "k", VStr "$later")]) ].
Definition files_first : context :=
  root_of [ leaf "files" (VDict [(VStr "a", VStr "$later")]); leaf "later" (VStr "L") ].

(** Sibling names are unique at every level, yet two descendants have the
    path ["a/b"]. *)
Definition clash : CookiecutterVariable :=
  node "" VNone [ node "a" (VStr "1") [leaf "b" (VStr "2")]; leaf "a/b" (VStr "3") ].


End Examples.

Import Examples.

(* ===================================================================== *)
(** ** Definitions used to state the properties                           *)
(* ===================================================================== *)

Import Prompt.

(** Every descendant of a list of sibling variables, in pre-order, with its
    ['/']-joined path below [parent] and its raw value; no [matches] test. *)
Fixpoint descendants (parent : string) (v : CookiecutterVariable) : odict :=
  (parent ++ name v, value v) ::
  (fix each (vs : list CookiecutterVariable) : odict :=
     match vs with
     | [] => []
     | b :: vs' => (descendants ((parent ++ name v) ++ "/") b ++ each vs')%list
     end) (variables v).

Definition descendants_of (parent : string) (vs : list CookiecutterVariable) : odict :=
  flat_map (descendants parent) vs.

(** The value of the last item of [l] stored under [k]. *)
Fixpoint last_value (k : string) (l : odict) : option pyval :=
  match l with
  | [] => None
  | (k', v) :: l' =>
      match last_value k l' with
      | Some w => Some w
      | None => if String.eqb k' k then Some v else None
      end
  end.

Fixpoint distinct (l : list string) : bool :=
  match l with
  | [] => true
  | x :: l' => negb (existsb (String.eqb x) l') && distinct l'
  end.

(** The flat keys the first loop of [prompt_for_config] may write for a
    top-level variable [v], and the names the second loop writes. *)
Definition first_writes (v : CookiecutterVariable) : list string :=
  if negb (startswith (name v) "_") && is_dict (value v) then []
  else od_keys (descendants "" v).

Definition second_writes (l : list CookiecutterVariable) : list string :=
  map name (filter (fun v => negb (is_private v) && is_dict (value v)) l).


(** No variable under a double marker is dict-valued. *)
Definition no_derived_dict (l : list CookiecutterVariable) : bool :=
  forallb (fun v => negb (startswith (name v) "__" && is_dict (value v))) l.

(** A variable tree written out as the mapping [from_dict] reads, entry
    by entry, and the trees [__init__] can have built: an empty prompt only
    beside an empty name. *)
Fixpoint serialize (t : CookiecutterVariable) : pyval :=
  VDict [ (VStr "name", VStr (name t));
          (VStr "value", value t);
          (VStr "prompt", VStr (prompt t));
          (VStr "variables", VList (map serialize (variables t)));
          (VStr "matches", matches t);
          (VStr "metadata", metadata t) ].

Fixpoint canonical (t : CookiecutterVariable) : bool :=
  (negb (String.eqb (prompt t) "") || String.eqb (name t) "") &&
  forallb canonical (variables t).




(** A text of white space only. *)
Fixpoint blank (s : string) : bool :=
  match s with
  | EmptyString => true
  | String c s' => is_space c && blank s'
  end.


(** A tree with every raw value forgotten: names, prompts, branches,
    [matches] and metadata only. *)
Fixpoint erase (t : CookiecutterVariable) : CookiecutterVariable :=
  mkVariable (name t) VNone (prompt t) (map erase (variables t)) (matches t) (metadata t).

(** The descendant that [get] reaches along a list of names. *)
Fixpoint lookup_path (parents : list string) (self : CookiecutterVariable)
    : option CookiecutterVariable :=
  match parents with
  | [] => Some self
  | first :: rest =>
      match find (fun v => String.eqb (name v) first) (variables self) with
      | Some child => lookup_path rest child
      | None => None
      end
  end.

(** The text of a name holds no slash. *)
Definition no_slash (s : string) : bool :=
  match split "/" s with [_] => true | _ => false end.


(** The [for v in self.variables] loop of [to_cookiecutter_dict]. *)
Definition flatten_loop (parent : string)
    : list CookiecutterVariable -> odict -> odict :=
  fix loop (vs : list CookiecutterVariable) (d : odict) : odict :=
    match vs with
    | [] => d
    | v :: vs' =>
        let name_ := parent ++ name v in
        let d := od_set name_ (value v) d in
        let d := od_update d (to_cookiecutter_dict v (name_ ++ "/")) in
        loop vs' d
    end.

(** [get_cookiecutter_values] on each of [bs] in turn, under [parent]. *)
Section ResolveEach.
Context {H : Host}.

Fixpoint resolve_each (bs : list CookiecutterVariable) (cookiecutter_dict : odict)
    (env : Environment) (no_input : bool) (prefix parent : string) (c : console)
    : result (odict * console) :=
  match bs with
  | [] => Ok (cookiecutter_dict, c)
  | b :: bs' =>
      '(cookiecutter_dict, c) <-
         get_cookiecutter_values b cookiecutter_dict env no_input prefix parent c ;;
      resolve_each bs' cookiecutter_dict env no_input prefix parent c
  end.

(** The [for branch in v.variables] loop, with the recursive call as [rec]. *)
Definition branches_loop (rec : CookiecutterVariable -> odict -> console -> result (odict * console))
    (name_ : string) : list CookiecutterVariable -> odict -> console -> result (odict * console) :=
  fix branches (bs : list CookiecutterVariable) (cookiecutter_dict : odict) (c : console)
      {struct bs} : result (odict * console) :=
    match bs with
    | [] => Ok (cookiecutter_dict, c)
    | branch :: bs' =>
        match od_get name_ cookiecutter_dict with
        | None => Raise KeyError
        | Some stored =>
            if py_eq (matches branch) stored then
              '(cookiecutter_dict, c) <- rec branch cookiecutter_dict c ;;
              branches bs' cookiecutter_dict c
            else branches bs' cookiecutter_dict c
        end
    end.

End ResolveEach.


(* ===================================================================== *)
(** ** Lemmas                                                             *)
(* ===================================================================== *)

(** Induction on a variable tree, with the hypothesis for every child. *)
Section TreeInduction.
Variable P : CookiecutterVariable -> Prop.
Hypothesis step : forall n v p vs m md,
  Forall P vs -> P (mkVariable n v p vs m md).

Fixpoint tree_ind (t : CookiecutterVariable) : P t :=
  match t with
  | mkVariable n v p vs m md =>
      step n v p vs m md
        ((fix each (vs : list CookiecutterVariable) : Forall P vs :=
            match vs with
            | [] => Forall_nil P
            | b :: vs' => Forall_cons b (tree_ind b) (each vs')
            end) vs)
  end.
End TreeInduction.

Section ValueInduction.
Variable P : pyval -> Prop.
Hypothesis on_none : P VNone.
Hypothesis on_bool : forall b, P (VBool b).
Hypothesis on_int : forall z, P (VInt z).
Hypothesis on_str : forall s, P (VStr s).
Hypothesis on_list : forall l, Forall P l -> P (VList l).
Hypothesis on_dict : forall items,
  Forall (fun kv => P (fst kv) /\ P (snd kv)) items -> P (VDict items).

Fixpoint value_ind (v : pyval) : P v :=
  match v with
  | VNone => on_none
  | VBool b => on_bool b
  | VInt z => on_int z
  | VStr s => on_str s
  | VList l =>
      on_list l
        ((fix each (l : list pyval) : Forall P l :=
            match l with
            | [] => Forall_nil P
            | x :: l' => Forall_cons x (value_ind x) (each l')
            end) l)
  | VDict items =>
      on_dict items
        ((fix each (items : list (pyval * pyval))
            : Forall (fun kv => P (fst kv) /\ P (snd kv)) items :=
            match items with
            | [] => Forall_nil _
            | kv :: items' =>
                Forall_cons kv (conj (value_ind (fst kv)) (value_ind (snd kv)))
                            (each items')
            end) items)
  end.
End ValueInduction.

Section StringFacts.

Lemma prefix_refl_app (p s : string) : String.prefix p (p ++ s) = true.
Proof.
  induction p as [|a p IH]; simpl.
  - destruct s; reflexivity.
  - destruct (ascii_dec a a) as [_|n]; [exact IH | contradiction].
Qed.

Lemma prefix_app_left (p x k : string) :
  String.prefix (p ++ x) k = true -> String.prefix p k = true.
Proof.
  revert k; induction p as [|a p IH]; intros k Hk; simpl in *.
  - destruct k; reflexivity.
  - destruct k as [|b k]; [discriminate|]. simpl in *.
    destruct (ascii_dec a b); [apply IH; exact Hk | discriminate].
Qed.

Lemma prefix_length (p k : string) :
  String.prefix p k = true -> String.length p <= String.length k.
Proof.
  revert k; induction p as [|a p IH]; intros k Hk; simpl in *; [lia|].
  destruct k as [|b k]; [discriminate|]. simpl in *.
  destruct (ascii_dec a b); [|discriminate].
  apply IH in Hk. lia.
Qed.

Lemma length_append (a b : string) :
  String.length (a ++ b) = String.length a + String.length b.
Proof. induction a; simpl; auto. Qed.

Lemma append_assoc' (a b c : string) : (a ++ b) ++ c = a ++ (b ++ c).
Proof. induction a; simpl; congruence. Qed.

Lemma not_prefix_longer (n x : string) :
  x <> "" -> String.prefix (n ++ x) n = false.
Proof.
  intros Hx. destruct (String.prefix (n ++ x) n) eqn:E; [|reflexivity].
  apply prefix_length in E. rewrite length_append in E.
  destruct x; [contradiction | simpl in E; lia].
Qed.

Lemma startswith_under (k parent x : string) :
  startswith k parent = false -> startswith k (parent ++ x) = false.
Proof.
  unfold startswith. intros Hk.
  destruct (String.prefix (parent ++ x) k) eqn:E; [|reflexivity].
  apply prefix_app_left in E. congruence.
Qed.

End StringFacts.

Section OdictFacts.

Lemma od_get_set (k k' : string) (v : pyval) (d : odict) :
  od_get k (od_set k' v d) = if String.eqb k' k then Some v else od_get k d.
Proof.
  induction d as [|[k0 v0] d IH]; simpl.
  - reflexivity.
  - destruct (String.eqb k0 k') eqn:E0; simpl.
    + apply String.eqb_eq in E0; subst k0.
      destruct (String.eqb k' k); reflexivity.
    + rewrite IH. destruct (String.eqb k0 k) eqn:E1; [|reflexivity].
      apply String.eqb_eq in E1; subst k0.
      rewrite String.eqb_sym, E0. reflexivity.
Qed.

Lemma od_get_set_same (k : string) (v : pyval) (d : odict) :
  od_get k (od_set k v d) = Some v.
Proof. rewrite od_get_set, String.eqb_refl. reflexivity. Qed.

Lemma od_get_set_other (k k' : string) (v : pyval) (d : odict) :
  k' <> k -> od_get k (od_set k' v d) = od_get k d.
Proof.
  intros Hk. rewrite od_get_set.
  destruct (String.eqb k' k) eqn:E; [apply String.eqb_eq in E; contradiction | reflexivity].
Qed.


End OdictFacts.

Section FlattenFacts.

Lemma to_cookiecutter_dict_unfold self parent :
  to_cookiecutter_dict self parent = flatten_loop parent (variables self) [].
Proof. destruct self; reflexivity. Qed.

Lemma descendants_unfold parent v :
  descendants parent v =
  (parent ++ name v, value v) :: descendants_of ((parent ++ name v) ++ "/") (variables v).
Proof.
  destruct v; reflexivity.
Qed.

Lemma last_value_app k a b :
  last_value k (a ++ b)%list =
  match last_value k b with Some w => Some w | None => last_value k a end.
Proof.
  induction a as [|[k' v] a IH]; simpl.
  - destruct (last_value k b); reflexivity.
  - rewrite IH. destruct (last_value k b); reflexivity.
Qed.

Lemma od_get_update k e : forall d,
  od_get k (od_update d e) =
  match last_value k e with Some w => Some w | None => od_get k d end.
Proof.
  unfold od_update.
  induction e as [|[k' v] e IH]; intros d; simpl; [reflexivity|].
  rewrite IH. destruct (last_value k e); [reflexivity|].
  rewrite od_get_set. destruct (String.eqb k' k); reflexivity.
Qed.

Lemma od_get_none_not_key k d : od_get k d = None <-> ~ In k (od_keys d).
Proof.
  induction d as [|[k' v] d IH]; simpl.
  - tauto.
  - destruct (String.eqb k' k) eqn:E.
    + apply String.eqb_eq in E. split; [discriminate | intros Hn; exfalso; auto].
    + apply String.eqb_neq in E. rewrite IH. tauto.
Qed.

Lemma od_set_fresh k v d : ~ In k (od_keys d) -> od_set k v d = (d ++ [(k, v)])%list.
Proof.
  induction d as [|[k' v'] d IH]; simpl; intros Hk; [reflexivity|].
  destruct (String.eqb k' k) eqn:E.
  - apply String.eqb_eq in E. exfalso; auto.
  - rewrite IH by tauto. reflexivity.
Qed.

Lemma NoDup_app_iff' {A : Type} (a b : list A) :
  NoDup (a ++ b) <-> NoDup a /\ NoDup b /\ (forall x, In x a -> ~ In x b).
Proof.
  induction a as [|x a IH]; simpl.
  - split; [intros Hb; repeat split; [constructor | exact Hb | tauto] | tauto].
  - split.
    + intros Hn. inversion Hn as [|? ? Hx Hab]; subst.
      apply IH in Hab. destruct Hab as [Ha [Hb Hd]].
      repeat split; auto.
      * constructor; auto. intros Hin. apply Hx. apply in_or_app. auto.
      * intros y [->|Hy] Hyb; [apply Hx; apply in_or_app; auto | eapply Hd; eauto].
    + intros [Ha [Hb Hd]]. inversion Ha as [|? ? Hx Ha']; subst.
      constructor.
      * intros Hin. apply in_app_or in Hin. destruct Hin; [auto | eapply Hd; eauto].
      * apply IH. repeat split; auto.
Qed.

Lemma od_keys_app (a b : odict) :
  od_keys (a ++ b)%list = (od_keys a ++ od_keys b)%list.
Proof. apply map_app. Qed.

Lemma od_update_fresh e : forall d,
  NoDup (od_keys e) -> (forall k, In k (od_keys e) -> ~ In k (od_keys d)) ->
  od_update d e = (d ++ e)%list.
Proof.
  unfold od_update.
  induction e as [|[k v] e IH]; intros d Hn Hd; simpl.
  - rewrite app_nil_r. reflexivity.
  - simpl in Hn. inversion Hn as [|? ? Hk Hn']; subst.
    rewrite od_set_fresh by (apply Hd; left; reflexivity).
    rewrite IH; [rewrite <- app_assoc; reflexivity | exact Hn' |].
    intros k' Hk' Hin. rewrite od_keys_app in Hin. apply in_app_or in Hin.
    destruct Hin as [Hin|[<-|[]]]; [|contradiction].
    eapply Hd; [right; exact Hk' | exact Hin].
Qed.

Lemma distinct_NoDup l : distinct l = true -> NoDup l.
Proof.
  induction l as [|x l IH]; simpl; intros Hd; [constructor|].
  apply andb_true_iff in Hd. destruct Hd as [Hx Hl].
  constructor; [|auto].
  intros Hin. apply negb_true_iff in Hx.
  assert (Ht : existsb (String.eqb x) l = true)
    by (apply existsb_exists; exists x; split; [exact Hin | apply String.eqb_refl]).
  congruence.
Qed.

Lemma od_keys_set k v d :
  od_keys (od_set k v d) = if od_mem k d then od_keys d else (od_keys d ++ [k])%list.
Proof.
  unfold od_mem.
  induction d as [|[k' v'] d IH]; simpl; [reflexivity|].
  destruct (String.eqb k' k); simpl; [reflexivity|].
  rewrite IH. destruct (od_get k d); reflexivity.
Qed.

Lemma od_set_keeps_NoDup k v d : NoDup (od_keys d) -> NoDup (od_keys (od_set k v d)).
Proof.
  intros Hn. rewrite od_keys_set. unfold od_mem.
  destruct (od_get k d) eqn:E; [exact Hn|].
  apply NoDup_app_iff'. split; [exact Hn|]. split; [repeat constructor; auto|].
  intros x Hx [<-|[]]. apply od_get_none_not_key in E. contradiction.
Qed.

Lemma od_update_keeps_NoDup e : forall d,
  NoDup (od_keys d) -> NoDup (od_keys (od_update d e)).
Proof.
  unfold od_update. induction e as [|[k v] e IH]; intros d Hn; simpl; [exact Hn|].
  apply IH. apply od_set_keeps_NoDup. exact Hn.
Qed.

Lemma to_cookiecutter_dict_NoDup self parent :
  NoDup (od_keys (to_cookiecutter_dict self parent)).
Proof.
  rewrite to_cookiecutter_dict_unfold.
  assert (Hloop : forall vs d, NoDup (od_keys d) ->
                               NoDup (od_keys (flatten_loop parent vs d))).
  { induction vs as [|v vs IH]; intros d Hn; simpl; [exact Hn|].
    apply IH, od_update_keeps_NoDup, od_set_keeps_NoDup. exact Hn. }
  apply Hloop. constructor.
Qed.

Lemma last_value_of_dict k e : NoDup (od_keys e) -> last_value k e = od_get k e.
Proof.
  induction e as [|[k' v] e IH]; simpl; intros Hn; [reflexivity|].
  inversion Hn as [|? ? Hk Hn']; subst. rewrite IH by exact Hn'.
  destruct (String.eqb k' k) eqn:E.
  - apply String.eqb_eq in E. subst k'.
    apply od_get_none_not_key in Hk. rewrite Hk. reflexivity.
  - destruct (od_get k e); reflexivity.
Qed.

(** The loop, key by key: the last descendant under a path wins. *)
Lemma flatten_loop_get k parent vs :
  Forall (fun v => forall parent,
            od_get k (to_cookiecutter_dict v parent) =
            last_value k (descendants_of parent (variables v))) vs ->
  forall d,
    od_get k (flatten_loop parent vs d) =
    match last_value k (descendants_of parent vs) with
    | Some w => Some w
    | None => od_get k d
    end.
Proof.
  induction 1 as [|v vs Hv _ IH]; intros d; simpl; [reflexivity|].
  rewrite IH, last_value_app, od_get_update.
  rewrite (last_value_of_dict k (to_cookiecutter_dict v _))
    by apply to_cookiecutter_dict_NoDup.
  rewrite Hv, descendants_unfold. simpl.
  destruct (last_value k (descendants_of parent vs)); [reflexivity|].
  destruct (last_value k (descendants_of ((parent ++ name v) ++ "/") (variables v)));
    [reflexivity|].
  rewrite od_get_set. destruct (String.eqb (parent ++ name v) k); reflexivity.
Qed.

(** The loop when no path occurs twice: the descendants, in order. *)
Lemma flatten_loop_distinct parent vs :
  Forall (fun v => forall parent,
            NoDup (od_keys (descendants_of parent (variables v))) ->
            to_cookiecutter_dict v parent = descendants_of parent (variables v)) vs ->
  forall d,
    NoDup (od_keys d ++ od_keys (descendants_of parent vs)) ->
    flatten_loop parent vs d = (d ++ descendants_of parent vs)%list.
Proof.
  induction 1 as [|v vs Hv _ IH]; intros d Hn; simpl.
  - rewrite app_nil_r. reflexivity.
  - simpl in Hn. rewrite descendants_unfold in Hn |- *.
    rewrite od_keys_app in Hn. simpl in Hn.
    set (pn := parent ++ name v) in *.
    set (sub := descendants_of (pn ++ "/") (variables v)) in *.
    apply NoDup_app_iff' in Hn. destruct Hn as [Hd [Hrest Hdisj]].
    inversion Hrest as [|? ? Hpn Hrest']; subst.
    apply NoDup_app_iff' in Hrest'. destruct Hrest' as [Hsub [Hvs Hsv]].
    rewrite od_set_fresh by (intros Hin; apply (Hdisj pn Hin); left; reflexivity).
    rewrite Hv by exact Hsub. fold sub.
    rewrite od_update_fresh; [| exact Hsub |].
    + rewrite IH.
      * simpl. rewrite <- !app_assoc. reflexivity.
      * rewrite !od_keys_app. simpl. rewrite <- !app_assoc. simpl.
        apply NoDup_app_iff'. split; [exact Hd|]. split.
        { constructor; [exact Hpn|]. apply NoDup_app_iff'. auto. }
        intros x Hx Hin. apply (Hdisj x Hx). exact Hin.
    + intros k Hk Hin. rewrite od_keys_app in Hin. apply in_app_or in Hin.
      destruct Hin as [Hin|[<-|[]]].
      * apply (Hdisj k Hin). right. apply in_or_app. left. exact Hk.
      * apply Hpn. apply in_or_app. left. exact Hk.
Qed.

End FlattenFacts.

Section ReplayFacts.

Lemma endswith_same_length (s a b : string) :
  String.length a = String.length b -> a <> b ->
  endswith s a = true -> endswith s b = false.
Proof.
  unfold endswith. intros Hlen Hab Ha. rewrite <- Hlen.
  apply andb_true_iff in Ha. destruct Ha as [Hle Heq].
  rewrite Hle. simpl. apply String.eqb_eq in Heq. rewrite Heq.
  apply String.eqb_neq. exact Hab.
Qed.

Lemma startswith_char_append (ch : ascii) (s ext : string) :
  startswith ext (String ch "") = false ->
  startswith (s ++ ext) (String ch "") = startswith s (String ch "").
Proof.
  unfold startswith. intros Hext. destruct s as [|a s]; simpl.
  - exact Hext.
  - destruct (ascii_dec ch a); [|reflexivity].
    destruct (s ++ ext); destruct s; reflexivity.
Qed.

(** [from_dict] on a dict, with the lookups as the source writes them. *)
Lemma from_dict_unfold (items : list (pyval * pyval)) :
  from_dict (VDict items) =
  (name_ <- dict_method_get (VDict items) "name" (VStr "") ;;
   value_ <- dict_method_get (VDict items) "value" VNone ;;
   prompt_ <- dict_method_get (VDict items) "prompt" name_ ;;
   children <- dict_method_get (VDict items) "variables" (VList []) ;;
   children <- iter children ;;
   vars <- mapM from_dict children ;;
   matches_ <- dict_method_get (VDict items) "matches" VNone ;;
   metadata_ <- dict_method_get (VDict items) "metadata" VNone ;;
   n <- as_str name_ ;;
   p <- (if truthy prompt_ then as_str prompt_ else Ok "") ;;
   Ok (VariablesPy.init n value_ p vars matches_ metadata_)).
Proof.
  cbn [dict_method_get bind]. cbn [from_dict].
  match goal with
  | |- bind (?find items) _ = _ =>
      assert (Hfind : forall l,
        find l = bind (iter (get_or (VList []) (dict_get (VStr "variables") l)))
                      (mapM from_dict))
  end.
  { induction l as [|[k x] l IH]; [reflexivity|].
    cbn [dict_get]. destruct (py_eq k (VStr "variables")) eqn:Ek.
    - cbn [get_or]. destruct x as [| | |s|xs|kv]; try reflexivity.
      + destruct s; reflexivity.
      + cbn [iter bind]. induction xs as [|y ys IHy]; [reflexivity|].
        cbn [mapM]. rewrite <- IHy. reflexivity.
      + cbn [iter bind]. induction kv as [|[y z] kv IHy]; [reflexivity|].
        cbn [map fst mapM]. rewrite <- IHy. reflexivity.
    - rewrite <- IH. reflexivity. }
  rewrite Hfind. unfold get_or.
  destruct (iter _) as [children|e]; reflexivity.
Qed.

Lemma serialize_unfold t :
  serialize t =
  VDict [ (VStr "name", VStr (name t));
          (VStr "value", value t);
          (VStr "prompt", VStr (prompt t));
          (VStr "variables", VList (map serialize (variables t)));
          (VStr "matches", matches t);
          (VStr "metadata", metadata t) ].
Proof. destruct t; reflexivity. Qed.

Lemma canonical_unfold t :
  canonical t =
  (negb (String.eqb (prompt t) "") || String.eqb (name t) "") &&
  forallb canonical (variables t).
Proof. destruct t; reflexivity. Qed.

(** Reading back a written-out tree gives the tree. *)
Lemma from_dict_serialize t : canonical t = true -> from_dict (serialize t) = Ok t.
Proof.
  induction t as [n v p vs m md IH] using tree_ind. intros Hc.
  rewrite canonical_unfold in Hc. cbn [prompt name variables] in Hc.
  apply andb_true_iff in Hc. destruct Hc as [Hp Hvs].
  rewrite serialize_unfold. cbn [name value prompt variables matches metadata].
  rewrite from_dict_unfold.
  change (dict_method_get (VDict ?items) "name" ?d)
    with (Ok (A := pyval) (VStr n)) at 1.
  cbn [bind].
  assert (Hchildren : mapM from_dict (map serialize vs) = Ok vs).
  { clear Hp. induction IH as [|b bs Hb _ IHbs]; [reflexivity|].
    cbn [forallb] in Hvs. apply andb_true_iff in Hvs. destruct Hvs as [Hcb Hcbs].
    cbn [map mapM]. rewrite (Hb Hcb). cbn [bind]. rewrite (IHbs Hcbs). reflexivity. }
  change (from_dict (VDict ?items) = ?r) with (from_dict (VDict items) = r).
  unfold dict_method_get.
  replace (dict_get (VStr "value") _) with (Some v) by reflexivity.
  replace (dict_get (VStr "prompt") _) with (Some (VStr p)) by reflexivity.
  replace (dict_get (VStr "variables") _) with (Some (VList (map serialize vs)))
    by reflexivity.
  replace (dict_get (VStr "matches") _) with (Some m) by reflexivity.
  replace (dict_get (VStr "metadata") _) with (Some md) by reflexivity.
  cbn [bind iter]. rewrite Hchildren. cbn [bind as_str truthy].
  unfold VariablesPy.init.
  destruct (String.eqb p "") eqn:Ep; cbn [negb bind as_str].
  - apply String.eqb_eq in Ep. subst p. simpl in Hp.
    apply String.eqb_eq in Hp. subst n. reflexivity.
  - rewrite Ep. reflexivity.
Qed.

End ReplayFacts.

Section ConsoleFacts.

(** An answer was given to a question that parsed. *)
Lemma ask_ok {A : Type} (from_markup : string -> result string)
    (process_response : string -> result A) (text : string) (default : A)
    (c c' : console) (a : A) :
  ask from_markup process_response text default c = Ok (a, c') ->
  exists shown,
    from_markup text = Ok shown /\
    ask_from process_response shown default (stdin c) (stdout c) = Ok (a, c').
Proof.
  unfold ask. destruct (from_markup text) as [shown|e]; [|discriminate].
  intros Hask. exists shown. split; [reflexivity | exact Hask].
Qed.

(** An answer costs at least one line of input. *)
Lemma ask_from_consumes {A : Type} (process_response : string -> result A)
    (text : string) (default : A) (input : list string) :
  forall shown a c',
    ask_from process_response text default input shown = Ok (a, c') ->
    List.length (stdin c') < List.length input.
Proof.
  induction input as [|line rest IH]; intros shown a c' Hask; simpl in Hask;
    [discriminate|].
  destruct (String.eqb line "").
  - inversion Hask; subst. simpl. lia.
  - destruct (process_response line) as [x|e].
    + inversion Hask; subst. simpl. lia.
    + destruct e; try discriminate. apply IH in Hask. simpl. lia.
Qed.

(** The fuel [read_user_variable] starts its loop with is never used up:
    more fuel gives the same run. *)
Lemma read_user_variable_loop_fuel {H : Host} (text : string) (default_value : pyval) :
  forall n m c,
    List.length (stdin c) < n -> List.length (stdin c) < m ->
    read_user_variable_loop n text default_value c =
    read_user_variable_loop m text default_value c.
Proof.
  induction n as [|n IH]; intros m c Hn Hm; [lia|].
  destruct m as [|m]; [lia|]. simpl.
  destruct (Prompt_ask from_markup text default_value c) as [[variable c1]|e] eqn:Hask;
    [|reflexivity].
  simpl. destruct (negb (is_none variable)); [reflexivity|].
  unfold Prompt_ask in Hask. apply ask_ok in Hask.
  destruct Hask as [shown_ [_ Hask]]. apply ask_from_consumes in Hask.
  apply IH; lia.
Qed.

End ConsoleFacts.

Section PathFacts.








Lemma bind_ok {A B : Type} (r : result A) (k : A -> result B) (b : B) :
  bind r k = Ok b -> exists a, r = Ok a /\ k a = Ok b.
Proof. destruct r as [a|e]; [eauto | discriminate]. Qed.

Lemma enumerate_from_member (k : string) (o : pyval) (opts : list pyval) : forall i,
  od_get k (enumerate_from i opts) = Some o -> In o opts.
Proof.
  induction opts as [|x opts IH]; intros i Hget; simpl in Hget; [discriminate|].
  destruct (String.eqb (str_of_nat i) k).
  - inversion Hget. left; reflexivity.
  - right. eapply IH. exact Hget.
Qed.

(** What [read_user_choice] returns is one of the options. *)
Lemma read_user_choice_member {H : Host} var_name options prompts prefix c val c' :
  read_user_choice var_name options prompts prefix c = Ok (val, c') ->
  exists opts, iter options = Ok opts /\ In val opts.
Proof.
  unfold read_user_choice. intros Hrun.
  destruct (negb (truthy options)); [discriminate|].
  apply bind_ok in Hrun. destruct Hrun as [opts [Hiter Hrun]].
  exists opts. split; [exact Hiter|].
  apply bind_ok in Hrun. destruct Hrun as [names [_ Hrun]].
  apply bind_ok in Hrun. destruct Hrun as [[question choice_lines] [_ Hrun]].
  cbn beta iota in Hrun.
  apply bind_ok in Hrun. destruct Hrun as [lines [_ Hrun]].
  apply bind_ok in Hrun. destruct Hrun as [[user_choice c2] [_ Hrun]].
  cbn beta iota in Hrun.
  destruct (od_get user_choice (enumerate_from 1 opts)) as [o|] eqn:Hget; [|discriminate].
  inversion Hrun; subst. eapply enumerate_from_member. exact Hget.
Qed.

End PathFacts.

(** Take apart a computation known to succeed. *)
Ltac ok_inv H :=
  lazymatch type of H with
  | Ok _ = Ok _ => inversion H; subst; try clear H
  | Raise _ = Ok _ => discriminate H
  | bind ?r _ = Ok _ =>
      let E := fresh "E" in
      destruct r as [?|?] eqn:E; simpl in H; [ok_inv H | discriminate H]
  | (let '(_, _) := ?p in _) = Ok _ => destruct p; simpl in H; ok_inv H
  | (if ?b then _ else _) = Ok _ =>
      let E := fresh "E" in destruct b eqn:E; simpl in H; ok_inv H
  | _ => idtac
  end.

Section ResolutionFacts.
Context {H : Host}.
Variables (env : Environment) (no_input : bool) (prefix : string).

Lemma get_cookiecutter_values_unfold v d parent c :
  get_cookiecutter_values v d env no_input prefix parent c =
  ('(d1, c1) <- store_own_value v d env no_input prefix (parent ++ name v) c ;;
   branches_loop
     (fun b d c =>
        get_cookiecutter_values b d env no_input prefix ((parent ++ name v) ++ "/") c)
     (parent ++ name v) (variables v) d1 c1).
Proof. destruct v; reflexivity. Qed.

(** What the opening [if]/[elif] chain does to the dict. *)
Lemma store_own_value_shape v d name_ c d1 c1 :
  store_own_value v d env no_input prefix name_ c = Ok (d1, c1) ->
  if is_dict (value v) then d1 = d /\ c1 = c
  else exists x, d1 = od_set name_ x d.
Proof.
  unfold store_own_value. intros Hs.
  destruct (value v) eqn:Ev; simpl in *; ok_inv Hs;
    first [split; reflexivity | eexists; reflexivity].
Qed.

Lemma store_own_value_other v d name_ c d1 c1 k :
  store_own_value v d env no_input prefix name_ c = Ok (d1, c1) ->
  k <> name_ -> od_get k d1 = od_get k d.
Proof.
  intros Hs Hk. apply store_own_value_shape in Hs.
  destruct (is_dict (value v)).
  - destruct Hs; subst; reflexivity.
  - destruct Hs as [x ->]. apply od_get_set_other. congruence.
Qed.


(** A call under [parent] leaves every key that does not extend [parent]
    as it was. *)
Lemma get_cookiecutter_values_frame v :
  forall d parent c d' c' k,
    get_cookiecutter_values v d env no_input prefix parent c = Ok (d', c') ->
    startswith k parent = false ->
    od_get k d' = od_get k d.
Proof.
  induction v as [n val p vs m md IH] using tree_ind.
  intros d parent c d' c' k Hrun Hk.
  rewrite get_cookiecutter_values_unfold in Hrun. simpl in Hrun.
  destruct (store_own_value _ d env no_input prefix (parent ++ n) c)
    as [[d1 c1]|e] eqn:Hs; simpl in Hrun; [|discriminate].
  assert (Hd1 : od_get k d1 = od_get k d).
  { eapply store_own_value_other; [exact Hs|].
    intros ->. unfold startswith in Hk. rewrite prefix_refl_app in Hk. discriminate. }
  rewrite <- Hd1. clear Hs Hd1.
  assert (Hk' : startswith k ((parent ++ n) ++ "/") = false).
  { rewrite append_assoc'. apply startswith_under. exact Hk. }
  revert d1 c1 Hrun.
  induction IH as [|b bs Hb _ IHbs]; intros d1 c1 Hrun; simpl in Hrun.
  - ok_inv Hrun. reflexivity.
  - destruct (od_get (parent ++ n) d1) as [stored|]; [|discriminate].
    destruct (py_eq (matches b) stored).
    + destruct (get_cookiecutter_values b d1 env no_input prefix _ c1)
        as [[d2 c2]|e] eqn:Hb2; simpl in Hrun; [|discriminate].
      rewrite (IHbs _ _ Hrun). eapply Hb; eauto.
    + eauto.
Qed.

Lemma branches_loop_filter v parent stored :
  forall bs d c,
    od_get (parent ++ name v) d = Some stored ->
    branches_loop
      (fun b d c =>
         get_cookiecutter_values b d env no_input prefix ((parent ++ name v) ++ "/") c)
      (parent ++ name v) bs d c =
    resolve_each (filter (fun b => py_eq (matches b) stored) bs) d env no_input
                 prefix ((parent ++ name v) ++ "/") c.
Proof.
  induction bs as [|b bs IH]; intros d c Hget; simpl.
  - reflexivity.
  - rewrite Hget. destruct (py_eq (matches b) stored) eqn:Em; simpl.
    + destruct (get_cookiecutter_values b d env no_input prefix _ c)
        as [[d2 c2]|e] eqn:Hb; simpl; [|reflexivity].
      apply IH. rewrite <- Hget.
      eapply get_cookiecutter_values_frame; [exact Hb|].
      unfold startswith. apply not_prefix_longer. discriminate.
    + apply IH. exact Hget.
Qed.

Lemma matching_stored_key v d d1 c c1 parent :
  is_dict (value v) = false ->
  store_own_value v d env no_input prefix (parent ++ name v) c = Ok (d1, c1) ->
  exists stored,
    od_get (parent ++ name v) d1 = Some stored /\
    get_cookiecutter_values v d env no_input prefix parent c =
      resolve_each (filter (fun b => py_eq (matches b) stored) (variables v))
                   d1 env no_input prefix ((parent ++ name v) ++ "/") c1.
Proof.
  intros Hnd Hs.
  pose proof (store_own_value_shape _ _ _ _ _ _ Hs) as Hshape.
  rewrite Hnd in Hshape. destruct Hshape as [x Hx].
  assert (Hget : od_get (parent ++ name v) d1 = Some x)
    by (subst d1; apply od_get_set_same).
  exists x. split; [exact Hget|].
  rewrite get_cookiecutter_values_unfold, Hs. simpl.
  apply branches_loop_filter. exact Hget.
Qed.

End ResolutionFacts.

Section KeyFacts.
Context {H : Host}.
Variables (env : Environment) (no_input : bool).

Lemma od_mem_set k k' x d : od_mem k d = true -> od_mem k (od_set k' x d) = true.
Proof.
  unfold od_mem. rewrite od_get_set. destruct (String.eqb k' k); auto.
Qed.

Lemma od_mem_set_same k x d : od_mem k (od_set k x d) = true.
Proof. unfold od_mem. rewrite od_get_set_same. reflexivity. Qed.

(** Resolution never removes a key. *)
Lemma get_cookiecutter_values_keeps v :
  forall d prefix parent c d' c' k,
    get_cookiecutter_values v d env no_input prefix parent c = Ok (d', c') ->
    od_mem k d = true -> od_mem k d' = true.
Proof.
  induction v as [n val p vs m md IH] using tree_ind.
  intros d prefix parent c d' c' k Hrun Hk.
  rewrite get_cookiecutter_values_unfold in Hrun. simpl in Hrun.
  destruct (store_own_value _ d env no_input prefix (parent ++ n) c)
    as [[d1 c1]|e] eqn:Hs; simpl in Hrun; [|discriminate].
  assert (Hk1 : od_mem k d1 = true).
  { apply store_own_value_shape in Hs. simpl in Hs.
    destruct (is_dict val); [destruct Hs; subst; exact Hk|].
    destruct Hs as [x ->]. apply od_mem_set. exact Hk. }
  clear Hs Hk. revert d1 c1 Hrun Hk1.
  induction IH as [|b bs Hb _ IHbs]; intros d1 c1 Hrun Hk1; simpl in Hrun.
  - ok_inv Hrun. exact Hk1.
  - destruct (od_get (parent ++ n) d1) as [stored|]; [|discriminate].
    destruct (py_eq (matches b) stored).
    + destruct (get_cookiecutter_values b d1 env no_input prefix _ c1)
        as [[d2 c2]|e] eqn:Hb2; simpl in Hrun; [|discriminate].
      eapply IHbs; [exact Hrun|]. eapply Hb; eauto.
    + eauto.
Qed.

(** A variable that is not a dict ends up under its flat key. *)
Lemma get_cookiecutter_values_stores v d prefix parent c d' c' :
  is_dict (value v) = false ->
  get_cookiecutter_values v d env no_input prefix parent c = Ok (d', c') ->
  od_mem (parent ++ name v) d' = true.
Proof.
  intros Hnd Hrun.
  destruct (store_own_value v d env no_input prefix (parent ++ name v) c)
    as [[d1 c1]|e] eqn:Hs.
  - destruct (matching_stored_key env no_input prefix v d d1 c c1 parent Hnd Hs)
      as [x [Hx Heq]].
    rewrite Heq in Hrun. clear Heq Hs.
    assert (Hm : od_mem (parent ++ name v) d1 = true)
      by (unfold od_mem; rewrite Hx; reflexivity).
    clear Hx. revert d1 c1 Hrun Hm.
    induction (filter _ (variables v)) as [|b bs IHbs]; intros d1 c1 Hrun Hm;
      simpl in Hrun.
    + ok_inv Hrun. exact Hm.
    + destruct (get_cookiecutter_values b d1 env no_input prefix _ c1)
        as [[d2 c2]|e] eqn:Hb; simpl in Hrun; [|discriminate].
      eapply IHbs; [exact Hrun|]. eapply get_cookiecutter_values_keeps; eauto.
  - rewrite get_cookiecutter_values_unfold, Hs in Hrun. discriminate.
Qed.

End KeyFacts.

Section PassFacts.
Context {H : Host}.
Variables (env : Environment) (no_input : bool) (size : nat).

Lemma first_pass_app l1 l2 : forall d c n,
  first_pass env no_input size (l1 ++ l2)%list d c n =
  ('(d1, c1, n1) <- first_pass env no_input size l1 d c n ;;
   first_pass env no_input size l2 d1 c1 n1).
Proof.
  induction l1 as [|v l1 IH]; intros d c n; simpl; [reflexivity|].
  destruct (is_private v); [apply IH|].
  destruct (startswith (name v) "__").
  - destruct (render_variable env (value v) d); simpl; [apply IH | reflexivity].
  - destruct (reraise_undefined _ _) as [[d1 c1]|e]; simpl; [apply IH | reflexivity].
Qed.

Lemma second_pass_app l1 l2 : forall d c n,
  second_pass env no_input size (l1 ++ l2)%list d c n =
  ('(d1, c1, n1) <- second_pass env no_input size l1 d c n ;;
   second_pass env no_input size l2 d1 c1 n1).
Proof.
  induction l1 as [|v l1 IH]; intros d c n; simpl; [reflexivity|].
  destruct (is_private v); [apply IH|].
  destruct (is_dict (value v)); [|apply IH].
  destruct (reraise_undefined _ _) as [[[d1 c1] n1]|e]; simpl; [apply IH | reflexivity].
Qed.

Lemma reraise_undefined_ok {A : Type} var_name (r : result A) x :
  reraise_undefined var_name r = Ok x -> r = Ok x.
Proof. destruct r as [a|[]]; simpl; congruence. Qed.

Lemma first_pass_keeps l : forall d c n d' c' n' k,
  first_pass env no_input size l d c n = Ok (d', c', n') ->
  od_mem k d = true -> od_mem k d' = true.
Proof.
  induction l as [|v l IH]; intros d c n d' c' n' k Hrun Hk; simpl in Hrun.
  - ok_inv Hrun. exact Hk.
  - destruct (is_private v).
    + eapply IH; [exact Hrun|]. apply od_mem_set. exact Hk.
    + destruct (startswith (name v) "__").
      * destruct (render_variable env (value v) d) as [val|e]; simpl in Hrun;
          [|discriminate].
        eapply IH; [exact Hrun|]. apply od_mem_set. exact Hk.
      * destruct (reraise_undefined _ _) as [[d1 c1]|e] eqn:Hv; simpl in Hrun;
          [|discriminate].
        apply reraise_undefined_ok in Hv.
        eapply IH; [exact Hrun|]. eapply get_cookiecutter_values_keeps; eauto.
Qed.

(** After the first loop every variable that is not a dict is a key. *)
Lemma first_pass_stores l : forall d c n d' c' n' u,
  first_pass env no_input size l d c n = Ok (d', c', n') ->
  In u l -> is_dict (value u) = false -> od_mem (name u) d' = true.
Proof.
  induction l as [|v l IH]; intros d c n d' c' n' u Hrun Hin Hnd; [contradiction|].
  simpl in Hrun. destruct Hin as [->|Hin].
  - destruct (is_private u).
    + eapply first_pass_keeps; [exact Hrun|]. apply od_mem_set_same.
    + destruct (startswith (name u) "__").
      * destruct (render_variable env (value u) d) as [val|e]; simpl in Hrun;
          [|discriminate].
        eapply first_pass_keeps; [exact Hrun|]. apply od_mem_set_same.
      * destruct (reraise_undefined _ _) as [[d1 c1]|e] eqn:Hv; simpl in Hrun;
          [|discriminate].
        apply reraise_undefined_ok in Hv.
        eapply first_pass_keeps; [exact Hrun|].
        apply (get_cookiecutter_values_stores env no_input u d _ "" c d1 c1 Hnd Hv).
  - destruct (is_private v); [eapply IH; eauto|].
    destruct (startswith (name v) "__").
    + destruct (render_variable env (value v) d) as [val|e]; simpl in Hrun;
        [|discriminate].
      eapply IH; eauto.
    + destruct (reraise_undefined _ _) as [[d1 c1]|e] eqn:Hv; simpl in Hrun;
        [|discriminate].
      eapply IH; eauto.
Qed.

Lemma resolve_dict_shape v d c n d' c' n' :
  resolve_dict env no_input size v d c n = Ok (d', c', n') ->
  exists val, d' = od_set (name v) val d /\ n' = S n.
Proof.
  unfold resolve_dict. intros Hrun.
  destruct (render_variable env (value v) d) as [val|e]; simpl in Hrun; [|discriminate].
  match type of Hrun with
  | bind ?r _ = _ => destruct r as [[val' c1]|e]; simpl in Hrun; [|discriminate]
  end.
  ok_inv Hrun. eexists; split; reflexivity.
Qed.

Lemma second_pass_keeps l : forall d c n d' c' n' k,
  second_pass env no_input size l d c n = Ok (d', c', n') ->
  od_mem k d = true -> od_mem k d' = true.
Proof.
  induction l as [|v l IH]; intros d c n d' c' n' k Hrun Hk; simpl in Hrun.
  - ok_inv Hrun. exact Hk.
  - destruct (is_private v); [eauto|].
    destruct (is_dict (value v)); [|eauto].
    destruct (reraise_undefined _ _) as [[[d1 c1] n1]|e] eqn:Hv; simpl in Hrun;
      [|discriminate].
    apply reraise_undefined_ok, resolve_dict_shape in Hv.
    destruct Hv as [val [-> _]].
    eapply IH; [exact Hrun|]. apply od_mem_set. exact Hk.
Qed.

Lemma not_marker_not_special v :
  startswith (name v) "_" = false ->
  is_private v = false /\ startswith (name v) "__" = false.
Proof.
  intros Hpub. split.
  - unfold is_private. rewrite Hpub. reflexivity.
  - unfold startswith in *.
    destruct (String.prefix "__" (name v)) eqn:E; [|reflexivity].
    apply (prefix_app_left "_" "_") in E. congruence.
Qed.

End PassFacts.


Section AppendFacts.
Context {H : Host}.
Variables (env : Environment) (no_input : bool).

Lemma od_keys_descendants_of parent v l :
  od_keys (descendants_of parent (v :: l)) =
  (od_keys (descendants parent v) ++ od_keys (descendants_of parent l))%list.
Proof. unfold descendants_of. simpl. apply od_keys_app. Qed.

Lemma od_keys_descendants parent v :
  od_keys (descendants parent v) =
  (parent ++ name v) :: od_keys (descendants_of ((parent ++ name v) ++ "/") (variables v)).
Proof. rewrite descendants_unfold. reflexivity. Qed.

(** With fresh, pairwise distinct flat keys a call only appends. *)
Lemma get_cookiecutter_values_appends v :
  forall d prefix parent c d' c',
    NoDup (od_keys (descendants parent v)) ->
    (forall k, In k (od_keys (descendants parent v)) -> ~ In k (od_keys d)) ->
    get_cookiecutter_values v d env no_input prefix parent c = Ok (d', c') ->
    exists ext, d' = (d ++ ext)%list /\
                incl (od_keys ext) (od_keys (descendants parent v)).
Proof.
  induction v as [n val p vs m md IH] using tree_ind.
  intros d prefix parent c d' c' Hn Hfresh Hrun.
  rewrite get_cookiecutter_values_unfold in Hrun.
  rewrite od_keys_descendants in Hn, Hfresh |- *.
  simpl in Hn, Hfresh, Hrun |- *.
  set (pn := parent ++ n) in *.
  destruct (store_own_value _ d env no_input prefix pn c)
    as [[d1 c1]|e] eqn:Hs; simpl in Hrun; [|discriminate].
  inversion Hn as [|? ? Hpn Hsub]; subst.
  assert (Hd1 : exists e0, d1 = (d ++ e0)%list /\ incl (od_keys e0) [pn]).
  { apply store_own_value_shape in Hs. simpl in Hs.
    destruct (is_dict val).
    - destruct Hs as [-> _]. exists []. rewrite app_nil_r. split; [reflexivity|].
      intros x [].
    - destruct Hs as [x ->]. exists [(pn, x)]. split.
      + apply od_set_fresh. apply Hfresh. left; reflexivity.
      + intros y Hy. exact Hy. }
  destruct Hd1 as [e0 [-> He0]]. clear Hs.
  assert (Hloop : forall bs,
    Forall (fun b => forall d prefix parent c d' c',
              NoDup (od_keys (descendants parent b)) ->
              (forall k, In k (od_keys (descendants parent b)) -> ~ In k (od_keys d)) ->
              get_cookiecutter_values b d env no_input prefix parent c = Ok (d', c') ->
              exists ext, d' = (d ++ ext)%list /\
                          incl (od_keys ext) (od_keys (descendants parent b))) bs ->
    forall d1 c1,
      NoDup (od_keys (descendants_of (pn ++ "/") bs)) ->
      (forall k, In k (od_keys (descendants_of (pn ++ "/") bs)) -> ~ In k (od_keys d1)) ->
      branches_loop
        (fun b d c => get_cookiecutter_values b d env no_input prefix (pn ++ "/") c)
        pn bs d1 c1 = Ok (d', c') ->
      exists ext, d' = (d1 ++ ext)%list /\
                  incl (od_keys ext) (od_keys (descendants_of (pn ++ "/") bs))).
  { clear. induction 1 as [|b bs Hb _ IHbs]; intros d1 c1 Hn Hfresh Hrun; simpl in Hrun.
    - ok_inv Hrun. exists []. rewrite app_nil_r. split; [reflexivity | intros x []].
    - rewrite od_keys_descendants_of in Hn, Hfresh |- *.
      apply NoDup_app_iff' in Hn. destruct Hn as [Hnb [Hnbs Hdisj]].
      destruct (od_get pn d1) as [stored|]; [|discriminate].
      destruct (py_eq (matches b) stored).
      + destruct (get_cookiecutter_values b d1 env no_input prefix _ c1)
          as [[d2 c2]|e] eqn:Hb2; simpl in Hrun; [|discriminate].
        destruct (Hb _ _ _ _ _ _ Hnb
                     (fun k Hk => Hfresh k (in_or_app _ _ _ (or_introl Hk))) Hb2)
          as [e1 [-> He1]].
        destruct (IHbs (d1 ++ e1)%list c2 Hnbs) as [e2 [-> He2]]; [|exact Hrun|].
        * intros k Hk Hin. rewrite od_keys_app in Hin. apply in_app_or in Hin.
          destruct Hin as [Hin|Hin].
          -- apply (Hfresh k); [apply in_or_app; right; exact Hk | exact Hin].
          -- apply (Hdisj k (He1 k Hin) Hk).
        * exists (e1 ++ e2)%list. split; [rewrite <- app_assoc; reflexivity|].
          rewrite od_keys_app. apply incl_app.
          -- intros x Hx. apply in_or_app. left. auto.
          -- intros x Hx. apply in_or_app. right. auto.
      + destruct (IHbs d1 c1 Hnbs) as [e2 [-> He2]]; [|exact Hrun|].
        * intros k Hk. apply Hfresh. apply in_or_app. right. exact Hk.
        * exists e2. split; [reflexivity|].
          intros x Hx. apply in_or_app. right. auto. }
  destruct (Hloop vs IH (d ++ e0)%list c1 Hsub) as [ext [-> Hext]]; [|exact Hrun|].
  - intros k Hk Hin. rewrite od_keys_app in Hin. apply in_app_or in Hin.
    destruct Hin as [Hin|Hin].
    + apply (Hfresh k); [right; exact Hk | exact Hin].
    + apply He0 in Hin. destruct Hin as [<-|[]]. contradiction.
  - exists (e0 ++ ext)%list. split; [rewrite <- app_assoc; reflexivity|].
    rewrite od_keys_app. apply incl_app.
    + intros x Hx. apply He0 in Hx. destruct Hx as [<-|[]]. left; reflexivity.
    + intros x Hx. right. auto.
Qed.

(** A dict-valued variable whose key is not yet there leaves the dict alone. *)
Lemma get_cookiecutter_values_dict v d prefix parent c d' c' :
  is_dict (value v) = true ->
  ~ In (parent ++ name v) (od_keys d) ->
  get_cookiecutter_values v d env no_input prefix parent c = Ok (d', c') ->
  d' = d.
Proof.
  intros Hd Hfresh Hrun. rewrite get_cookiecutter_values_unfold in Hrun.
  unfold store_own_value in Hrun. destruct (value v); try discriminate. simpl in Hrun.
  apply od_get_none_not_key in Hfresh.
  destruct (variables v) as [|b bs]; simpl in Hrun.
  - ok_inv Hrun. reflexivity.
  - rewrite Hfresh in Hrun. discriminate.
Qed.

End AppendFacts.

Section PassAppendFacts.
Context {H : Host}.
Variables (env : Environment) (no_input : bool) (size : nat).

Lemma first_writes_incl v : incl (first_writes v) (od_keys (descendants "" v)).
Proof.
  unfold first_writes.
  destruct (negb (startswith (name v) "_") && is_dict (value v)).
  - intros x []. - apply incl_refl.
Qed.

Lemma first_writes_all_incl l :
  incl (flat_map first_writes l) (od_keys (descendants_of "" l)).
Proof.
  induction l as [|v l IH]; [apply incl_refl|].
  rewrite od_keys_descendants_of. simpl. apply incl_app.
  - intros x Hx. apply in_or_app. left. apply first_writes_incl. exact Hx.
  - intros x Hx. apply in_or_app. right. auto.
Qed.

Lemma second_writes_incl l : incl (second_writes l) (od_keys (descendants_of "" l)).
Proof.
  unfold second_writes.
  induction l as [|v l IH]; [apply incl_refl|].
  rewrite od_keys_descendants_of, od_keys_descendants. simpl.
  destruct (negb (is_private v) && is_dict (value v)); simpl.
  - intros x [<-|Hx]; [left; reflexivity|]. right. apply in_or_app. right. auto.
  - intros x Hx. right. apply in_or_app. right. auto.
Qed.

Lemma second_writes_app l1 l2 :
  second_writes (l1 ++ l2) = (second_writes l1 ++ second_writes l2)%list.
Proof. unfold second_writes. rewrite filter_app, map_app. reflexivity. Qed.

Lemma first_pass_appends l : forall d c n d' c' n',
  NoDup (od_keys (descendants_of "" l)) ->
  (forall k, In k (od_keys (descendants_of "" l)) -> ~ In k (od_keys d)) ->
  first_pass env no_input size l d c n = Ok (d', c', n') ->
  exists ext, d' = (d ++ ext)%list /\ incl (od_keys ext) (flat_map first_writes l).
Proof.
  induction l as [|v l IH]; intros d c n d' c' n' Hn Hfresh Hrun; simpl in Hrun.
  - ok_inv Hrun. exists []. rewrite app_nil_r. split; [reflexivity | intros x []].
  - rewrite od_keys_descendants_of in Hn, Hfresh.
    apply NoDup_app_iff' in Hn. destruct Hn as [Hnv [Hnl Hdisj]].
    assert (Hname : In (name v) (od_keys (descendants "" v)))
      by (rewrite od_keys_descendants; left; reflexivity).
    assert (Hstep : forall d1 c1 n1 e1,
      d1 = (d ++ e1)%list -> incl (od_keys e1) (first_writes v) ->
      first_pass env no_input size l d1 c1 n1 = Ok (d', c', n') ->
      exists ext, d' = (d ++ ext)%list /\
                  incl (od_keys ext) (flat_map first_writes (v :: l))).
    { intros d1 c1 n1 e1 -> He1 Hrest.
      destruct (IH (d ++ e1)%list c1 n1 d' c' n' Hnl) as [e2 [-> He2]];
        [|exact Hrest|].
      - intros k Hk Hin. rewrite od_keys_app in Hin. apply in_app_or in Hin.
        destruct Hin as [Hin|Hin].
        + apply (Hfresh k); [apply in_or_app; right; exact Hk | exact Hin].
        + apply (Hdisj k); [apply first_writes_incl, He1, Hin | exact Hk].
      - exists (e1 ++ e2)%list. split; [rewrite <- app_assoc; reflexivity|].
        rewrite od_keys_app. simpl. apply incl_app.
        + intros x Hx. apply in_or_app. left. auto.
        + intros x Hx. apply in_or_app. right. auto. }
    assert (Hset : forall x,
      startswith (name v) "_" = true ->
      od_set (name v) x d = (d ++ [(name v, x)])%list /\
      incl (od_keys [(name v, x)]) (first_writes v)).
    { intros x Hm. split.
      - apply od_set_fresh. apply Hfresh. apply in_or_app. left. exact Hname.
      - unfold first_writes. rewrite Hm. simpl.
        intros y [<-|[]]. exact Hname. }
    destruct (is_private v) eqn:Hp.
    + assert (Hm : startswith (name v) "_" = true)
        by (unfold is_private in Hp; apply andb_true_iff in Hp; tauto).
      destruct (Hset (value v) Hm) as [Heq Hincl].
      eapply Hstep; [exact Heq | exact Hincl | exact Hrun].
    + destruct (startswith (name v) "__") eqn:Hd.
      * destruct (render_variable env (value v) d) as [val|e]; simpl in Hrun;
          [|discriminate].
        assert (Hm : startswith (name v) "_" = true).
        { unfold startswith in *. apply (prefix_app_left "_" "_"). exact Hd. }
        destruct (Hset val Hm) as [Heq Hincl].
        eapply Hstep; [exact Heq | exact Hincl | exact Hrun].
      * destruct (reraise_undefined _ _) as [[d1 c1]|e] eqn:Hv; simpl in Hrun;
          [|discriminate].
        apply reraise_undefined_ok in Hv.
        assert (Hm : startswith (name v) "_" = false).
        { unfold is_private in Hp. destruct (startswith (name v) "_"); [|reflexivity].
          rewrite Hd in Hp. discriminate. }
        destruct (is_dict (value v)) eqn:Hdict.
        -- apply get_cookiecutter_values_dict in Hv; [|exact Hdict|].
           ++ subst d1. eapply (Hstep d c1 _ []); [symmetry; apply app_nil_r | | exact Hrun].
              intros x [].
           ++ apply Hfresh. apply in_or_app. left. exact Hname.
        -- apply get_cookiecutter_values_appends in Hv; [|exact Hnv|].
           ++ destruct Hv as [e1 [-> He1]].
              eapply Hstep; [reflexivity | | exact Hrun].
              unfold first_writes. rewrite Hm, Hdict. exact He1.
           ++ intros k Hk. apply Hfresh. apply in_or_app. left. exact Hk.
Qed.

Lemma second_pass_appends l : forall d c n d' c' n',
  NoDup (second_writes l) ->
  (forall k, In k (second_writes l) -> ~ In k (od_keys d)) ->
  second_pass env no_input size l d c n = Ok (d', c', n') ->
  exists ext, d' = (d ++ ext)%list /\ od_keys ext = second_writes l.
Proof.
  unfold second_writes.
  induction l as [|v l IH]; intros d c n d' c' n' Hn Hfresh Hrun; simpl in Hrun.
  - ok_inv Hrun. exists []. rewrite app_nil_r. split; reflexivity.
  - simpl in Hn, Hfresh |- *.
    destruct (is_private v); simpl in *; [eauto|].
    destruct (is_dict (value v)); simpl in *; [|eauto].
    destruct (reraise_undefined _ _) as [[[d1 c1] n1]|e] eqn:Hv; simpl in Hrun;
      [|discriminate].
    apply reraise_undefined_ok, resolve_dict_shape in Hv.
    destruct Hv as [val [-> _]].
    inversion Hn as [|? ? Hv Hn']; subst.
    rewrite od_set_fresh in Hrun by (apply Hfresh; left; reflexivity).
    destruct (IH (d ++ [(name v, val)])%list c1 n1 d' c' n' Hn') as [e2 [-> He2]];
      [|exact Hrun|].
    + intros k Hk Hin. rewrite od_keys_app in Hin. apply in_app_or in Hin.
      destruct Hin as [Hin|[<-|[]]]; [|contradiction].
      apply (Hfresh k); [right; exact Hk | exact Hin].
    + exists ((name v, val) :: e2). split.
      * rewrite <- app_assoc. reflexivity.
      * simpl. rewrite He2. reflexivity.
Qed.

(** With distinct flat keys and no dict under a double marker, the two
    loops write disjoint sets of keys. *)
Lemma writes_disjoint l :
  NoDup (od_keys (descendants_of "" l)) ->
  no_derived_dict l = true ->
  NoDup (second_writes l) /\
  (forall k, In k (second_writes l) -> ~ In k (flat_map first_writes l)).
Proof.
  induction l as [|v l IH]; intros Hn Hnd.
  - split; [constructor | intros k []].
  - simpl in Hnd. apply andb_true_iff in Hnd. destruct Hnd as [Hv Hnd].
    rewrite od_keys_descendants_of in Hn.
    apply NoDup_app_iff' in Hn. destruct Hn as [Hnv [Hnl Hdisj]].
    destruct (IH Hnl Hnd) as [IHn IHd].
    assert (Hname : In (name v) (od_keys (descendants "" v)))
      by (rewrite od_keys_descendants; left; reflexivity).
    unfold second_writes in *. simpl.
    destruct (negb (is_private v) && is_dict (value v)) eqn:Hw; simpl.
    + apply andb_true_iff in Hw. destruct Hw as [Hp Hdict].
      rewrite Hdict, andb_true_r in Hv. apply negb_true_iff in Hp, Hv.
      assert (Hm : startswith (name v) "_" = false).
      { unfold is_private in Hp. destruct (startswith (name v) "_"); [|reflexivity].
        rewrite Hv in Hp. discriminate. }
      assert (Hfw : first_writes v = [])
        by (unfold first_writes; rewrite Hm, Hdict; reflexivity).
      rewrite Hfw. simpl. split.
      * constructor; [|exact IHn].
        intros Hin. apply (Hdisj (name v) Hname). apply (second_writes_incl l). exact Hin.
      * intros k [<-|Hk] Hin.
        -- apply (Hdisj (name v) Hname). apply first_writes_all_incl. exact Hin.
        -- apply (IHd k Hk Hin).
    + split; [exact IHn|].
      intros k Hk Hin. apply in_app_or in Hin. destruct Hin as [Hin|Hin].
      * apply (Hdisj k); [apply first_writes_incl; exact Hin|].
        apply (second_writes_incl l). exact Hk.
      * apply (IHd k Hk Hin).
Qed.

End PassAppendFacts.

Section PrefixFacts.
Context {H : Host}.

Lemma od_get_app_left k v (a b : odict) :
  od_get k a = Some v -> od_get k (a ++ b)%list = Some v.
Proof.
  induction a as [|[k' v'] a IH]; simpl; [discriminate|].
  destruct (String.eqb k' k); auto.
Qed.

(** With distinct flat keys and no dict under a double marker, the dict
    after any number of top-level variables of either loop is a prefix of
    the dict returned. *)
Lemma prompt_for_config_prefixes (ctx : context) (no_input : bool) (c : console)
    (env : Environment) (vs : list CookiecutterVariable) (dfin : odict)
    (cfin : console) :
  create_env_with_context ctx = Ok env ->
  context_variables ctx = Ok vs ->
  distinct (od_keys (descendants_of "" vs)) = true ->
  no_derived_dict vs = true ->
  prompt_for_config ctx no_input c = Ok (dfin, cfin) ->
  let size := List.length (filter (fun u => negb (startswith (name u) "_")) vs) in
  forall l1 l2, vs = (l1 ++ l2)%list ->
    (forall dm cm nm,
       first_pass env no_input size l1 [] c 0 = Ok (dm, cm, nm) ->
       exists ext, dfin = (dm ++ ext)%list) /\
    (forall d1 c1 n1 dm cm nm,
       first_pass env no_input size vs [] c 0 = Ok (d1, c1, n1) ->
       second_pass env no_input size l1 d1 c1 n1 = Ok (dm, cm, nm) ->
       exists ext, dfin = (dm ++ ext)%list).
Proof.
  intros Henv Hctx Hdist Hnd Hrun size l1 l2 Hvs.
  apply distinct_NoDup in Hdist.
  unfold prompt_for_config in Hrun. rewrite Henv in Hrun. simpl in Hrun.
  rewrite Hctx in Hrun. simpl in Hrun. rewrite length_map in Hrun. fold size in Hrun.
  destruct (first_pass env no_input size vs [] c 0)
    as [[[d1 c1] n1]|e] eqn:Hfirst; simpl in Hrun; [|discriminate].
  destruct (second_pass env no_input size vs d1 c1 n1)
    as [[[d2 c2] n2]|e] eqn:Hsecond; simpl in Hrun; [|discriminate].
  inversion Hrun; subst d2 c2; clear Hrun.
  destruct (writes_disjoint vs Hdist Hnd) as [Hn2 Hdisj].
  destruct (first_pass_appends env no_input size vs [] c 0 d1 c1 n1 Hdist)
    as [e1 [Hd1 He1]]; [intros k _ [] | exact Hfirst |].
  simpl in Hd1. subst d1.
  assert (Hall : exists e2, dfin = (e1 ++ e2)%list /\ od_keys e2 = second_writes vs).
  { apply (second_pass_appends env no_input size vs e1 c1 n1 dfin cfin n2 Hn2);
      [|exact Hsecond].
    intros k Hk Hin. apply (Hdisj k Hk). apply He1. exact Hin. }
  destruct Hall as [e2 [Hfin He2]].
  subst vs. split.
  - intros dm cm nm Hm. rewrite first_pass_app, Hm in Hfirst. simpl in Hfirst.
    unfold descendants_of in Hdist. rewrite flat_map_app, od_keys_app in Hdist.
    apply NoDup_app_iff' in Hdist. destruct Hdist as [Hn_l1 [Hn_l2 Hd12]].
    destruct (first_pass_appends env no_input size l1 [] c 0 dm cm nm Hn_l1)
      as [em [Hdm Hem]]; [intros k _ [] | exact Hm |].
    simpl in Hdm. subst dm.
    destruct (first_pass_appends env no_input size l2 em cm nm e1 c1 n1 Hn_l2)
      as [er [-> _]]; [|exact Hfirst|].
    + intros k Hk Hin. apply (Hd12 k); [|exact Hk].
      apply (first_writes_all_incl l1). apply Hem. exact Hin.
    + exists (er ++ e2)%list. rewrite Hfin, <- app_assoc. reflexivity.
  - intros d1 c1' n1' dm cm nm Hf Hm.
    inversion Hf; subst d1 c1' n1'; clear Hf.
    rewrite second_pass_app, Hm in Hsecond. simpl in Hsecond.
    rewrite second_writes_app in Hn2, He2.
    apply NoDup_app_iff' in Hn2. destruct Hn2 as [Hn_l1 [Hn_l2 Hd12]].
    destruct (second_pass_appends env no_input size l1 e1 c1 n1 dm cm nm Hn_l1)
      as [em [-> Hem]]; [|exact Hm|].
    + intros k Hk Hin. apply (Hdisj k).
      * rewrite second_writes_app. apply in_or_app. left. exact Hk.
      * apply He1. exact Hin.
    + destruct (second_pass_appends env no_input size l2 (e1 ++ em)%list cm nm
                  dfin cfin n2 Hn_l2) as [er [-> _]]; [|exact Hsecond|].
      * intros k Hk Hin. rewrite od_keys_app in Hin. apply in_app_or in Hin.
        destruct Hin as [Hin|Hin].
        -- apply (Hdisj k).
           ++ rewrite second_writes_app. apply in_or_app. right. exact Hk.
           ++ apply He1. exact Hin.
        -- rewrite Hem in Hin. apply (Hd12 k Hin Hk).
      * exists er. reflexivity.
Qed.


(** The first loop, when it succeeds on the whole list, succeeds on every
    prefix of it. *)
Lemma first_pass_prefix_ok env no_input size l1 l2 d c n r :
  first_pass env no_input size (l1 ++ l2)%list d c n = Ok r ->
  exists dm cm nm, first_pass env no_input size l1 d c n = Ok (dm, cm, nm).
Proof.
  rewrite first_pass_app. intros Hrun.
  destruct (first_pass env no_input size l1 d c n) as [[[dm cm] nm]|e];
    [eauto | discriminate].
Qed.

(** The second loop, likewise. *)
Lemma second_pass_prefix_ok env no_input size l1 l2 d c n r :
  second_pass env no_input size (l1 ++ l2)%list d c n = Ok r ->
  exists dm cm nm, second_pass env no_input size l1 d c n = Ok (dm, cm, nm).
Proof.
  rewrite second_pass_app. intros Hrun.
  destruct (second_pass env no_input size l1 d c n) as [[[dm cm] nm]|e];
    [eauto | discriminate].
Qed.

End PrefixFacts.

Section GrowthFacts.
Context {H : Host}.
Variables (env : Environment) (no_input : bool).







End GrowthFacts.

(* ===================================================================== *)
(** ** Branch activation                                                  *)
(* ===================================================================== *)





(* ===================================================================== *)
(** ** Dict-valued variables that have branches                           *)
(* ===================================================================== *)

(** C9, as the code has it.  A dict-valued variable with at least one
    branch child stores nothing under its flat key before the branch loop
    looks that key up, so the call raises [KeyError] whenever the dict handed
    in does not already hold the key; and [prompt_for_config] raises
    [KeyError] when such a variable sits at the top level under a name that
    does not begin with the marker and the first loop reaches it with its
    name not yet a key. *)
Theorem dict_with_branches_raises {H : Host} (v : CookiecutterVariable) :
  is_dict (value v) = true ->
  variables v <> [] ->
  (forall d env no_input prefix parent c,
     od_get (parent ++ name v) d = None ->
     get_cookiecutter_values v d env no_input prefix parent c = Raise KeyError) /\
  (forall ctx no_input c env l1 l2 d1 c1 n1,
     create_env_with_context ctx = Ok env ->
     context_variables ctx = Ok (l1 ++ v :: l2)%list ->
     startswith (name v) "_" = false ->
     first_pass env no_input
       (List.length (filter (fun u => negb (startswith (name u) "_")) (l1 ++ v :: l2)%list))
       l1 [] c 0 = Ok (d1, c1, n1) ->
     od_get (name v) d1 = None ->
     prompt_for_config ctx no_input c = Raise KeyError).
Proof.
  intros Hd Hvs.
  assert (Hcall : forall d env no_input prefix parent c,
     od_get (parent ++ name v) d = None ->
     get_cookiecutter_values v d env no_input prefix parent c = Raise KeyError).
  { intros d env no_input prefix parent c Hget.
    rewrite get_cookiecutter_values_unfold.
    unfold store_own_value. destruct (value v); try discriminate. simpl.
    destruct (variables v) as [|b bs]; [contradiction|]. simpl.
    rewrite Hget. reflexivity. }
  split; [exact Hcall|].
  intros ctx no_input c env l1 l2 d1 c1 n1 Henv Hctx Hpub Hfirst Hget.
  unfold prompt_for_config. rewrite Henv. simpl. rewrite Hctx. simpl.
  rewrite length_map, first_pass_app, Hfirst. simpl.
  destruct (not_marker_not_special v Hpub) as [Hpriv Hder].
  rewrite Hpriv, Hder, Hd. simpl.
  rewrite Hcall by exact Hget. reflexivity.
Qed.

Lemma dict_with_branches_raises_witness :
  get_cookiecutter_values (H := toy_host) (settings "settings" VNone)
    [("kind", VStr "x")] tt true "" "" quiet = Raise KeyError /\
  prompt_for_config (H := toy_host) exposed true quiet = Raise KeyError.
Proof.
  pose proof (dict_with_branches_raises (H := toy_host) (settings "settings" VNone)
                eq_refl ltac:(discriminate)) as [Hcall Htop].
  split.
  - apply Hcall. reflexivity.
  - apply (Htop exposed true quiet tt [leaf "kind" (VStr "x")] []
                [("kind", VStr "x")] quiet 1); reflexivity.
Defined.

(** C9 as stated fails: a tree can hold such a variable and still resolve,
    when the variable is private or sits in a branch that is not selected. *)
Lemma tree_with_dict_branches_resolves :
  is_dict (value (settings "_settings" VNone)) = true /\
  variables (settings "_settings" VNone) <> [] /\
  prompt_for_config (H := toy_host) sheltered true quiet =
    Ok ([("_settings", VDict [(VStr "k", VStr "v")]); ("kind", VStr "x")], quiet).
Proof.
  split; [reflexivity|]. split; [discriminate|]. vm_compute. reflexivity.
Qed.

(* ===================================================================== *)
(** ** Names that begin with the marker                                   *)
(* ===================================================================== *)

(** C6, as the code has it: the marker is looked at by the two loops of
    [prompt_for_config] only, that is for top-level variables.  There, in
    both modes, a variable under a single marker is stored verbatim by the
    first loop and passed over by the second, and one under a double marker
    is rendered against the dict so far and stored by the first loop and,
    when dict-valued, rendered and stored again by the second; in every
    case the console goes on to the next variable as it was, so nothing is
    asked.  When no key is written twice, the dict returned holds the raw
    value under a single-marker name and the value rendered by the first
    loop under a double-marker name. *)
Theorem marker_names_at_top_level {H : Host} (env : Environment) (no_input : bool)
    (size : nat) (l1 l2 : list CookiecutterVariable) (v : CookiecutterVariable)
    (d : odict) (c : console) (n : nat) :
  (is_private v = true ->
     first_pass env no_input size (l1 ++ v :: l2)%list d c n =
       ('(d1, c1, n1) <- first_pass env no_input size l1 d c n ;;
        first_pass env no_input size l2 (od_set (name v) (value v) d1) c1 n1) /\
     second_pass env no_input size (l1 ++ v :: l2)%list d c n =
       ('(d1, c1, n1) <- second_pass env no_input size l1 d c n ;;
        second_pass env no_input size l2 d1 c1 n1)) /\
  (startswith (name v) "__" = true ->
     first_pass env no_input size (l1 ++ v :: l2)%list d c n =
       ('(d1, c1, n1) <- first_pass env no_input size l1 d c n ;;
        val <- render_variable env (value v) d1 ;;
        first_pass env no_input size l2 (od_set (name v) val d1) c1 n1) /\
     second_pass env no_input size (l1 ++ v :: l2)%list d c n =
       ('(d1, c1, n1) <- second_pass env no_input size l1 d c n ;;
        if is_dict (value v) then
          val <- reraise_undefined (name v) (render_variable env (value v) d1) ;;
          second_pass env no_input size l2 (od_set (name v) val d1) c1 (S n1)
        else second_pass env no_input size l2 d1 c1 n1)) /\
  (forall ctx dfin cfin,
     create_env_with_context ctx = Ok env ->
     context_variables ctx = Ok (l1 ++ v :: l2)%list ->
     size = List.length (filter (fun u => negb (startswith (name u) "_"))
                                (l1 ++ v :: l2)%list) ->
     distinct (od_keys (descendants_of "" (l1 ++ v :: l2)%list)) = true ->
     no_derived_dict (l1 ++ v :: l2)%list = true ->
     prompt_for_config ctx no_input c = Ok (dfin, cfin) ->
     (is_private v = true -> od_get (name v) dfin = Some (value v)) /\
     (startswith (name v) "__" = true ->
      exists dm cm nm val,
        first_pass env no_input size l1 [] c 0 = Ok (dm, cm, nm) /\
        render_variable env (value v) dm = Ok val /\
        od_get (name v) dfin = Some val)).
Proof.
  assert (Hsingle : forall d c n, is_private v = true ->
     first_pass env no_input size (l1 ++ v :: l2)%list d c n =
       ('(d1, c1, n1) <- first_pass env no_input size l1 d c n ;;
        first_pass env no_input size l2 (od_set (name v) (value v) d1) c1 n1)).
  { intros d0 c0 n0 Hp. rewrite first_pass_app. simpl. rewrite Hp. reflexivity. }
  assert (Hdouble : forall d c n, startswith (name v) "__" = true ->
     first_pass env no_input size (l1 ++ v :: l2)%list d c n =
       ('(d1, c1, n1) <- first_pass env no_input size l1 d c n ;;
        val <- render_variable env (value v) d1 ;;
        first_pass env no_input size l2 (od_set (name v) val d1) c1 n1)).
  { intros d0 c0 n0 Hd.
    assert (Hp : is_private v = false)
      by (unfold is_private; rewrite Hd; apply andb_false_r).
    rewrite first_pass_app. simpl. rewrite Hp, Hd. reflexivity. }
  split; [|split].
  - intros Hp. split; [apply Hsingle; exact Hp|].
    rewrite second_pass_app. simpl. rewrite Hp. reflexivity.
  - intros Hd. split; [apply Hdouble; exact Hd|].
    assert (Hp : is_private v = false)
      by (unfold is_private; rewrite Hd; apply andb_false_r).
    rewrite second_pass_app. simpl. rewrite Hp.
    destruct (second_pass env no_input size l1 d c n) as [[[d1 c1] n1]|e]; simpl;
      [|reflexivity].
    destruct (is_dict (value v)); [|reflexivity].
    unfold resolve_dict. rewrite Hd, andb_false_r.
    destruct (render_variable env (value v) d1) as [val|[]]; reflexivity.
  - intros ctx dfin cfin Henv Hctx Hsize Hdist Hnd Hrun.
    pose proof (prompt_for_config_prefixes ctx no_input c env _ dfin cfin
                  Henv Hctx Hdist Hnd Hrun) as Hpre.
    cbv zeta in Hpre. rewrite <- Hsize in Hpre.
    specialize (Hpre (l1 ++ [v])%list l2).
    rewrite <- app_assoc in Hpre. specialize (Hpre eq_refl).
    destruct Hpre as [Hpre _].
    assert (Hfirst : exists r, first_pass env no_input size (l1 ++ v :: l2)%list [] c 0 = Ok r).
    { unfold prompt_for_config in Hrun. rewrite Henv in Hrun. simpl in Hrun.
      rewrite Hctx in Hrun. simpl in Hrun. rewrite length_map, <- Hsize in Hrun.
      destruct (first_pass env no_input size (l1 ++ v :: l2)%list [] c 0) as [r|e];
        [eauto | discriminate]. }
    destruct Hfirst as [r Hfirst].
    split.
    + intros Hp. rewrite (Hsingle [] c 0 Hp) in Hfirst.
      destruct (first_pass env no_input size l1 [] c 0) as [[[dm cm] nm]|e] eqn:Hl1;
        simpl in Hfirst; [|discriminate].
      destruct (Hpre (od_set (name v) (value v) dm) cm nm) as [ext ->].
      * rewrite first_pass_app, Hl1. simpl. rewrite Hp. reflexivity.
      * apply od_get_app_left, od_get_set_same.
    + intros Hd. rewrite (Hdouble [] c 0 Hd) in Hfirst.
      assert (Hp : is_private v = false)
        by (unfold is_private; rewrite Hd; apply andb_false_r).
      destruct (first_pass env no_input size l1 [] c 0) as [[[dm cm] nm]|e] eqn:Hl1;
        simpl in Hfirst; [|discriminate].
      destruct (render_variable env (value v) dm) as [val|e] eqn:Hval;
        simpl in Hfirst; [|discriminate].
      exists dm, cm, nm, val. split; [reflexivity|]. split; [exact Hval|].
      destruct (Hpre (od_set (name v) val dm) cm nm) as [ext ->].
      * rewrite first_pass_app, Hl1. simpl. rewrite Hp, Hd, Hval. reflexivity.
      * apply od_get_app_left, od_get_set_same.
Qed.

Lemma marker_names_at_top_level_witness :
  first_pass (H := toy_host) tt false 1
    [leaf "later" (VStr "L"); leaf "_raw" (VDict [(VStr "k", VStr "$later")])]
    [] (mkConsole ["typed"] []) 0 =
    ('(d1, c1, n1) <- first_pass tt false 1 [leaf "later" (VStr "L")] []
                                 (mkConsole ["typed"] []) 0 ;;
     first_pass tt false 1 []
       (od_set "_raw" (VDict [(VStr "k", VStr "$later")]) d1) c1 n1) /\
  first_pass (H := toy_host) tt false 1
    [leaf "later" (VStr "L"); leaf "__meta" (VStr "$later")]
    [] (mkConsole ["typed"] []) 0 =
    ('(d1, c1, n1) <- first_pass tt false 1 [leaf "later" (VStr "L")] []
                                 (mkConsole ["typed"] []) 0 ;;
     val <- render_variable tt (VStr "$later") d1 ;;
     first_pass tt false 1 [] (od_set "__meta" val d1) c1 n1) /\
  od_get "_raw" [("later", VStr "typed"); ("_raw", VDict [(VStr "k", VStr "$later")])] =
    Some (VDict [(VStr "k", VStr "$later")]).
Proof.
  split; [|split].
  - apply (proj1 (marker_names_at_top_level (H := toy_host) tt false 1
             [leaf "later" (VStr "L")] []
             (leaf "_raw" (VDict [(VStr "k", VStr "$later")]))
             [] (mkConsole ["typed"] []) 0)).
    reflexivity.
  - apply (proj1 (proj2 (marker_names_at_top_level (H := toy_host) tt false 1
             [leaf "later" (VStr "L")] []
             (leaf "__meta" (VStr "$later"))
             [] (mkConsole ["typed"] []) 0))).
    reflexivity.
  - apply (proj1 (proj2 (proj2 (marker_names_at_top_level (H := toy_host) tt false 1
             [leaf "later" (VStr "L")] []
             (leaf "_raw" (VDict [(VStr "k", VStr "$later")]))
             [] (mkConsole ["typed"] []) 0))
             raw_dict
             [("later", VStr "typed"); ("_raw", VDict [(VStr "k", VStr "$later")])]
             (mkConsole [] ["  [dim][1/1][/] later"])
             eq_refl eq_refl eq_refl eq_refl eq_refl eq_refl));
      reflexivity.
Defined.

(** C6 as stated fails for a variable that is a branch child: [_secret],
    under a single marker, is rendered when its branch is selected (its raw
    value ["$kind"] becomes ["x"]), and in interactive mode the operator is
    asked for it (the second line typed becomes its value). *)
Lemma private_branch_child_rendered_and_asked :
  is_private secret = true /\
  In secret (variables kind) /\
  prompt_for_config (H := toy_host) (root_of [kind]) true quiet =
    Ok ([("kind", VStr "x"); ("kind/_secret", VStr "x")], quiet) /\
  exists shown,
    prompt_for_config (H := toy_host) (root_of [kind]) false
                      (mkConsole [""; "typed"] []) =
    Ok ([("kind", VStr "x"); ("kind/_secret", VStr "typed")], mkConsole [] shown).
Proof.
  split; [reflexivity|]. split; [right; left; reflexivity|].
  split; [vm_compute; reflexivity|].
  eexists. vm_compute. reflexivity.
Qed.

(* ===================================================================== *)
(** ** Dict-valued variables                                              *)
(* ===================================================================== *)

(** C2, as the code has it.  A top-level dict-valued variable whose name
    does not begin with the marker is resolved by the second loop: by then
    the first loop has run over every top-level variable, so each one that
    is not a dict, declared before or after, is a key of the dict the
    mapping is rendered against; what is stored is the rendered mapping
    (without input) or the operator's answer to [read_user_dict] with the
    rendered mapping as default. *)
Theorem dict_variables_after_scalars {H : Host} (ctx : context) (no_input : bool)
    (c : console) (env : Environment) (l1 l2 : list CookiecutterVariable)
    (v : CookiecutterVariable) (dfin : odict) (cfin : console) :
  create_env_with_context ctx = Ok env ->
  context_variables ctx = Ok (l1 ++ v :: l2)%list ->
  startswith (name v) "_" = false ->
  is_dict (value v) = true ->
  prompt_for_config ctx no_input c = Ok (dfin, cfin) ->
  let size :=
    List.length (filter (fun u => negb (startswith (name u) "_")) (l1 ++ v :: l2)%list) in
  exists d1 c1 n1 d2 c2 n2 val val' c3 nfin,
    first_pass env no_input size (l1 ++ v :: l2)%list [] c 0 = Ok (d1, c1, n1) /\
    second_pass env no_input size l1 d1 c1 n1 = Ok (d2, c2, n2) /\
    (forall u, In u (l1 ++ v :: l2)%list -> is_dict (value u) = false ->
               od_mem (name u) d2 = true) /\
    render_variable env (value v) d2 = Ok val /\
    (if no_input then Ok (val, c2)
     else read_user_dict (name v) val (VDict [(VStr (name v), VStr (prompt v))])
                         (count_prefix (S n2) size) c2) = Ok (val', c3) /\
    second_pass env no_input size l2 (od_set (name v) val' d2) c3 (S n2)
      = Ok (dfin, cfin, nfin).
Proof.
  intros Henv Hctx Hpub Hd Hrun size.
  unfold prompt_for_config in Hrun. rewrite Henv in Hrun. simpl in Hrun.
  rewrite Hctx in Hrun. simpl in Hrun. rewrite length_map in Hrun. fold size in Hrun.
  destruct (first_pass env no_input size (l1 ++ v :: l2)%list [] c 0)
    as [[[d1 c1] n1]|e] eqn:Hfirst; simpl in Hrun; [|discriminate].
  rewrite second_pass_app in Hrun.
  destruct (second_pass env no_input size l1 d1 c1 n1)
    as [[[d2 c2] n2]|e] eqn:Hsecond; simpl in Hrun; [|discriminate].
  destruct (not_marker_not_special v Hpub) as [Hpriv Hder].
  rewrite Hpriv, Hd in Hrun.
  destruct (reraise_undefined (name v) (resolve_dict env no_input size v d2 c2 n2))
    as [[[d3 c3] n3]|e] eqn:Hv; simpl in Hrun; [|discriminate].
  apply reraise_undefined_ok in Hv. unfold resolve_dict in Hv.
  destruct (render_variable env (value v) d2) as [val|e] eqn:Hval; simpl in Hv;
    [|discriminate].
  rewrite Hder, andb_true_r in Hv.
  destruct (second_pass env no_input size l2 d3 c3 n3)
    as [[[d4 c4] n4]|e] eqn:Hrest; simpl in Hrun; [|discriminate].
  inversion Hrun; subst d4 c4; clear Hrun.
  assert (Hkeys : forall u, In u (l1 ++ v :: l2)%list -> is_dict (value u) = false ->
                            od_mem (name u) d2 = true).
  { intros u Hin Hnd. eapply second_pass_keeps; [exact Hsecond|].
    eapply first_pass_stores; eauto. }
  destruct no_input; simpl in Hv.
  - inversion Hv; subst d3 c3 n3; clear Hv.
    exists d1, c1, n1, d2, c2, n2, val, val, c2, n4. repeat split; auto.
  - destruct (read_user_dict _ _ _ _ _) as [[val' c3']|e] eqn:Hask; simpl in Hv;
      [|discriminate].
    inversion Hv; subst d3 c3 n3; clear Hv.
    exists d1, c1, n1, d2, c2, n2, val, val', c3', n4. repeat split; auto.
Qed.

Lemma dict_variables_after_scalars_witness :
  exists d1 c1 n1 d2 c2 n2 val val' c3 nfin,
    first_pass (H := toy_host) tt true 2
      [leaf "files" (VDict [(VStr "a", VStr "$later")]); leaf "later" (VStr "L")]
      [] quiet 0 = Ok (d1, c1, n1) /\
    second_pass tt true 2 [] d1 c1 n1 = Ok (d2, c2, n2) /\
    (forall u,
       In u [leaf "files" (VDict [(VStr "a", VStr "$later")]); leaf "later" (VStr "L")] ->
       is_dict (value u) = false -> od_mem (name u) d2 = true) /\
    render_variable tt (VDict [(VStr "a", VStr "$later")]) d2 = Ok val /\
    Ok (val, c2) = Ok (val', c3) /\
    second_pass tt true 2 [leaf "later" (VStr "L")] (od_set "files" val' d2) c3 (S n2)
      = Ok ([("later", VStr "L"); ("files", VDict [(VStr "a", VStr "L")])], quiet, nfin).
Proof.
  apply (dict_variables_after_scalars (H := toy_host) files_first true quiet tt []
           [leaf "later" (VStr "L")] (leaf "files" (VDict [(VStr "a", VStr "$later")]))
           [("later", VStr "L"); ("files", VDict [(VStr "a", VStr "L")])] quiet);
    reflexivity.
Defined.

(** C2 as stated fails under a marker name.  A dict under a double marker
    is rendered by the first loop, where a scalar declared after it is not
    yet visible: [meta_first] fails where [meta_last], the same variables in
    the other order, resolves.  A dict under a single marker is stored
    unrendered: [_raw] keeps ["$later"], which renders to ["L"]. *)
Lemma marker_dicts_order_and_raw :
  prompt_for_config (H := toy_host) meta_first true quiet = Raise UndefinedError /\
  prompt_for_config (H := toy_host) meta_last true quiet =
    Ok ([("later", VStr "L"); ("__meta", VDict [(VStr "k", VStr "L")])], quiet) /\
  prompt_for_config (H := toy_host) raw_dict true quiet =
    Ok ([("later", VStr "L"); ("_raw", VDict [(VStr "k", VStr "$later")])], quiet) /\
  render_variable (H := toy_host) tt (VDict [(VStr "k", VStr "$later")])
                  [("later", VStr "L")] = Ok (VDict [(VStr "k", VStr "L")]).
Proof. repeat split; vm_compute; reflexivity. Qed.

(* ===================================================================== *)
(** ** Flattening a tree                                                  *)
(* ===================================================================== *)

(** C10, as the code has it.  [to_cookiecutter_dict] writes every
    descendant, whatever its [matches], under its ['/']-joined path, in
    pre-order; a path that occurs twice is written twice, so under every key
    the dict holds the raw value of the last descendant with that path; and
    when no path occurs twice the dict is the list of all descendants with
    their raw values, one entry each. *)
Theorem to_cookiecutter_dict_descendants (self : CookiecutterVariable) (parent : string) :
  (forall k,
     od_get k (to_cookiecutter_dict self parent) =
     last_value k (descendants_of parent (variables self))) /\
  (distinct (od_keys (descendants_of parent (variables self))) = true ->
   to_cookiecutter_dict self parent = descendants_of parent (variables self)).
Proof.
  split.
  - intros k. revert parent.
    induction self as [n val p vs m md IH] using tree_ind. intros parent.
    rewrite to_cookiecutter_dict_unfold. simpl.
    rewrite (flatten_loop_get k parent vs IH []). simpl.
    destruct (last_value k (descendants_of parent vs)); reflexivity.
  - intros Hd. apply distinct_NoDup in Hd. revert parent Hd.
    induction self as [n val p vs m md IH] using tree_ind. intros parent Hd.
    rewrite to_cookiecutter_dict_unfold. simpl in *.
    apply (flatten_loop_distinct parent vs IH []). exact Hd.
Qed.

Lemma to_cookiecutter_dict_descendants_witness :
  to_cookiecutter_dict (node "" VNone [kind]) "" =
    [ ("kind", VStr "x"); ("kind/opts", VDict [(VStr "k", VStr "v")]);
      ("kind/_secret", VStr "$kind"); ("kind/other", VStr "o") ].
Proof.
  apply (proj2 (to_cookiecutter_dict_descendants (node "" VNone [kind]) "")).
  reflexivity.
Defined.

(** C10 as stated fails when two descendants share a path: [clash] has
    three descendants and sibling names unique at each level, and its flat
    dict has two entries, ["a/b"] holding the value of the later one. *)
Lemma to_cookiecutter_dict_shared_path :
  List.length (descendants_of "" (variables clash)) = 3 /\
  to_cookiecutter_dict clash "" = [("a", VStr "1"); ("a/b", VStr "3")].
Proof. split; reflexivity. Qed.

(* ===================================================================== *)
(** ** Writes to the resolved dict                                        *)
(* ===================================================================== *)




(* ===================================================================== *)
(** ** Replay files                                                       *)
(* ===================================================================== *)

Import Replay.

(** C7, as the code has it.  The primary extension is [.yaml] and the
    alternate one [.json]: [get_file_name] joins the directory with the name
    plus [.json] exactly when the name already ends with [.yaml], and with
    the name plus [.yaml] otherwise, in particular when the name ends with
    [.json]; and for a directory that is not empty and does not end with a
    slash, and a name that does not begin with one, the join puts one slash
    between them. *)
Theorem get_file_name_extension (replay_dir template_name : string) :
  (endswith template_name ".yaml" = true ->
   get_file_name replay_dir template_name =
     os_path_join replay_dir (template_name ++ ".json")) /\
  (endswith template_name ".yaml" = false ->
   get_file_name replay_dir template_name =
     os_path_join replay_dir (template_name ++ ".yaml")) /\
  (endswith template_name ".json" = true ->
   get_file_name replay_dir template_name =
     os_path_join replay_dir (template_name ++ ".yaml")) /\
  (replay_dir <> "" -> endswith replay_dir "/" = false ->
   startswith template_name "/" = false ->
   get_file_name replay_dir template_name =
     replay_dir ++ "/" ++ template_name ++
       (if endswith template_name ".yaml" then ".json" else ".yaml")).
Proof.
  unfold get_file_name. repeat split.
  - intros ->. reflexivity.
  - intros ->. reflexivity.
  - intros Hj.
    rewrite (endswith_same_length template_name ".json" ".yaml" eq_refl
               ltac:(discriminate) Hj).
    reflexivity.
  - intros Hdir Hslash Hname. unfold os_path_join.
    assert (Hfile : forall ext, startswith ext "/" = false ->
                                startswith (template_name ++ ext) "/" = false)
      by (intros ext Hext; rewrite startswith_char_append; assumption).
    destruct (endswith template_name ".yaml"); simpl negb; cbv iota;
      rewrite Hfile by reflexivity; rewrite Hslash;
      (destruct (String.eqb replay_dir "") eqn:E;
       [apply String.eqb_eq in E; contradiction | reflexivity]).
Qed.

Lemma get_file_name_extension_witness :
  get_file_name "replay" "demo.yaml" = os_path_join "replay" ("demo.yaml" ++ ".json") /\
  get_file_name "replay" "demo" = os_path_join "replay" ("demo" ++ ".yaml") /\
  get_file_name "replay" "demo.json" = os_path_join "replay" ("demo.json" ++ ".yaml") /\
  get_file_name "replay" "demo" = "replay/demo.yaml".
Proof.
  split; [|split; [|split]].
  - apply (proj1 (get_file_name_extension "replay" "demo.yaml")). reflexivity.
  - apply (proj1 (proj2 (get_file_name_extension "replay" "demo"))). reflexivity.
  - apply (proj1 (proj2 (proj2 (get_file_name_extension "replay" "demo.json")))).
    reflexivity.
  - apply (proj2 (proj2 (proj2 (get_file_name_extension "replay" "demo"))));
      [discriminate | reflexivity | reflexivity].
Defined.

(** C7 as stated fails in its second half: a name that ends with the
    alternate suffix [.json] gets the primary extension [.yaml], not the
    alternate one. *)
Lemma json_name_gets_yaml :
  endswith "demo.json" ".json" = true /\
  get_file_name "replay" "demo.json" = "replay/demo.json.yaml" /\
  get_file_name "replay" "demo.json" <> os_path_join "replay" ("demo.json" ++ ".json").
Proof. split; [reflexivity|]. split; [reflexivity | discriminate]. Qed.

(** C8.  Each of these raises, whatever the operator would type and
    before any file is opened for writing: [dump] on a context without the
    reserved key ([ValueError], or the error of [make_sure_path_exists] if
    that fails first); [load] on a document without it ([ValueError] when
    the membership test says no, as for a mapping that lacks the key, and
    the test's own error when the document is not a container);
    [read_user_choice] on options that are false, the empty list among them
    ([ValueError]); [read_user_dict] on a default that is not a dict
    ([TypeError]). *)
Theorem configuration_errors_raise {H : Host} {S : Store} :
  (forall replay_dir template_name ctx fs,
     has_cookiecutter ctx = false ->
     dump replay_dir template_name ctx fs =
       match make_sure_path_exists replay_dir fs with
       | Ok _ => Raise (ValueError "Context is required to contain a cookiecutter key")
       | Raise e => Raise e
       end) /\
  (forall replay_dir template_name fs text doc,
     read_text (get_file_name replay_dir template_name) fs = Ok text ->
     safe_load text = Ok doc ->
     (contains (VStr "cookiecutter") doc = Ok false ->
      load replay_dir template_name fs =
        Raise (ValueError "Context is required to contain a cookiecutter key")) /\
     (forall e, contains (VStr "cookiecutter") doc = Raise e ->
                load replay_dir template_name fs = Raise e) /\
     (forall items, doc = VDict items ->
                    dict_get (VStr "cookiecutter") items = None ->
                    contains (VStr "cookiecutter") doc = Ok false)) /\
  (forall var_name options prompts prefix c,
     truthy options = false ->
     read_user_choice var_name options prompts prefix c = Raise (ValueError "")) /\
  (forall var_name prompts prefix c,
     read_user_choice var_name (VList []) prompts prefix c = Raise (ValueError "")) /\
  (forall var_name default_value prompts prefix c,
     is_dict default_value = false ->
     read_user_dict var_name default_value prompts prefix c = Raise TypeError).
Proof.
  split; [|split; [|split; [|split]]].
  - intros replay_dir template_name ctx fs Hno.
    unfold dump. destruct (make_sure_path_exists replay_dir fs); [|reflexivity].
    simpl. rewrite Hno. reflexivity.
  - intros replay_dir template_name fs text doc Hread Hload.
    split; [|split].
    + intros Hno. unfold load. rewrite Hread. simpl. rewrite Hload. simpl.
      rewrite Hno. reflexivity.
    + intros e He. unfold load. rewrite Hread. simpl. rewrite Hload. simpl.
      rewrite He. reflexivity.
    + intros items -> Hno. simpl. rewrite Hno. reflexivity.
  - intros var_name options prompts prefix c Hf.
    unfold read_user_choice. rewrite Hf. reflexivity.
  - reflexivity.
  - intros var_name default_value prompts prefix c Hnd.
    unfold read_user_dict. rewrite Hnd. reflexivity.
Qed.

Lemma configuration_errors_raise_witness :
  dump (S := toy_store) "replay" "demo" [(VStr "other", Plain VNone)] [] =
    Raise (ValueError "Context is required to contain a cookiecutter key") /\
  load (S := toy_store) "replay" "demo"
       [("replay/demo.yaml", VDict [(VStr "other", VNone)])] =
    Raise (ValueError "Context is required to contain a cookiecutter key") /\
  load (S := toy_store) "replay" "demo" [("replay/demo.yaml", VNone)] = Raise TypeError /\
  read_user_choice (H := toy_host) "kind" VNone VNone "" (mkConsole ["1"] []) =
    Raise (ValueError "") /\
  read_user_dict (H := toy_host) "files" (VStr "{}") VNone "" (mkConsole ["{}"] []) =
    Raise TypeError.
Proof.
  destruct (configuration_errors_raise (H := toy_host) (S := toy_store))
    as [Hdump [Hload [Hchoice [_ Hdict]]]].
  split; [|split; [|split; [|split]]].
  - apply (Hdump "replay" "demo" [(VStr "other", Plain VNone)] []). reflexivity.
  - apply (proj1 (Hload "replay" "demo"
                    [("replay/demo.yaml", VDict [(VStr "other", VNone)])]
                    (VDict [(VStr "other", VNone)]) (VDict [(VStr "other", VNone)])
                    eq_refl eq_refl)).
    reflexivity.
  - apply (proj1 (proj2 (Hload "replay" "demo" [("replay/demo.yaml", VNone)] VNone VNone
                           eq_refl eq_refl))).
    reflexivity.
  - apply Hchoice. reflexivity.
  - apply Hdict. reflexivity.
Defined.

Section DocFacts.


























End DocFacts.




(* ===================================================================== *)
(** ** Nested-template selection                                          *)
(* ===================================================================== *)




(* ===================================================================== *)
(** ** Further properties: the variable tree                              *)
(* ===================================================================== *)

Section SplitFacts.

Lemma split_not_nil (sep : ascii) (s : string) : split sep s <> [].
Proof.
  destruct s as [|a s]; simpl; [discriminate|].
  destruct (split sep s); [discriminate|].
  destruct (Ascii.eqb a sep); discriminate.
Qed.

Lemma join_cons2 (sep x y : string) (l : list string) :
  join sep (x :: y :: l) = x ++ sep ++ join sep (y :: l).
Proof. reflexivity. Qed.

Lemma join_split (s : string) : join "/" (split "/" s) = s.
Proof.
  induction s as [|a s IH]; [reflexivity|].
  cbn [split]. destruct (split "/" s) as [|h t] eqn:E.
  - exfalso. exact (split_not_nil _ _ E).
  - destruct (Ascii.eqb a "/") eqn:Ea.
    + apply Ascii.eqb_eq in Ea. subst a. rewrite join_cons2, IH. reflexivity.
    + destruct t as [|x t].
      * simpl in IH |- *. rewrite IH. reflexivity.
      * rewrite <- IH, !join_cons2. reflexivity.
Qed.

(** A text without the separator is its own only segment. *)
Lemma split_single_inv (sep a : ascii) (s : string) :
  split sep (String a s) = [String a s] ->
  Ascii.eqb a sep = false /\ split sep s = [s].
Proof.
  cbn [split]. destruct (split sep s) as [|h t] eqn:E.
  - exfalso. exact (split_not_nil _ _ E).
  - destruct (Ascii.eqb a sep); intros Heq; [discriminate|].
    inversion Heq; subst. split; reflexivity.
Qed.

Lemma split_app_sep (sep : ascii) (x y : string) :
  split sep x = [x] ->
  split sep (x ++ String sep y) = x :: split sep y.
Proof.
  induction x as [|a x IH]; intros Hx.
  - simpl. destruct (split sep y) as [|h t] eqn:E.
    + exfalso. exact (split_not_nil _ _ E).
    + rewrite Ascii.eqb_refl. reflexivity.
  - apply split_single_inv in Hx. destruct Hx as [Ha Hx].
    change (String a x ++ String sep y) with (String a (x ++ String sep y)).
    cbn [split]. rewrite (IH Hx), Ha. reflexivity.
Qed.

Lemma split_segments (sep : ascii) (s : string) :
  Forall (fun x => split sep x = [x]) (split sep s).
Proof.
  induction s as [|a s IH]; [repeat constructor|].
  cbn [split]. destruct (split sep s) as [|h t] eqn:E.
  - repeat constructor.
  - inversion IH as [|? ? Hh Ht]; subst.
    destruct (Ascii.eqb a sep) eqn:Ea.
    + constructor; [reflexivity | exact IH].
    + constructor; [|exact Ht].
      cbn [split]. rewrite Hh, Ea. reflexivity.
Qed.

Lemma split_join (segs : list string) :
  segs <> [] ->
  Forall (fun x => split "/" x = [x]) segs ->
  split "/" (join "/" segs) = segs.
Proof.
  induction segs as [|x segs IH]; intros Hne Hall; [contradiction|].
  inversion Hall as [|? ? Hx Hrest]; subst.
  destruct segs as [|y segs]; [exact Hx|].
  rewrite join_cons2.
  change ("/" ++ join "/" (y :: segs)) with (String "/" (join "/" (y :: segs))).
  rewrite (split_app_sep "/" x _ Hx), IH; [reflexivity | discriminate | exact Hrest].
Qed.

End SplitFacts.

Section TreeUpdateFacts.

Lemma with_children_same (self : CookiecutterVariable) :
  with_children self (variables self) = self.
Proof. destruct self; reflexivity. Qed.

(** [find] and [change_first] meet the same element. *)
Lemma find_change_first (name_ : string) (vs : list CookiecutterVariable) :
  match find (fun v => String.eqb (name v) name_) vs with
  | Some child =>
      exists a b,
        vs = (a ++ child :: b)%list /\ name child = name_ /\
        (forall x, In x a -> String.eqb (name x) name_ = false) /\
        forall f, change_first name_ f vs = (a ++ f child :: b)%list
  | None => forall f, change_first name_ f vs = vs
  end.
Proof.
  induction vs as [|v vs IH]; simpl; [reflexivity|].
  destruct (String.eqb (name v) name_) eqn:E.
  - exists [], vs. repeat split; try reflexivity.
    + apply String.eqb_eq. exact E.
    + intros x [].
  - destruct (find _ vs) as [child|].
    + destruct IH as [a [b [-> [Hn [Ha Hf]]]]].
      exists (v :: a), b. repeat split; try assumption.
      * intros x [<-|Hx]; [exact E | apply Ha; exact Hx].
      * intros f. simpl. rewrite Hf. reflexivity.
    + intros f. rewrite IH. reflexivity.
Qed.

Lemma change_first_fixed (name_ : string) f (vs : list CookiecutterVariable) child :
  find (fun v => String.eqb (name v) name_) vs = Some child ->
  f child = child -> change_first name_ f vs = vs.
Proof.
  intros Hfind Hf. pose proof (find_change_first name_ vs) as Hs.
  rewrite Hfind in Hs. destruct Hs as [a [b [-> [_ [_ Hc]]]]].
  rewrite Hc, Hf. reflexivity.
Qed.

Lemma update_path_missing (parents : list string) (v : pyval) :
  forall self, lookup_path parents self = None -> update_path parents v self = self.
Proof.
  induction parents as [|first rest IH]; intros self Hnone; [discriminate|].
  simpl in Hnone. unfold update_path; fold update_path. unfold get.
  destruct (find (fun u => String.eqb (name u) first) (variables self))
    as [child|] eqn:Hfind.
  - destruct rest as [|second rest]; [discriminate|].
    rewrite (change_first_fixed first _ _ child Hfind (IH child Hnone)).
    apply with_children_same.
  - destruct rest; reflexivity.
Qed.

Lemma erase_unfold t :
  erase t = mkVariable (name t) VNone (prompt t) (map erase (variables t))
                       (matches t) (metadata t).
Proof. destruct t; reflexivity. Qed.

Lemma map_erase_change_first (name_ : string) f (vs : list CookiecutterVariable) :
  (forall x, erase (f x) = erase x) ->
  map erase (change_first name_ f vs) = map erase vs.
Proof.
  intros Hf. induction vs as [|v vs IH]; simpl; [reflexivity|].
  destruct (String.eqb (name v) name_); simpl; [rewrite Hf | rewrite IH]; reflexivity.
Qed.

Lemma erase_update_path (parents : list string) (v : pyval) :
  forall self, erase (update_path parents v self) = erase self.
Proof.
  induction parents as [|first rest IH]; intros self; [reflexivity|].
  unfold update_path; fold update_path.
  destruct (get self first); [|destruct rest; reflexivity].
  destruct rest as [|second rest].
  - unfold set. rewrite erase_unfold. cbn [name prompt variables matches metadata with_children].
    rewrite map_erase_change_first by (intros x; rewrite !erase_unfold; reflexivity).
    symmetry. apply erase_unfold.
  - rewrite erase_unfold. cbn [name prompt variables matches metadata with_children].
    rewrite map_erase_change_first by exact IH.
    symmetry. apply erase_unfold.
Qed.

(** The root keeps its own name and value. *)
Lemma update_path_root (parents : list string) (v : pyval) (self : CookiecutterVariable) :
  name (update_path parents v self) = name self /\
  value (update_path parents v self) = value self.
Proof.
  destruct parents as [|first rest]; [split; reflexivity|].
  unfold update_path; fold update_path.
  destruct (get self first); destruct rest; split; reflexivity.
Qed.

End TreeUpdateFacts.

Section TreeUpdateRoundTrip.

(** [update] on one item, as the source writes it: the key is split; with
    more than one segment the child named by the first is updated with the
    rest joined again; with one segment the child of that name is set. *)
Lemma update_item_unfold (self : CookiecutterVariable) (k : string) (v : pyval) :
  update_item self k v =
  let parents := split "/" k in
  if (1 <? List.length parents)%nat then
    match get self (hd "" parents) with
    | Some _ =>
        with_children self
          (change_first (hd "" parents)
             (fun child => update_item child (join "/" (tl parents)) v)
             (variables self))
    | None => self
    end
  else
    match get self k with
    | Some _ => set self k v
    | None => self
    end.
Proof.
  unfold update_item. cbv zeta.
  pose proof (join_split k) as Hjoin. pose proof (split_segments "/" k) as Hsegs.
  destruct (split "/" k) as [|first rest] eqn:E.
  - exfalso. exact (split_not_nil _ _ E).
  - destruct rest as [|second rest].
    + simpl in Hjoin. subst first. reflexivity.
    + inversion Hsegs as [|? ? _ Hrest]; subst.
      cbn [List.length Nat.ltb Nat.leb hd tl].
      rewrite (split_join (second :: rest)) by (discriminate || exact Hrest).
      reflexivity.
Qed.

Lemma to_cookiecutter_dict_get (self : CookiecutterVariable) :
  forall parent k,
    od_get k (to_cookiecutter_dict self parent) =
    last_value k (descendants_of parent (variables self)).
Proof.
  induction self as [n val p vs m md IH] using tree_ind. intros parent k.
  rewrite to_cookiecutter_dict_unfold. simpl.
  rewrite (flatten_loop_get k parent vs).
  - simpl. destruct (last_value k (descendants_of parent vs)); reflexivity.
  - apply Forall_forall. intros x Hx parent'.
    rewrite Forall_forall in IH. apply IH. exact Hx.
Qed.

Lemma descendants_of_app parent (a b : list CookiecutterVariable) :
  descendants_of parent (a ++ b) =
  (descendants_of parent a ++ descendants_of parent b)%list.
Proof. unfold descendants_of. apply flat_map_app. Qed.

Lemma descendants_of_cons parent v (l : list CookiecutterVariable) :
  descendants_of parent (v :: l) = (descendants parent v ++ descendants_of parent l)%list.
Proof. reflexivity. Qed.

(** Along an existing path, the update changes one entry of the list of
    descendants and nothing else. *)
Lemma update_path_descendants (parents : list string) (v : pyval) :
  forall self node parent,
    parents <> [] ->
    lookup_path parents self = Some node ->
    exists l1 l2 old,
      descendants_of parent (variables self) =
        (l1 ++ ((parent ++ join "/" parents)%string, old) :: l2)%list /\
      descendants_of parent (variables (update_path parents v self)) =
        (l1 ++ ((parent ++ join "/" parents)%string, v) :: l2)%list.
Proof.
  induction parents as [|first rest IH]; intros self node parent Hne Hlook;
    [contradiction|].
  simpl in Hlook. unfold update_path; fold update_path. unfold get.
  pose proof (find_change_first first (variables self)) as Hsplit.
  destruct (find (fun u => String.eqb (name u) first) (variables self))
    as [child|] eqn:Hfind; [|discriminate].
  destruct Hsplit as [a [b [Hvs [Hname [_ Hchange]]]]].
  destruct rest as [|second rest].
  - unfold set. cbn [variables with_children]. rewrite Hchange, Hvs.
    rewrite !descendants_of_app, !descendants_of_cons.
    rewrite !descendants_unfold. cbn [name value variables with_value].
    rewrite Hname. simpl join.
    exists (descendants_of parent a),
           ((descendants_of ((parent ++ first) ++ "/")%string (variables child)
             ++ descendants_of parent b))%list,
           (value child).
    split; reflexivity.
  - cbn [variables with_children]. rewrite Hchange, Hvs.
    rewrite !descendants_of_app, !descendants_of_cons.
    rewrite !descendants_unfold.
    destruct (update_path_root (second :: rest) v child) as [Hn Hv].
    rewrite Hn, Hv, Hname.
    destruct (IH child node ((parent ++ first) ++ "/") ltac:(discriminate) Hlook)
      as [l1 [l2 [old [Hold Hnew]]]].
    rewrite Hold, Hnew.
    assert (Hkey : ((parent ++ first) ++ "/") ++ join "/" (second :: rest) =
                   parent ++ join "/" (first :: second :: rest)).
    { rewrite join_cons2, !append_assoc'. reflexivity. }
    rewrite Hkey.
    exists (descendants_of parent a ++ ((parent ++ first)%string, value child) :: l1)%list,
           (l2 ++ descendants_of parent b)%list, old.
    split; repeat (rewrite <- app_assoc || rewrite <- app_comm_cons); reflexivity.
Qed.

Lemma last_value_changed_entry k v old (l1 l2 : odict) :
  (forall k', k' <> k ->
     last_value k' (l1 ++ (k, v) :: l2)%list = last_value k' (l1 ++ (k, old) :: l2)%list) /\
  (~ In k (od_keys l2) -> last_value k (l1 ++ (k, v) :: l2)%list = Some v).
Proof.
  split.
  - intros k' Hk'. rewrite !last_value_app. simpl.
    destruct (last_value k' l2); [reflexivity|].
    destruct (String.eqb k k') eqn:E; [|reflexivity].
    apply String.eqb_eq in E. congruence.
  - intros Hnot. rewrite last_value_app. simpl.
    assert (Hl2 : last_value k l2 = None).
    { clear -Hnot. induction l2 as [|[k0 v0] l2 IH]; simpl; [reflexivity|].
      simpl in Hnot. rewrite IH by tauto.
      destruct (String.eqb k0 k) eqn:E; [|reflexivity].
      apply String.eqb_eq in E. tauto. }
    rewrite Hl2, String.eqb_refl. reflexivity.
Qed.

End TreeUpdateRoundTrip.

(** X1.  [set] and [get]: after [set(name, value)] the variable that
    [get(name)] returns is the one it returned before, with the new value;
    what [get] returns under any other name is unchanged; and [set] under a
    name no child has leaves the tree as it was. *)
Theorem set_then_get (self : CookiecutterVariable) (name_ : string) (value_ : pyval) :
  get (set self name_ value_) name_ =
    option_map (fun v => with_value v value_) (get self name_) /\
  (forall other, other <> name_ -> get (set self name_ value_) other = get self other) /\
  (get self name_ = None -> set self name_ value_ = self).
Proof.
  unfold get, set. cbn [variables with_children].
  split; [|split].
  - induction (variables self) as [|v vs IH]; simpl; [reflexivity|].
    destruct (String.eqb (name v) name_) eqn:E; simpl; rewrite E; [reflexivity | exact IH].
  - intros other Hne.
    induction (variables self) as [|v vs IH]; simpl; [reflexivity|].
    destruct (String.eqb (name v) name_) eqn:E; simpl.
    + apply String.eqb_eq in E.
      destruct (String.eqb (name v) other) eqn:Eo; [|reflexivity].
      apply String.eqb_eq in Eo. congruence.
    + rewrite IH. reflexivity.
  - intros Hnone.
    pose proof (find_change_first name_ (variables self)) as Hs.
    rewrite Hnone in Hs. rewrite Hs. apply with_children_same.
Qed.

Lemma set_then_get_witness :
  set (node "" VNone [leaf "a" (VStr "1")]) "b" (VStr "2") =
    node "" VNone [leaf "a" (VStr "1")].
Proof.
  apply (proj2 (proj2 (set_then_get (node "" VNone [leaf "a" (VStr "1")]) "b" (VStr "2")))).
  reflexivity.
Defined.

(** X2.  [update] passes over what it cannot place: an item whose key does not
    lead, name by name, to a descendant leaves the tree as it was, and so
    does a whole mapping of such items. *)
Theorem update_ignores_missing (self : CookiecutterVariable) :
  (forall k v, lookup_path (split "/" k) self = None -> update_item self k v = self) /\
  (forall d,
     (forall k v, In (k, v) d -> lookup_path (split "/" k) self = None) ->
     update self d = self).
Proof.
  assert (Hitem : forall k v, lookup_path (split "/" k) self = None ->
                              update_item self k v = self)
    by (intros k v Hnone; apply update_path_missing; exact Hnone).
  split; [exact Hitem|].
  unfold update. intros d. induction d as [|[k v] d IH]; intros Hall; [reflexivity|].
  simpl. rewrite Hitem by (apply (Hall k v); left; reflexivity).
  apply IH. intros k' v' Hin. apply (Hall k' v'). right. exact Hin.
Qed.

Lemma update_ignores_missing_witness :
  update clash [("zzz", VStr "1"); ("a/zzz", VStr "2"); ("a/b/c", VStr "3")] = clash.
Proof.
  apply (proj2 (update_ignores_missing clash)).
  intros k v [H|[H|[H|[]]]]; inversion H; reflexivity.
Defined.

(** X3.  [update] changes raw values only: with the values forgotten, the tree
    after [update] is the tree before it (same names, prompts, branches,
    [matches] and metadata, in the same order). *)
Theorem update_keeps_shape (self : CookiecutterVariable) (d : odict) :
  erase (update self d) = erase self.
Proof.
  unfold update, update_item. revert self.
  induction d as [|[k v] d IH]; intros self; [reflexivity|].
  simpl. rewrite IH. apply erase_update_path.
Qed.

(** X4.  [update] then [to_cookiecutter_dict]: when the key of an item leads to
    a descendant, the flat dict of the updated tree agrees with the flat
    dict of the old tree on every other key, and, when no two descendants
    share a path, holds the item's value under the key. *)
Theorem update_then_flatten (self node : CookiecutterVariable) (parent k : string)
    (v : pyval) :
  lookup_path (split "/" k) self = Some node ->
  (forall k', k' <> parent ++ k ->
     od_get k' (to_cookiecutter_dict (update_item self k v) parent) =
     od_get k' (to_cookiecutter_dict self parent)) /\
  (distinct (od_keys (descendants_of parent (variables self))) = true ->
   od_get (parent ++ k) (to_cookiecutter_dict (update_item self k v) parent) = Some v).
Proof.
  intros Hlook. unfold update_item.
  destruct (update_path_descendants (split "/" k) v self node parent
              (split_not_nil _ _) Hlook) as [l1 [l2 [old [Hold Hnew]]]].
  rewrite join_split in Hold, Hnew.
  destruct (last_value_changed_entry (parent ++ k) v old l1 l2) as [Hother Hsame].
  split.
  - intros k' Hk'. rewrite !to_cookiecutter_dict_get, Hold, Hnew. apply Hother. exact Hk'.
  - intros Hd. apply distinct_NoDup in Hd. rewrite Hold in Hd.
    rewrite od_keys_app in Hd. apply NoDup_app_iff' in Hd. destruct Hd as [_ [Hd _]].
    simpl in Hd. inversion Hd as [|? ? Hnot _]; subst.
    rewrite to_cookiecutter_dict_get, Hnew. apply Hsame. exact Hnot.
Qed.

Lemma update_then_flatten_witness :
  od_get "kind/other"
    (to_cookiecutter_dict (update_item (node "" VNone [kind]) "kind/other" (VStr "new")) "")
    = Some (VStr "new").
Proof.
  apply (proj2 (update_then_flatten (node "" VNone [kind]) other "" "kind/other"
                  (VStr "new") eq_refl)).
  reflexivity.
Defined.

(* ===================================================================== *)
(** ** Further properties: resolution                                     *)
(* ===================================================================== *)

Section NoInputFacts.
Context {H : Host}.
Variable env : Environment.

Lemma store_own_value_no_input v d prefix name_ :
  exists r : result odict,
    forall c, store_own_value v d env true prefix name_ c = (d' <- r ;; Ok (d', c)).
Proof.
  unfold store_own_value. destruct (value v) as [| b | z | s | options | items] eqn:Ev.
  - exists (val <- render_variable env VNone d ;; Ok (od_set name_ val d)).
    intros c. destruct (render_variable env VNone d); reflexivity.
  - exists (val <- render_variable env (VBool b) d ;; Ok (od_set name_ val d)).
    intros c. cbv iota. destruct (render_variable env (VBool b) d); reflexivity.
  - exists (val <- render_variable env (VInt z) d ;; Ok (od_set name_ val d)).
    intros c. destruct (render_variable env (VInt z) d); reflexivity.
  - exists (val <- render_variable env (VStr s) d ;; Ok (od_set name_ val d)).
    intros c. destruct (render_variable env (VStr s) d); reflexivity.
  - exists (rendered <- mapM (fun raw => render_variable env raw d) options ;;
            o <- getitem (VList rendered) (VInt 0) ;;
            choice <- getitem o (VStr "name") ;;
            Ok (od_set name_ choice d)).
    intros c. unfold prompt_choice_for_config.
    destruct (mapM _ options) as [rendered|e]; [|reflexivity]. cbn [bind].
    destruct (getitem (VList rendered) (VInt 0)) as [o|e]; [|reflexivity]. cbn [bind].
    destruct (getitem o (VStr "name")); reflexivity.
  - exists (Ok d). reflexivity.
Qed.

(** Without input, a call gives the console back as it got it, and what
    it does to the dict does not depend on the console. *)
Lemma get_cookiecutter_values_no_input v :
  forall d prefix parent,
  exists r : result odict,
    forall c, get_cookiecutter_values v d env true prefix parent c =
              (d' <- r ;; Ok (d', c)).
Proof.
  induction v as [n val p vs m md IH] using tree_ind. intros d prefix parent.
  destruct (store_own_value_no_input (mkVariable n val p vs m md) d prefix (parent ++ n))
    as [r0 Hr0].
  destruct r0 as [d1|e].
  - assert (Hloop : forall bs,
      Forall (fun b => forall d prefix parent,
                exists r : result odict,
                  forall c, get_cookiecutter_values b d env true prefix parent c =
                            (d' <- r ;; Ok (d', c))) bs ->
      forall d1, exists r : result odict,
        forall c,
          branches_loop
            (fun b d c => get_cookiecutter_values b d env true prefix
                                                  ((parent ++ n) ++ "/") c)
            (parent ++ n) bs d1 c = (d' <- r ;; Ok (d', c))).
    { clear. induction 1 as [|b bs Hb _ IHbs]; intros d1.
      - exists (Ok d1). reflexivity.
      - cbn [branches_loop]. destruct (od_get (parent ++ n) d1) as [stored|].
        + destruct (py_eq (matches b) stored); [|apply IHbs].
          destruct (Hb d1 prefix ((parent ++ n) ++ "/")) as [[d2|e] Hrb].
          * destruct (IHbs d2) as [r Hr]. exists r. intros c.
            rewrite Hrb. cbn [bind]. apply Hr.
          * exists (Raise e). intros c. rewrite Hrb. reflexivity.
        + exists (Raise KeyError). reflexivity. }
    destruct (Hloop vs IH d1) as [r Hr]. exists r. intros c.
    rewrite get_cookiecutter_values_unfold. cbn [name variables].
    rewrite Hr0. cbn [bind]. apply Hr.
  - exists (Raise e). intros c.
    rewrite get_cookiecutter_values_unfold. cbn [name variables].
    rewrite Hr0. reflexivity.
Qed.

Lemma first_pass_no_input size l : forall d n,
  exists r : result (odict * nat),
    forall c, first_pass env true size l d c n = ('(d', n') <- r ;; Ok (d', c, n')).
Proof.
  induction l as [|v l IH]; intros d n.
  - exists (Ok (d, n)). reflexivity.
  - cbn [first_pass]. destruct (is_private v); [apply IH|].
    destruct (startswith (name v) "__").
    + destruct (render_variable env (value v) d) as [val|e].
      * cbn [bind]. apply IH.
      * exists (Raise e). reflexivity.
    + match goal with
      | |- context [get_cookiecutter_values v d env true ?pre "" _] =>
          destruct (get_cookiecutter_values_no_input v d pre "") as [[d1|e] Hr]
      end.
      * match goal with
        | |- context [first_pass env true size l _ _ ?n1] =>
            destruct (IH d1 n1) as [r Hrest]
        end.
        exists r. intros c. rewrite Hr. cbn [bind reraise_undefined]. apply Hrest.
      * exists (reraise_undefined (name v) (Raise e)). intros c. rewrite Hr.
        cbn [bind]. destruct e; reflexivity.
Qed.

Lemma second_pass_no_input size l : forall d n,
  exists r : result (odict * nat),
    forall c, second_pass env true size l d c n = ('(d', n') <- r ;; Ok (d', c, n')).
Proof.
  induction l as [|v l IH]; intros d n.
  - exists (Ok (d, n)). reflexivity.
  - cbn [second_pass]. destruct (is_private v); [apply IH|].
    destruct (is_dict (value v)); [|apply IH].
    unfold resolve_dict. cbn [negb andb].
    destruct (render_variable env (value v) d) as [val|e].
    + cbn [bind reraise_undefined]. apply IH.
    + exists (reraise_undefined (name v) (Raise e)). intros c.
      cbn [bind]. destruct e; reflexivity.
Qed.

End NoInputFacts.

(** X5.  Without input nothing is asked: [prompt_for_config] hands back the
    console it was given, nothing read and nothing shown, and the resolved
    dict, or the error, is the same whatever the operator would have
    typed. *)
Theorem no_input_never_asks {H : Host} (ctx : context) :
  exists r : result odict,
    forall c, prompt_for_config ctx true c = (d <- r ;; Ok (d, c)).
Proof.
  unfold prompt_for_config.
  destruct (create_env_with_context ctx) as [env|e]; [|exists (Raise e); reflexivity].
  destruct (context_variables ctx) as [vs|e]; [|exists (Raise e); reflexivity].
  cbn [bind].
  set (size := List.length _).
  destruct (first_pass_no_input env size vs [] 0) as [[[d1 n1]|e] Hfirst].
  - destruct (second_pass_no_input env size vs d1 n1) as [[[d2 n2]|e] Hsecond].
    + exists (Ok d2). intros c. rewrite Hfirst. cbn [bind]. rewrite Hsecond. reflexivity.
    + exists (Raise e). intros c. rewrite Hfirst. cbn [bind]. rewrite Hsecond. reflexivity.
  - exists (Raise e). intros c. rewrite Hfirst. reflexivity.
Qed.

Section KeyOriginFacts.
Context {H : Host}.
Variables (env : Environment) (no_input : bool).

Lemma od_keys_set_incl k x d : incl (od_keys (od_set k x d)) (od_keys d ++ [k]).
Proof.
  rewrite od_keys_set. destruct (od_mem k d).
  - apply incl_appl, incl_refl.
  - apply incl_refl.
Qed.

Lemma last_value_of_key k (l : odict) : In k (od_keys l) -> last_value k l <> None.
Proof.
  induction l as [|[k' v] l IH]; simpl; [contradiction|].
  intros [->|Hin].
  - destruct (last_value k l); [discriminate|]. rewrite String.eqb_refl. discriminate.
  - specialize (IH Hin). destruct (last_value k l); [discriminate | contradiction].
Qed.

(** A call writes flat keys of its subtree only. *)
Lemma get_cookiecutter_values_keys v :
  forall d prefix parent c d' c',
    get_cookiecutter_values v d env no_input prefix parent c = Ok (d', c') ->
    incl (od_keys d') (od_keys d ++ od_keys (descendants parent v)).
Proof.
  induction v as [n val p vs m md IH] using tree_ind.
  intros d prefix parent c d' c' Hrun.
  rewrite get_cookiecutter_values_unfold in Hrun.
  rewrite od_keys_descendants. cbn [name variables] in *.
  set (pn := parent ++ n) in *.
  destruct (store_own_value _ d env no_input prefix pn c)
    as [[d1 c1]|e] eqn:Hs; cbn [bind] in Hrun; [|discriminate].
  assert (Hd1 : incl (od_keys d1) (od_keys d ++ [pn])).
  { apply store_own_value_shape in Hs. cbn [value] in Hs.
    destruct (is_dict val).
    - destruct Hs as [-> _]. apply incl_appl, incl_refl.
    - destruct Hs as [x ->]. apply od_keys_set_incl. }
  clear Hs.
  assert (Hloop : forall bs,
    Forall (fun b => forall d prefix parent c d' c',
              get_cookiecutter_values b d env no_input prefix parent c = Ok (d', c') ->
              incl (od_keys d') (od_keys d ++ od_keys (descendants parent b))) bs ->
    forall d1 c1,
      branches_loop
        (fun b d c => get_cookiecutter_values b d env no_input prefix (pn ++ "/") c)
        pn bs d1 c1 = Ok (d', c') ->
      incl (od_keys d') (od_keys d1 ++ od_keys (descendants_of (pn ++ "/") bs))).
  { clear. induction 1 as [|b bs Hb _ IHbs]; intros d1 c1 Hrun; cbn [branches_loop] in Hrun.
    - inversion Hrun; subst. apply incl_appl, incl_refl.
    - rewrite od_keys_descendants_of.
      destruct (od_get pn d1) as [stored|]; [|discriminate].
      destruct (py_eq (matches b) stored).
      + destruct (get_cookiecutter_values b d1 env no_input prefix _ c1)
          as [[d2 c2]|e] eqn:Hb2; cbn [bind] in Hrun; [|discriminate].
        apply Hb in Hb2. apply IHbs in Hrun.
        intros k Hk. apply Hrun in Hk. apply in_app_or in Hk.
        destruct Hk as [Hk|Hk].
        * apply Hb2 in Hk. apply in_app_or in Hk. destruct Hk as [Hk|Hk];
            apply in_or_app; [left; exact Hk | right; apply in_or_app; left; exact Hk].
        * apply in_or_app. right. apply in_or_app. right. exact Hk.
      + apply IHbs in Hrun. intros k Hk. apply Hrun in Hk. apply in_app_or in Hk.
        destruct Hk as [Hk|Hk]; apply in_or_app;
          [left; exact Hk | right; apply in_or_app; right; exact Hk]. }
  apply (Hloop vs IH) in Hrun.
  intros k Hk. apply Hrun in Hk. apply in_app_or in Hk. destruct Hk as [Hk|Hk].
  - apply Hd1 in Hk. apply in_app_or in Hk. destruct Hk as [Hk|[<-|[]]];
      apply in_or_app; [left; exact Hk | right; left; reflexivity].
  - apply in_or_app. right. right. exact Hk.
Qed.

Lemma first_pass_keys size l : forall d c n d' c' n',
  first_pass env no_input size l d c n = Ok (d', c', n') ->
  incl (od_keys d') (od_keys d ++ od_keys (descendants_of "" l)).
Proof.
  induction l as [|v l IH]; intros d c n d' c' n' Hrun; cbn [first_pass] in Hrun.
  - inversion Hrun; subst. apply incl_appl, incl_refl.
  - rewrite od_keys_descendants_of.
    assert (Hname : In (name v) (od_keys (descendants "" v)))
      by (rewrite od_keys_descendants; left; reflexivity).
    assert (Hstep : forall d1 c1 n1,
      incl (od_keys d1) (od_keys d ++ od_keys (descendants "" v)) ->
      first_pass env no_input size l d1 c1 n1 = Ok (d', c', n') ->
      incl (od_keys d')
           (od_keys d ++ od_keys (descendants "" v) ++ od_keys (descendants_of "" l))).
    { intros d1 c1 n1 Hd1 Hrest. apply IH in Hrest.
      intros k Hk. apply Hrest in Hk. apply in_app_or in Hk. destruct Hk as [Hk|Hk].
      - apply Hd1 in Hk. apply in_app_or in Hk. destruct Hk as [Hk|Hk];
          apply in_or_app; [left; exact Hk | right; apply in_or_app; left; exact Hk].
      - apply in_or_app. right. apply in_or_app. right. exact Hk. }
    assert (Hset : forall x,
      incl (od_keys (od_set (name v) x d)) (od_keys d ++ od_keys (descendants "" v))).
    { intros x k Hk. apply od_keys_set_incl in Hk. apply in_app_or in Hk.
      destruct Hk as [Hk|[<-|[]]]; apply in_or_app; [left; exact Hk | right; exact Hname]. }
    destruct (is_private v); [eapply Hstep; [apply Hset | exact Hrun]|].
    destruct (startswith (name v) "__").
    + destruct (render_variable env (value v) d) as [val|e]; cbn [bind] in Hrun;
        [|discriminate].
      eapply Hstep; [apply Hset | exact Hrun].
    + destruct (reraise_undefined _ _) as [[d1 c1]|e] eqn:Hv; cbn [bind] in Hrun;
        [|discriminate].
      apply reraise_undefined_ok, get_cookiecutter_values_keys in Hv.
      eapply Hstep; [exact Hv | exact Hrun].
Qed.

Lemma second_pass_keys size l : forall d c n d' c' n',
  second_pass env no_input size l d c n = Ok (d', c', n') ->
  incl (od_keys d') (od_keys d ++ map name l).
Proof.
  induction l as [|v l IH]; intros d c n d' c' n' Hrun; cbn [second_pass] in Hrun.
  - inversion Hrun; subst. apply incl_appl, incl_refl.
  - assert (Hskip : forall c1 n1,
      second_pass env no_input size l d c1 n1 = Ok (d', c', n') ->
      incl (od_keys d') (od_keys d ++ map name (v :: l))).
    { intros c1 n1 Hrest. apply IH in Hrest. intros k Hk. apply Hrest in Hk.
      apply in_app_or in Hk. destruct Hk as [Hk|Hk]; apply in_or_app;
        [left; exact Hk | right; right; exact Hk]. }
    destruct (is_private v); [eapply Hskip; exact Hrun|].
    destruct (is_dict (value v)); [|eapply Hskip; exact Hrun].
    destruct (reraise_undefined _ _) as [[[d1 c1] n1]|e] eqn:Hv; cbn [bind] in Hrun;
      [|discriminate].
    apply reraise_undefined_ok, resolve_dict_shape in Hv. destruct Hv as [val [-> _]].
    apply IH in Hrun. intros k Hk. apply Hrun in Hk. apply in_app_or in Hk.
    destruct Hk as [Hk|Hk].
    + apply od_keys_set_incl in Hk. apply in_app_or in Hk.
      destruct Hk as [Hk|[<-|[]]]; apply in_or_app;
        [left; exact Hk | right; left; reflexivity].
    + apply in_or_app. right. right. exact Hk.
Qed.

Lemma names_are_descendants (l : list CookiecutterVariable) :
  incl (map name l) (od_keys (descendants_of "" l)).
Proof.
  induction l as [|v l IH]; [apply incl_refl|].
  rewrite od_keys_descendants_of, od_keys_descendants. cbn [map].
  intros k [<-|Hk]; [left; reflexivity|].
  right. apply in_or_app. right. apply IH. exact Hk.
Qed.

End KeyOriginFacts.

(** X6.  Resolution invents no key: every key of the resolved dict is a key of
    the flat dict that [to_cookiecutter_dict] makes of the same tree. *)
Theorem resolved_keys_are_flat_keys {H : Host} (ctx : context) (no_input : bool)
    (c c' : console) (root : CookiecutterVariable) (d : odict) :
  context_get (VStr "cookiecutter") ctx = Some (Tree root) ->
  prompt_for_config ctx no_input c = Ok (d, c') ->
  incl (od_keys d) (od_keys (to_cookiecutter_dict root "")).
Proof.
  intros Hroot Hrun. unfold prompt_for_config, context_variables in Hrun.
  rewrite Hroot in Hrun.
  destruct (create_env_with_context ctx) as [env|e]; cbn [bind] in Hrun; [|discriminate].
  set (size := List.length _) in Hrun.
  destruct (first_pass env no_input size (variables root) [] c 0)
    as [[[d1 c1] n1]|e] eqn:Hfirst; cbn [bind] in Hrun; [|discriminate].
  destruct (second_pass env no_input size (variables root) d1 c1 n1)
    as [[[d2 c2] n2]|e] eqn:Hsecond; cbn [bind] in Hrun; [|discriminate].
  inversion Hrun; subst d2 c2; clear Hrun.
  apply first_pass_keys in Hfirst. apply second_pass_keys in Hsecond.
  assert (Hdesc : incl (od_keys d) (od_keys (descendants_of "" (variables root)))).
  { intros k Hk. apply Hsecond in Hk. apply in_app_or in Hk. destruct Hk as [Hk|Hk].
    - apply Hfirst in Hk. exact Hk.
    - apply names_are_descendants. exact Hk. }
  intros k Hk. apply Hdesc in Hk. apply last_value_of_key in Hk.
  rewrite <- to_cookiecutter_dict_get in Hk.
  destruct (In_dec string_dec k (od_keys (to_cookiecutter_dict root ""))) as [Hin|Hnot];
    [exact Hin|].
  apply od_get_none_not_key in Hnot. contradiction.
Qed.

Lemma resolved_keys_are_flat_keys_witness :
  incl (od_keys [("kind", VStr "x"); ("kind/_secret", VStr "x")])
       (od_keys (to_cookiecutter_dict (node "" VNone [kind]) "")).
Proof.
  apply (resolved_keys_are_flat_keys (H := toy_host) (root_of [kind]) true quiet quiet
           (node "" VNone [kind]) _ eq_refl eq_refl).
Defined.

Section ErrorFacts.
Context {H : Host}.
Variables (env : Environment) (no_input : bool) (size : nat).




Lemma first_pass_count l : forall d c n d' c' n',
  first_pass env no_input size l d c n = Ok (d', c', n') ->
  n' = n + List.length
             (filter (fun v => negb (is_private v) && negb (startswith (name v) "__")
                               && negb (is_dict (value v))) l).
Proof.
  induction l as [|v l IH]; intros d c n d' c' n' Hrun; cbn [first_pass] in Hrun.
  - inversion Hrun; subst. simpl. lia.
  - cbn [filter]. destruct (is_private v); cbn [negb andb]; [eapply IH; exact Hrun|].
    destruct (startswith (name v) "__"); cbn [negb andb].
    + destruct (render_variable env (value v) d); cbn [bind] in Hrun; [|discriminate].
      eapply IH; exact Hrun.
    + destruct (reraise_undefined _ _) as [[d1 c1]|e]; cbn [bind] in Hrun; [|discriminate].
      apply IH in Hrun. destruct (is_dict (value v)); cbn [negb List.length] in *; lia.
Qed.

Lemma second_pass_count l : forall d c n d' c' n',
  second_pass env no_input size l d c n = Ok (d', c', n') ->
  n' = n + List.length (filter (fun v => negb (is_private v) && is_dict (value v)) l).
Proof.
  induction l as [|v l IH]; intros d c n d' c' n' Hrun; cbn [second_pass] in Hrun.
  - inversion Hrun; subst. simpl. lia.
  - cbn [filter]. destruct (is_private v); cbn [negb andb]; [eapply IH; exact Hrun|].
    destruct (is_dict (value v)); [|eapply IH; exact Hrun].
    destruct (reraise_undefined _ _) as [[[d1 c1] n1]|e] eqn:Hv; cbn [bind] in Hrun;
      [|discriminate].
    apply reraise_undefined_ok, resolve_dict_shape in Hv. destruct Hv as [_ [_ ->]].
    apply IH in Hrun. cbn [List.length]. lia.
Qed.

Lemma counted_once (l : list CookiecutterVariable) :
  List.length (filter (fun v => negb (is_private v) && negb (startswith (name v) "__")
                                && negb (is_dict (value v))) l)
  + List.length (filter (fun v => negb (is_private v) && is_dict (value v)) l)
  = List.length (filter (fun v => negb (startswith (name v) "_")) l)
    + List.length (filter (fun v => startswith (name v) "__" && is_dict (value v)) l).
Proof.
  induction l as [|v l IH]; [reflexivity|].
  cbn [filter].
  assert (Hp : is_private v = startswith (name v) "_" && negb (startswith (name v) "__"))
    by reflexivity.
  rewrite !Hp. clear Hp.
  destruct (startswith (name v) "__") eqn:Hd.
  - assert (Hm : startswith (name v) "_" = true)
      by (unfold startswith in *; apply (prefix_app_left "_" "_"); exact Hd).
    rewrite Hm. destruct (is_dict (value v)); cbn [negb andb List.length]; lia.
  - destruct (startswith (name v) "_"); destruct (is_dict (value v));
      cbn [negb andb List.length]; lia.
Qed.

End ErrorFacts.



(** X8.  The counter shown as [[count/size]]: after both loops it has gone up
    by one for every top-level variable whose name does not begin with the
    marker, which is [size], and by one more for every dict-valued variable
    under a double marker, which [size] does not count. *)
Theorem progress_counter {H : Host} (env : Environment) (no_input : bool) (size : nat)
    (vs : list CookiecutterVariable) (d d1 d2 : odict) (c c1 c2 : console)
    (n n1 n2 : nat) :
  first_pass env no_input size vs d c n = Ok (d1, c1, n1) ->
  second_pass env no_input size vs d1 c1 n1 = Ok (d2, c2, n2) ->
  n2 = n + List.length (filter (fun v => negb (startswith (name v) "_")) vs)
         + List.length (filter (fun v => startswith (name v) "__" && is_dict (value v)) vs).
Proof.
  intros Hfirst Hsecond.
  apply first_pass_count in Hfirst. apply second_pass_count in Hsecond.
  pose proof (counted_once vs). lia.
Qed.

Lemma progress_counter_witness :
  2 = 0 + List.length (filter (fun v => negb (startswith (name v) "_"))
                              [leaf "__meta" (VDict [(VStr "k", VStr "?later")]);
                               leaf "later" (VStr "L")])
        + List.length (filter (fun v => startswith (name v) "__" && is_dict (value v))
                              [leaf "__meta" (VDict [(VStr "k", VStr "?later")]);
                               leaf "later" (VStr "L")]).
Proof.
  apply (progress_counter (H := toy_host) tt true 1
           [leaf "__meta" (VDict [(VStr "k", VStr "?later")]); leaf "later" (VStr "L")]
           [] [("__meta", VDict [(VStr "k", VStr "no")]); ("later", VStr "L")]
           [("__meta", VDict [(VStr "k", VStr "yes")]); ("later", VStr "L")]
           quiet quiet quiet 0 1 2); reflexivity.
Defined.

(** X9.  A choice variable with no options: without input the first option is
    asked of an empty list ([IndexError]); with input [read_user_choice]
    refuses the empty list ([ValueError]) before it asks. *)
Theorem empty_choice_list {H : Host} (v : CookiecutterVariable) (d : odict)
    (env : Environment) (prefix parent : string) (c : console) :
  value v = VList [] ->
  get_cookiecutter_values v d env true prefix parent c = Raise IndexError /\
  get_cookiecutter_values v d env false prefix parent c = Raise (ValueError "").
Proof.
  intros Hv. rewrite !get_cookiecutter_values_unfold. unfold store_own_value.
  rewrite Hv. split; reflexivity.
Qed.

Lemma empty_choice_list_witness :
  get_cookiecutter_values (H := toy_host) (leaf "kind" (VList [])) [] tt true "" "" quiet
    = Raise IndexError /\
  get_cookiecutter_values (H := toy_host) (leaf "kind" (VList [])) [] tt false "" ""
                          (mkConsole ["1"] []) = Raise (ValueError "").
Proof.
  split; apply (empty_choice_list (H := toy_host) (leaf "kind" (VList [])) [] tt "" "");
    reflexivity.
Defined.

(* ===================================================================== *)
(** ** Further properties: asking the operator                            *)
(* ===================================================================== *)

Section AskFacts.
Context {H : Host}.

(** What an answer is: the default, or what [process_response] made of a
    line that was typed. *)
Lemma ask_from_source {A : Type} (process_response : string -> result A)
    (text : string) (default : A) (input : list string) :
  forall shown a c',
    ask_from process_response text default input shown = Ok (a, c') ->
    a = default \/ exists line, In line input /\ process_response line = Ok a.
Proof.
  induction input as [|line rest IH]; intros shown a c' Hask; simpl in Hask;
    [discriminate|].
  destruct (String.eqb line "").
  - inversion Hask; subst. left; reflexivity.
  - destruct (process_response line) as [x|e] eqn:Hp.
    + inversion Hask; subst. right. exists line. split; [left; reflexivity | exact Hp].
    + destruct e; try discriminate. apply IH in Hask.
      destruct Hask as [->|[l [Hin Hl]]]; [left; reflexivity|].
      right. exists l. split; [right; exact Hin | exact Hl].
Qed.

Lemma read_user_variable_loop_result (text : string) (default_value : pyval) :
  forall fuel c v c',
    read_user_variable_loop fuel text default_value c = Ok (v, c') ->
    is_none v = false /\ List.length (stdin c') < List.length (stdin c).
Proof.
  induction fuel as [|fuel IH]; intros c v c' Hrun; simpl in Hrun; [discriminate|].
  destruct (Prompt_ask from_markup text default_value c) as [[variable c1]|e] eqn:Hask;
    cbn [bind] in Hrun; [|discriminate].
  unfold Prompt_ask in Hask. apply ask_ok in Hask.
  destruct Hask as [shown_ [_ Hask]]. apply ask_from_consumes in Hask.
  destruct (is_none variable) eqn:En; cbn [negb] in Hrun.
  - apply IH in Hrun. destruct Hrun as [Hv Hlen]. split; [exact Hv | lia].
  - inversion Hrun; subst. split; [exact En | exact Hask].
Qed.

Lemma in_existsb_eqb (s : string) (l : list string) :
  existsb (String.eqb s) l = true <-> In s l.
Proof.
  rewrite existsb_exists. split.
  - intros [x [Hin Heq]]. apply String.eqb_eq in Heq. subst. exact Hin.
  - intros Hin. exists s. split; [exact Hin | apply String.eqb_refl].
Qed.

End AskFacts.

(** X10.  [read_user_variable] never returns [None], and it reads at least one
    line: with a default of [None] an empty line is asked again. *)
Theorem read_user_variable_not_none {H : Host} (var_name : string)
    (default_value prompts : pyval) (prefix : string) (c c' : console) (v : pyval) :
  read_user_variable var_name default_value prompts prefix c = Ok (v, c') ->
  is_none v = false /\ List.length (stdin c') < List.length (stdin c).
Proof.
  unfold read_user_variable. intros Hrun.
  destruct (question_of var_name prompts); cbn [bind] in Hrun; [|discriminate].
  eapply read_user_variable_loop_result. exact Hrun.
Qed.

Lemma read_user_variable_not_none_witness :
  is_none (VStr "typed") = false /\
  List.length (stdin (mkConsole ["after"] ["name"; "name"; "name"]))
    < List.length (stdin (mkConsole [""; ""; "typed"; "after"] [])).
Proof.
  apply (read_user_variable_not_none (H := toy_host) "name" VNone VNone ""
           (mkConsole [""; ""; "typed"; "after"] [])
           (mkConsole ["after"] ["name"; "name"; "name"]) (VStr "typed")).
  reflexivity.
Defined.

(** X11.  [read_user_dict] returns a dict or nothing: the default, which it
    has checked to be one, or a typed line that [json.loads] decoded to a
    dict. *)
Theorem read_user_dict_returns_dict {H : Host} (var_name : string)
    (default_value prompts : pyval) (prefix : string) (c c' : console) (v : pyval) :
  read_user_dict var_name default_value prompts prefix c = Ok (v, c') ->
  is_dict v = true /\
  (v = default_value \/
   exists line, In line (stdin c) /\ json_loads line = Ok v).
Proof.
  unfold read_user_dict. intros Hrun.
  destruct (is_dict default_value) eqn:Hd; cbn [negb] in Hrun; [|discriminate].
  destruct (question_of var_name prompts); cbn [bind] in Hrun; [|discriminate].
  apply ask_ok in Hrun. destruct Hrun as [shown_ [_ Hrun]].
  apply ask_from_source in Hrun.
  destruct Hrun as [->|[line [Hin Hline]]].
  - split; [exact Hd | left; reflexivity].
  - unfold process_json in Hline.
    destruct (json_loads line) as [user_dict|e] eqn:Hj; [|discriminate].
    destruct (is_dict user_dict) eqn:Hu; cbn [negb] in Hline; [|discriminate].
    inversion Hline; subst. split; [exact Hu|].
    right. exists line. split; [exact Hin | exact Hj].
Qed.

Lemma read_user_dict_returns_dict_witness :
  is_dict (VDict [(VStr "a", VStr "b")]) = true /\
  (VDict [(VStr "a", VStr "b")] = VDict [(VStr "a", VStr "b")] \/
   exists line, In line ["not json"; ""] /\
                json_loads (Host := toy_host) line = Ok (VDict [(VStr "a", VStr "b")])).
Proof.
  apply (read_user_dict_returns_dict (H := toy_host) "files"
           (VDict [(VStr "a", VStr "b")]) VNone "" (mkConsole ["not json"; ""] [])
           (mkConsole [] ["files [cyan bold](default)[/]"; "files [cyan bold](default)[/]"])).
  reflexivity.
Defined.

Section StripFacts.

Lemma is_space_lower (c : ascii) : is_space (lower_ascii c) = is_space c.
Proof. destruct c as [[] [] [] [] [] [] [] []]; reflexivity. Qed.

Lemma lower_ascii_twice (c : ascii) : lower_ascii (lower_ascii c) = lower_ascii c.
Proof. destruct c as [[] [] [] [] [] [] [] []]; reflexivity. Qed.

Lemma lower_twice (s : string) : lower (lower s) = lower s.
Proof.
  induction s as [|c s IH]; [reflexivity|].
  cbn [lower]. rewrite lower_ascii_twice, IH. reflexivity.
Qed.

Lemma lower_lstrip (s : string) : lower (lstrip s) = lstrip (lower s).
Proof.
  induction s as [|c s IH]; [reflexivity|].
  cbn [lstrip lower]. rewrite is_space_lower.
  destruct (is_space c); [exact IH | reflexivity].
Qed.

Lemma lower_rev_string (s : string) : forall acc,
  lower (rev_string s acc) = rev_string (lower s) (lower acc).
Proof.
  induction s as [|c s IH]; intros acc; [reflexivity|].
  cbn [rev_string lower]. rewrite IH. reflexivity.
Qed.

Lemma lower_strip (s : string) : lower (strip s) = strip (lower s).
Proof.
  unfold strip. rewrite lower_rev_string, lower_lstrip, lower_rev_string, lower_lstrip.
  reflexivity.
Qed.

Lemma rev_string_acc (s : string) : forall acc,
  rev_string s acc = rev_string s "" ++ acc.
Proof.
  induction s as [|c s IH]; intros acc; [reflexivity|].
  cbn [rev_string]. rewrite IH, (IH (String c "")), append_assoc'. reflexivity.
Qed.

Lemma rev_string_app (a b : string) :
  rev_string (a ++ b) "" = rev_string b "" ++ rev_string a "".
Proof.
  induction a as [|c a IH]; cbn [append rev_string].
  - induction (rev_string b "") as [|c r IHr]; [reflexivity|].
    simpl. rewrite <- IHr. reflexivity.
  - rewrite rev_string_acc, IH, (rev_string_acc a (String c "")), append_assoc'.
    reflexivity.
Qed.

Lemma blank_app (a b : string) : blank (a ++ b) = blank a && blank b.
Proof.
  induction a as [|c a IH]; simpl; [reflexivity|].
  rewrite IH, andb_assoc. reflexivity.
Qed.

Lemma blank_rev_string (s : string) : blank (rev_string s "") = blank s.
Proof.
  induction s as [|c s IH]; [reflexivity|].
  cbn [rev_string]. rewrite rev_string_acc, blank_app, IH. simpl.
  rewrite andb_true_r, andb_comm. reflexivity.
Qed.

Lemma lstrip_blank_app (lead s : string) :
  blank lead = true -> lstrip (lead ++ s) = lstrip s.
Proof.
  induction lead as [|c lead IH]; simpl; intros Hb; [reflexivity|].
  apply andb_true_iff in Hb. destruct Hb as [Hc Hb]. rewrite Hc. apply IH. exact Hb.
Qed.

Lemma lstrip_blank (s : string) : blank s = true -> lstrip s = "".
Proof.
  induction s as [|c s IH]; simpl; intros Hb; [reflexivity|].
  apply andb_true_iff in Hb. destruct Hb as [Hc Hb]. rewrite Hc. apply IH. exact Hb.
Qed.

Lemma lstrip_app (v t : string) :
  lstrip (v ++ t) = match lstrip v with
                    | EmptyString => lstrip t
                    | String c w => String c w ++ t
                    end.
Proof.
  induction v as [|c v IH]; cbn [append lstrip].
  - reflexivity.
  - destruct (is_space c); [exact IH | reflexivity].
Qed.

(** White space around a text does not change what [strip] makes of it. *)
Lemma strip_padded (lead value trail : string) :
  blank lead = true -> blank trail = true ->
  strip (lead ++ value ++ trail) = strip value.
Proof.
  intros Hlead Htrail. unfold strip.
  rewrite (lstrip_blank_app lead _ Hlead), lstrip_app.
  destruct (lstrip value) as [|c w] eqn:Hv.
  - rewrite (lstrip_blank trail Htrail). reflexivity.
  - rewrite rev_string_app, lstrip_blank_app
      by (rewrite blank_rev_string; exact Htrail).
    reflexivity.
Qed.

End StripFacts.

(** X12.  [YesNoPrompt.process_response] and [read_user_yes_no]: a line is
    accepted exactly when, trimmed and in lower case, it is one of the
    twelve tokens, and it is true exactly for the six yes tokens; what
    [read_user_yes_no] returns is the default or the boolean of a line that
    was typed, so a line that is not a token is never returned; and neither
    the case of a line nor white space around it changes how it is read. *)
Theorem yes_no_answers {H : Host} :
  (forall value b,
     YesNoPrompt_process_response value = Ok b <->
     (b = true /\ In (lower (strip value)) yes_choices) \/
     (b = false /\ In (lower (strip value)) no_choices)) /\
  (forall var_name default_value prompts prefix c v c',
     read_user_yes_no var_name default_value prompts prefix c = Ok (v, c') ->
     v = default_value \/
     exists line b,
       In line (stdin c) /\ v = VBool b /\
       In (lower (strip line)) (if b then yes_choices else no_choices)) /\
  (forall value,
     YesNoPrompt_process_response (lower value) = YesNoPrompt_process_response value) /\
  (forall lead value trail,
     blank lead = true -> blank trail = true ->
     YesNoPrompt_process_response (lead ++ value ++ trail) =
     YesNoPrompt_process_response value).
Proof.
  assert (Hdisjoint : forall s, In s yes_choices -> In s no_choices -> False).
  { intros s Hy Hn. simpl in Hy, Hn.
    repeat (destruct Hy as [Hy|Hy]; [subst s;
              repeat (destruct Hn as [Hn|Hn]; [discriminate|]); exact Hn|]).
    exact Hy. }
  assert (Htoken : forall value b,
     YesNoPrompt_process_response value = Ok b <->
     (b = true /\ In (lower (strip value)) yes_choices) \/
     (b = false /\ In (lower (strip value)) no_choices)).
  { intros value b. unfold YesNoPrompt_process_response.
    destruct (existsb (String.eqb (lower (strip value))) yes_choices) eqn:Ey.
    - apply in_existsb_eqb in Ey. split.
      + intros Hok. inversion Hok. left. split; [reflexivity | exact Ey].
      + intros [[-> _]|[_ Hn]]; [reflexivity|]. exfalso. eapply Hdisjoint; eauto.
    - destruct (existsb (String.eqb (lower (strip value))) no_choices) eqn:En.
      + apply in_existsb_eqb in En. split.
        * intros Hok. inversion Hok. right. split; [reflexivity | exact En].
        * intros [[_ Hy]|[-> _]]; [|reflexivity].
          apply in_existsb_eqb in Hy. congruence.
      + split; [discriminate|].
        intros [[_ Hy]|[_ Hn]]; apply in_existsb_eqb in Hy || apply in_existsb_eqb in Hn;
          congruence. }
  split; [exact Htoken|]. split; [|split].
  2: { intros value. unfold YesNoPrompt_process_response.
       rewrite <- lower_strip, lower_twice. reflexivity. }
  2: { intros lead value trail Hlead Htrail. unfold YesNoPrompt_process_response.
       rewrite strip_padded by assumption. reflexivity. }
  intros var_name default_value prompts prefix c v c' Hrun.
  unfold read_user_yes_no in Hrun.
  destruct (question_of var_name prompts); cbn [bind] in Hrun; [|discriminate].
  apply ask_ok in Hrun. destruct Hrun as [shown_ [_ Hrun]].
  apply ask_from_source in Hrun.
  destruct Hrun as [->|[line [Hin Hline]]]; [left; reflexivity|].
  right. destruct (YesNoPrompt_process_response line) as [b|e] eqn:Hp; [|discriminate].
  inversion Hline; subst. exists line, b. split; [exact Hin|]. split; [reflexivity|].
  apply Htoken in Hp. destruct Hp as [[-> Hy]|[-> Hn]]; assumption.
Qed.

Lemma yes_no_answers_witness :
  VBool true = VBool false \/
  exists line b,
    In line ["maybe"; " On "] /\ VBool true = VBool b /\
    In (lower (strip line)) (if b then yes_choices else no_choices).
Proof.
  apply (proj1 (proj2 (yes_no_answers (H := toy_host)))
               "use_docker" (VBool false) VNone ""
               (mkConsole ["maybe"; " On "] [])
               (VBool true) (mkConsole [] ["use_docker"; "use_docker"])).
  reflexivity.
Defined.

(** X13.  [read_user_choice] returns one of the options it was given, and an
    empty line selects the first of them. *)
Theorem read_user_choice_returns_option {H : Host} (var_name : string)
    (options prompts : pyval) (prefix : string) (c c' : console) (val : pyval) :
  read_user_choice var_name options prompts prefix c = Ok (val, c') ->
  exists opts,
    iter options = Ok opts /\ In val opts /\
    (forall rest, stdin c = "" :: rest -> nth_error opts 0 = Some val /\ stdin c' = rest).
Proof.
  intros Hrun.
  destruct (read_user_choice_member _ _ _ _ _ _ _ Hrun) as [opts [Hiter Hin]].
  exists opts. split; [exact Hiter|]. split; [exact Hin|].
  intros rest Hstdin. unfold read_user_choice in Hrun.
  destruct (negb (truthy options)); [discriminate|].
  rewrite Hiter in Hrun. cbn [bind] in Hrun.
  apply bind_ok in Hrun. destruct Hrun as [names [_ Hrun]].
  apply bind_ok in Hrun. destruct Hrun as [[question choice_lines] [_ Hrun]].
  cbn beta iota in Hrun.
  apply bind_ok in Hrun. destruct Hrun as [lines [_ Hrun]].
  apply bind_ok in Hrun. destruct Hrun as [[user_choice c2] [Hask Hrun]].
  cbn beta iota in Hrun.
  unfold Prompt_ask_choices in Hask. apply ask_ok in Hask.
  destruct Hask as [shown_ [_ Hask]]. rewrite Hstdin in Hask. cbn in Hask.
  inversion Hask; subst user_choice c2; clear Hask.
  destruct opts as [|o opts]; [discriminate|].
  cbn in Hrun. inversion Hrun; subst. split; reflexivity.
Qed.

Lemma read_user_choice_returns_option_witness :
  exists opts,
    iter (VList [VDict [(VStr "name", VStr "red")]; VDict [(VStr "name", VStr "blue")]])
      = Ok opts /\
    In (VDict [(VStr "name", VStr "red")]) opts /\
    (forall rest, stdin (mkConsole [""; "later"] []) = "" :: rest ->
                  nth_error opts 0 = Some (VDict [(VStr "name", VStr "red")]) /\
                  ["later"] = rest).
Proof.
  destruct (read_user_choice_returns_option (H := toy_host) "color"
              (VList [VDict [(VStr "name", VStr "red")]; VDict [(VStr "name", VStr "blue")]])
              VNone "" (mkConsole [""; "later"] [])
              (snd (match read_user_choice (H := toy_host) "color"
                            (VList [VDict [(VStr "name", VStr "red")];
                                    VDict [(VStr "name", VStr "blue")]])
                            VNone "" (mkConsole [""; "later"] []) with
                    | Ok r => r | Raise _ => (VNone, quiet) end))
              (VDict [(VStr "name", VStr "red")]) eq_refl)
    as [opts [Hiter [Hin Hfirst]]].
  exists opts. split; [exact Hiter|]. split; [exact Hin|].
  intros rest Hrest. destruct (Hfirst rest Hrest) as [Hnth Hc]. split; [exact Hnth|].
  exact Hc.
Defined.

(* ===================================================================== *)
(** ** Further properties: collecting names, deleting a download          *)
(* ===================================================================== *)

Section CollectFacts.
Context {H : Host}.

(** The lines an answer used up, and where the answer came from. *)
Lemma ask_from_split {A : Type} (process_response : string -> result A)
    (text : string) (default : A) (input : list string) :
  forall shown a c',
    ask_from process_response text default input shown = Ok (a, c') ->
    exists used,
      input = (used ++ stdin c')%list /\ 1 <= List.length used /\
      (a = default \/ exists line, In line used /\ process_response line = Ok a).
Proof.
  induction input as [|line rest IH]; intros shown a c' Hask; simpl in Hask;
    [discriminate|].
  destruct (String.eqb line "").
  - inversion Hask; subst. exists [line]. simpl. repeat split; [lia | left; reflexivity].
  - destruct (process_response line) as [x|e] eqn:Hp.
    + inversion Hask; subst. exists [line]. simpl. repeat split; [lia|].
      right. exists line. split; [left; reflexivity | exact Hp].
    + destruct e; try discriminate. apply IH in Hask.
      destruct Hask as [used [Hin [Hlen Hfrom]]].
      exists (line :: used). simpl. rewrite <- Hin. repeat split; [lia|].
      destruct Hfrom as [->|[l [Hl Hpl]]]; [left; reflexivity|].
      right. exists l. split; [right; exact Hl | exact Hpl].
Qed.

Lemma read_user_variable_loop_split (text : string) (default_value : pyval) :
  forall fuel c v c',
    read_user_variable_loop fuel text default_value c = Ok (v, c') ->
    exists used,
      stdin c = (used ++ stdin c')%list /\ 1 <= List.length used /\
      (v = default_value \/ exists line, In line used /\ v = VStr (strip line)).
Proof.
  induction fuel as [|fuel IH]; intros c v c' Hrun; simpl in Hrun; [discriminate|].
  destruct (Prompt_ask from_markup text default_value c) as [[variable c1]|e] eqn:Hask;
    cbn [bind] in Hrun; [|discriminate].
  unfold Prompt_ask in Hask. apply ask_ok in Hask.
  destruct Hask as [shown_ [_ Hask]]. apply ask_from_split in Hask.
  destruct Hask as [used [Hin [Hlen Hfrom]]].
  destruct (is_none variable) eqn:En; cbn [negb] in Hrun.
  - apply IH in Hrun. destruct Hrun as [used2 [Hin2 [Hlen2 Hfrom2]]].
    exists (used ++ used2)%list. rewrite <- app_assoc, <- Hin2, <- Hin, length_app.
    repeat split; [lia|].
    destruct Hfrom2 as [->|[l [Hl Hv]]]; [left; reflexivity|].
    right. exists l. split; [apply in_or_app; right; exact Hl | exact Hv].
  - inversion Hrun; subst. exists used. repeat split; [exact Hin | exact Hlen |].
    destruct Hfrom as [->|[l [Hl Hv]]]; [left; reflexivity|].
    right. exists l. split; [exact Hl|]. inversion Hv. reflexivity.
Qed.

Lemma read_user_variable_split (var_name : string) (default_value prompts : pyval)
    (prefix : string) (c c' : console) (v : pyval) :
  read_user_variable var_name default_value prompts prefix c = Ok (v, c') ->
  exists used,
    stdin c = (used ++ stdin c')%list /\ 1 <= List.length used /\
    (v = default_value \/ exists line, In line used /\ v = VStr (strip line)).
Proof.
  unfold read_user_variable. intros Hrun.
  destruct (question_of var_name prompts); cbn [bind] in Hrun; [|discriminate].
  eapply read_user_variable_loop_split. exact Hrun.
Qed.

Lemma read_user_yes_no_split (var_name : string) (default_value prompts : pyval)
    (prefix : string) (c c' : console) (v : pyval) :
  read_user_yes_no var_name default_value prompts prefix c = Ok (v, c') ->
  exists used, stdin c = (used ++ stdin c')%list /\ 1 <= List.length used.
Proof.
  unfold read_user_yes_no. intros Hrun.
  destruct (question_of var_name prompts); cbn [bind] in Hrun; [|discriminate].
  apply ask_ok in Hrun. destruct Hrun as [shown_ [_ Hrun]].
  apply ask_from_split in Hrun.
  destruct Hrun as [used [Hin [Hlen _]]]. exists used. split; assumption.
Qed.

Lemma prompt_loop_exit_split (prefix : string) (c c' : console) (loop : bool) :
  prompt_loop_exit prefix c = Ok (loop, c') ->
  exists used, stdin c = (used ++ stdin c')%list /\ 1 <= List.length used.
Proof.
  unfold prompt_loop_exit. intros Hrun.
  apply bind_ok in Hrun. destruct Hrun as [[stop_loop c1] [Hask Hrun]].
  cbn beta iota in Hrun. inversion Hrun; subst.
  eapply read_user_yes_no_split. exact Hask.
Qed.

(** The loop without an inner function: what it adds are typed names. *)
Lemma read_user_variable_json_loop_names (var_name exit_condition prefix : string)
    (inner_func_args : pyval) :
  forall fuel variables_ c res c',
    read_user_variable_json_loop fuel var_name exit_condition prefix None
                                 inner_func_args variables_ c = Ok (res, c') ->
    exists used,
      stdin c = (used ++ stdin c')%list /\ 2 <= List.length used /\
      (NoDup (od_keys variables_) -> NoDup (od_keys res)) /\
      (forall k, In k (od_keys res) ->
         In k (od_keys variables_) \/
         (k <> exit_condition /\ exists line, In line used /\ k = strip line)).
Proof.
  induction fuel as [|fuel IH]; intros variables_ c res c' Hrun; simpl in Hrun;
    [discriminate|].
  apply bind_ok in Hrun. destruct Hrun as [[var c1] [Hread Hrun]].
  cbn beta iota in Hrun.
  apply read_user_variable_split in Hread.
  destruct Hread as [used1 [Hin1 [Hlen1 Hfrom1]]].
  destruct (py_eq var (VStr exit_condition)) eqn:Eexit; cbn [negb] in Hrun.
  - apply bind_ok in Hrun. destruct Hrun as [[loop c2] [Hexit Hrun]].
    cbn beta iota in Hrun.
    apply prompt_loop_exit_split in Hexit. destruct Hexit as [used2 [Hin2 Hlen2]].
    destruct loop.
    + apply IH in Hrun. destruct Hrun as [used3 [Hin3 [Hlen3 [Hnd Hkeys]]]].
      exists (used1 ++ used2 ++ used3)%list.
      rewrite <- !app_assoc, <- Hin3, <- Hin2, <- Hin1, !length_app.
      repeat split; [lia | exact Hnd |].
      intros k Hk. destruct (Hkeys k Hk) as [Hold|[Hne [l [Hl Hs]]]];
        [left; exact Hold|].
      right. split; [exact Hne|]. exists l. split; [|exact Hs].
      apply in_or_app; right; apply in_or_app; right; exact Hl.
    + inversion Hrun; subst. exists (used1 ++ used2)%list.
      rewrite <- app_assoc, <- Hin2, <- Hin1, length_app.
      repeat split; [lia | auto | intros k Hk; left; exact Hk].
  - apply bind_ok in Hrun. destruct Hrun as [key [Hkey Hrun]].
    apply IH in Hrun. destruct Hrun as [used3 [Hin3 [Hlen3 [Hnd Hkeys]]]].
    exists (used1 ++ used3)%list.
    rewrite <- app_assoc, <- Hin3, <- Hin1, length_app.
    repeat split; [lia | intros Hn; apply Hnd, od_set_keeps_NoDup, Hn |].
    intros k Hk. destruct (Hkeys k Hk) as [Hold|[Hne [l [Hl Hs]]]].
    + apply od_keys_set_incl in Hold. apply in_app_or in Hold.
      destruct Hold as [Hold|[<-|[]]]; [left; exact Hold|].
      right. destruct Hfrom1 as [->|[l [Hl ->]]].
      * simpl in Eexit. rewrite String.eqb_refl in Eexit. discriminate.
      * simpl in Hkey. inversion Hkey; subst key. simpl in Eexit. split.
        -- intros Heq. rewrite Heq, String.eqb_refl in Eexit. discriminate.
        -- exists l. split; [apply in_or_app; left; exact Hl | reflexivity].
    + right. split; [exact Hne|]. exists l. split; [|exact Hs].
      apply in_or_app; right; exact Hl.
Qed.

(** With an inner function whose arguments are not a dict, the loop can
    add nothing. *)
Lemma read_user_variable_json_loop_stuck (var_name exit_condition prefix : string)
    (f : string -> list (pyval * pyval) -> console -> result (pyval * console))
    (inner_func_args : pyval) :
  is_dict inner_func_args = false ->
  forall fuel variables_ c res c',
    read_user_variable_json_loop fuel var_name exit_condition prefix (Some f)
                                 inner_func_args variables_ c = Ok (res, c') ->
    res = variables_.
Proof.
  intros Hargs.
  assert (Hcall : forall c, call_inner f prefix inner_func_args c = Raise TypeError)
    by (intros c; destruct inner_func_args; try reflexivity; discriminate).
  induction fuel as [|fuel IH]; intros variables_ c res c' Hrun; simpl in Hrun;
    [discriminate|].
  apply bind_ok in Hrun. destruct Hrun as [[var c1] [_ Hrun]].
  cbn beta iota in Hrun.
  destruct (py_eq var (VStr exit_condition)); cbn [negb] in Hrun.
  - apply bind_ok in Hrun. destruct Hrun as [[loop c2] [_ Hrun]].
    cbn beta iota in Hrun. destruct loop.
    + eapply IH. exact Hrun.
    + inversion Hrun. reflexivity.
  - apply bind_ok in Hrun. destruct Hrun as [key [_ Hrun]].
    rewrite Hcall in Hrun. discriminate.
Qed.

End CollectFacts.

(** X14.  [read_user_variable_list]: the names returned are distinct, none is
    the exit word, each is a typed line with the blanks around it removed,
    and at least two lines were read: the one that took the exit word and
    the answer to [Exit?]. *)
Theorem collected_names_are_typed {H : Host} (var_name exit_condition prefix : string)
    (c c' : console) (names : list string) :
  read_user_variable_list var_name exit_condition prefix c = Ok (names, c') ->
  NoDup names /\ ~ In exit_condition names /\
  (forall n, In n names -> exists line, In line (stdin c) /\ n = strip line) /\
  List.length (stdin c') + 2 <= List.length (stdin c).
Proof.
  unfold read_user_variable_list, read_user_variable_json. intros Hrun.
  apply bind_ok in Hrun. destruct Hrun as [[variables_ c1] [Hloop Hrun]].
  cbn beta iota in Hrun. inversion Hrun; subst names c1; clear Hrun.
  apply read_user_variable_json_loop_names in Hloop.
  destruct Hloop as [used [Hin [Hlen [Hnd Hkeys]]]].
  split; [apply Hnd; constructor|]. split; [|split].
  - intros Hk. destruct (Hkeys _ Hk) as [[]|[Hne _]]. apply Hne. reflexivity.
  - intros n Hn. destruct (Hkeys _ Hn) as [[]|[_ [l [Hl Hs]]]].
    exists l. split; [|exact Hs]. rewrite Hin. apply in_or_app; left; exact Hl.
  - rewrite Hin, length_app. lia.
Qed.

Lemma collected_names_are_typed_witness :
  NoDup ["api"; "web"] /\ ~ In "done" ["api"; "web"] /\
  (forall n, In n ["api"; "web"] ->
     exists line, In line (stdin (mkConsole [" api"; "web"; "api "; ""; "no"; "done"; "y"; "x"] []))
                  /\ n = strip line) /\
  List.length (stdin (mkConsole ["x"] (repeat "service" 4 ++ ["Exit?"; "service"; "Exit?"])))
    + 2 <= List.length (stdin (mkConsole [" api"; "web"; "api "; ""; "no"; "done"; "y"; "x"] [])).
Proof.
  apply (collected_names_are_typed (H := toy_host) "service" "done" ""
           (mkConsole [" api"; "web"; "api "; ""; "no"; "done"; "y"; "x"] [])
           (mkConsole ["x"] (repeat "service" 4 ++ ["Exit?"; "service"; "Exit?"]))
           ["api"; "web"]).
  vm_compute. reflexivity.
Defined.

(** X15.  [read_user_variable_json] with an inner function needs its arguments
    as a dict: with anything else, the default [[]] included, it returns
    only the empty dict, and, where the question parses as markup, the
    first name typed raises [TypeError]. *)
Theorem inner_func_needs_mapping {H : Host} (var_name exit_condition prefix : string)
    (f : string -> list (pyval * pyval) -> console -> result (pyval * console))
    (inner_func_args : pyval) :
  is_dict inner_func_args = false ->
  (forall c res c',
     read_user_variable_json var_name exit_condition prefix (Some f) inner_func_args c
       = Ok (res, c') -> res = []) /\
  (forall line rest shown text,
     from_markup (prefix ++ var_name) = Ok text ->
     line <> "" -> strip line <> exit_condition ->
     read_user_variable_json var_name exit_condition prefix (Some f) inner_func_args
                             (mkConsole (line :: rest) shown) = Raise TypeError).
Proof.
  intros Hargs. split.
  - intros c res c' Hrun. unfold read_user_variable_json in Hrun.
    eapply read_user_variable_json_loop_stuck; eassumption.
  - intros line rest shown text Hmarkup Hline Hexit.
    apply String.eqb_neq in Hline. apply String.eqb_neq in Hexit.
    unfold read_user_variable_json.
    cbn [read_user_variable_json_loop stdin List.length].
    unfold read_user_variable, question_of.
    cbn [truthy bind stdin List.length read_user_variable_loop py_str].
    unfold Prompt_ask, ask. rewrite Hmarkup. cbn [bind stdin stdout ask_from].
    rewrite Hline. unfold process_response. cbn [bind is_none negb].
    cbn [py_eq]. rewrite Hexit. cbn [negb as_str bind].
    destruct inner_func_args; try reflexivity; discriminate.
Qed.

Lemma inner_func_needs_mapping_witness :
  (forall c res c',
     read_user_variable_json (H := toy_host) "service" "done" ""
       (Some (fun _ _ c => Ok (VNone, c))) (VList []) c = Ok (res, c') -> res = []) /\
  (forall line rest shown text,
     from_markup (Host := toy_host) ("" ++ "service") = Ok text ->
     line <> "" -> strip line <> "done" ->
     read_user_variable_json (H := toy_host) "service" "done" ""
       (Some (fun _ _ c => Ok (VNone, c))) (VList [])
       (mkConsole (line :: rest) shown) = Raise TypeError).
Proof.
  apply (inner_func_needs_mapping (H := toy_host) "service" "done" ""
           (fun _ _ c => Ok (VNone, c)) (VList [])).
  reflexivity.
Defined.

(** X16.  [prompt_and_delete]: it returns [True] only after the removal
    succeeded, with [no_input] without a question; it returns [False]
    only with the disk as it was, after two answers. *)
Theorem prompt_and_delete_outcomes {H : Host} {D : Disk} (path : string)
    (no_input : bool) (c c' : console) (fs fs' : DiskState) (deleted : bool) :
  prompt_and_delete path no_input c fs = Ok (deleted, c', fs') ->
  if deleted then
    (if isdir path fs then rmtree path fs else os_remove path fs) = Ok fs' /\
    (no_input = true -> c' = c)
  else
    fs' = fs /\ no_input = false /\
    List.length (stdin c') + 2 <= List.length (stdin c).
Proof.
  unfold prompt_and_delete. intros Hrun.
  apply bind_ok in Hrun. destruct Hrun as [[ok_to_delete c1] [Hfirst Hrun]].
  cbn beta iota in Hrun.
  destruct (truthy ok_to_delete) eqn:Hdel.
  - apply bind_ok in Hrun. destruct Hrun as [fs1 [Hrm Hrun]].
    inversion Hrun; subst. split; [exact Hrm|].
    intros ->. inversion Hfirst. reflexivity.
  - apply bind_ok in Hrun. destruct Hrun as [[ok_to_reuse c2] [Hsecond Hrun]].
    cbn beta iota in Hrun.
    destruct (truthy ok_to_reuse); [|discriminate].
    inversion Hrun; subst. split; [reflexivity|].
    destruct no_input.
    + inversion Hfirst; subst. discriminate.
    + split; [reflexivity|].
      apply read_user_yes_no_split in Hfirst. destruct Hfirst as [u1 [Hu1 Hl1]].
      apply read_user_yes_no_split in Hsecond. destruct Hsecond as [u2 [Hu2 Hl2]].
      rewrite Hu1, Hu2, !length_app. lia.
Qed.

Lemma prompt_and_delete_outcomes_witness :
  [("repo.zip", false); ("kept", true)] = [("repo.zip", false); ("kept", true)] /\
  false = false /\
  List.length (stdin (mkConsole ["left"]
     ["You've downloaded repo.zip before. Is it okay to delete and re-download it?";
      "Do you want to re-use the existing version?";
      "Do you want to re-use the existing version?"]))
    + 2 <= List.length (stdin (mkConsole ["n"; "what"; "y"; "left"] [])).
Proof.
  apply (prompt_and_delete_outcomes (H := toy_host) (D := toy_disk) "repo.zip" false
           (mkConsole ["n"; "what"; "y"; "left"] [])
           (mkConsole ["left"]
              ["You've downloaded repo.zip before. Is it okay to delete and re-download it?";
               "Do you want to re-use the existing version?";
               "Do you want to re-use the existing version?"])
           [("repo.zip", false); ("kept", true)] [("repo.zip", false); ("kept", true)]
           false).
  vm_compute. reflexivity.
Defined.

(** X17.  [prompt_and_delete]: where both questions parse as markup, two
    refusals end the program. *)
Theorem prompt_and_delete_exits {H : Host} {D : Disk} (path first second : string)
    (rest shown : list string) (fs : DiskState) (asked_delete asked_reuse : string) :
  from_markup ("You've downloaded " ++ path ++
               " before. Is it okay to delete and re-download it?") = Ok asked_delete ->
  from_markup "Do you want to re-use the existing version?" = Ok asked_reuse ->
  YesNoPrompt_process_response first = Ok false ->
  YesNoPrompt_process_response second = Ok false ->
  prompt_and_delete path false (mkConsole (first :: second :: rest) shown) fs
    = Raise (ExternalError "SystemExit").
Proof.
  intros Hdelete Hreuse Hfirst Hsecond.
  assert (Hne : forall l, YesNoPrompt_process_response l = Ok false ->
                          String.eqb l "" = false).
  { intros l Hl. destruct (String.eqb l "") eqn:E; [|reflexivity].
    apply String.eqb_eq in E. subst l. vm_compute in Hl. discriminate. }
  unfold prompt_and_delete, read_user_yes_no, question_of, ask.
  cbn [truthy bind py_str].
  change ("" ++ ("You've downloaded " ++ path ++
                 " before. Is it okay to delete and re-download it?"))
    with ("You've downloaded " ++ path ++
          " before. Is it okay to delete and re-download it?").
  rewrite Hdelete. cbn [truthy bind stdin stdout ask_from].
  rewrite (Hne _ Hfirst), Hfirst. cbn [bind truthy py_str].
  change ("" ++ "Do you want to re-use the existing version?")
    with "Do you want to re-use the existing version?".
  rewrite Hreuse.
  cbn [bind truthy stdin stdout ask_from].
  rewrite (Hne _ Hsecond), Hsecond. reflexivity.
Qed.

Lemma prompt_and_delete_exits_witness :
  prompt_and_delete (H := toy_host) (D := toy_disk) "repo.zip" false
    (mkConsole [" No "; "off"; "left"] []) [("repo.zip", false)]
    = Raise (ExternalError "SystemExit").
Proof.
  apply (prompt_and_delete_exits (H := toy_host) (D := toy_disk) "repo.zip" " No " "off"
           ["left"] [] [("repo.zip", false)]
           "You've downloaded repo.zip before. Is it okay to delete and re-download it?"
           "Do you want to re-use the existing version?"); reflexivity.
Defined.

(* ===================================================================== *)
(** ** Further properties: rendering                                      *)
(* ===================================================================== *)

Section RenderFacts.
Context {H : Host}.
Variable env : Environment.
Variable cookiecutter_dict : odict.

(** The dict comprehension of [render_variable] returns a dict. *)
Lemma render_items_dict : forall items acc v,
  (fix each (items : list (pyval * pyval)) (acc : list (pyval * pyval))
     : result pyval :=
     match items with
     | [] => Ok (VDict acc)
     | (k, v) :: items' =>
         k' <- render_variable env k cookiecutter_dict ;;
         v' <- render_variable env v cookiecutter_dict ;;
         if hashable k' then each items' (dict_set k' v' acc) else Raise TypeError
     end) items acc = Ok v ->
  exists items', v = VDict items'.
Proof.
  induction items as [|[k x] items IH]; intros acc v Hrun.
  - inversion Hrun. eexists; reflexivity.
  - apply bind_ok in Hrun. destruct Hrun as [k' [_ Hrun]].
    apply bind_ok in Hrun. destruct Hrun as [x' [_ Hrun]].
    destruct (hashable k'); [|discriminate].
    eapply IH. exact Hrun.
Qed.

(** Rendering never yields an int: ints are rendered as text. *)
Lemma render_variable_not_int (raw v : pyval) :
  render_variable env raw cookiecutter_dict = Ok v -> forall z, v <> VInt z.
Proof.
  intros Hrun z. destruct raw as [|b|n|s|l|items]; cbn [render_variable] in Hrun.
  - inversion Hrun. discriminate.
  - inversion Hrun. discriminate.
  - apply bind_ok in Hrun. destruct Hrun as [s [_ Hrun]]. inversion Hrun. discriminate.
  - apply bind_ok in Hrun. destruct Hrun as [s' [_ Hrun]]. inversion Hrun. discriminate.
  - apply bind_ok in Hrun. destruct Hrun as [l' [_ Hrun]]. inversion Hrun. discriminate.
  - apply render_items_dict in Hrun. destruct Hrun as [items' ->]. discriminate.
Qed.

(** Keys that can both come out of rendering are equal when [==] says
    so. *)
Lemma rendered_keys_equal (a b : pyval) :
  hashable a = true -> (forall z, a <> VInt z) ->
  hashable b = true -> (forall z, b <> VInt z) ->
  py_eq a b = true -> a = b.
Proof.
  intros Ha Hna Hb Hnb Heq.
  destruct a as [|x|x|x|x|x]; destruct b as [|y|y|y|y|y];
    try discriminate; try (exfalso; eapply Hna; reflexivity);
    try (exfalso; eapply Hnb; reflexivity).
  - reflexivity.
  - simpl in Heq. apply Bool.eqb_prop in Heq. congruence.
  - simpl in Heq. apply String.eqb_eq in Heq. congruence.
Qed.

Lemma dict_set_length k v d : List.length (dict_set k v d) <= S (List.length d).
Proof.
  induction d as [|[k' v'] d IH]; simpl; [lia|].
  destruct (py_eq k' k); simpl; lia.
Qed.

Lemma dict_set_items (k v : pyval) (d : list (pyval * pyval)) (k1 v1 : pyval) :
  In (k1, v1) (dict_set k v d) ->
  In (k1, v1) d \/ (v1 = v /\ (k1 = k \/ (In k1 (map fst d) /\ py_eq k1 k = true))).
Proof.
  induction d as [|[k' v'] d IH]; simpl; intros Hin.
  - destruct Hin as [Heq|[]]. inversion Heq. right. split; [reflexivity | left; reflexivity].
  - destruct (py_eq k' k) eqn:E; simpl in Hin.
    + destruct Hin as [Heq|Hin]; [|left; right; exact Hin].
      inversion Heq; subst. right. split; [reflexivity|]. right.
      split; [left; reflexivity | exact E].
    + destruct Hin as [Heq|Hin]; [left; left; exact Heq|].
      destruct (IH Hin) as [Hd|[-> [->|[Hk Hpe]]]].
      * left; right; exact Hd.
      * right. split; [reflexivity | left; reflexivity].
      * right. split; [reflexivity|]. right. split; [right; exact Hk | exact Hpe].
Qed.

(** Every item of the rendered dict is the rendering of an item of the raw
    one. *)
Lemma render_items_origin : forall items acc v (seen : list (pyval * pyval)),
  (forall k' x', In (k', x') acc ->
     hashable k' = true /\ (forall z, k' <> VInt z) /\
     exists k x, In (k, x) seen /\
                 render_variable env k cookiecutter_dict = Ok k' /\
                 render_variable env x cookiecutter_dict = Ok x') ->
  (fix each (items : list (pyval * pyval)) (acc : list (pyval * pyval))
     : result pyval :=
     match items with
     | [] => Ok (VDict acc)
     | (k, v) :: items' =>
         k' <- render_variable env k cookiecutter_dict ;;
         v' <- render_variable env v cookiecutter_dict ;;
         if hashable k' then each items' (dict_set k' v' acc) else Raise TypeError
     end) items acc = Ok v ->
  exists items',
    v = VDict items' /\
    List.length items' <= List.length acc + List.length items /\
    forall k' x', In (k', x') items' ->
      exists k x, In (k, x) (seen ++ items)%list /\
                  render_variable env k cookiecutter_dict = Ok k' /\
                  render_variable env x cookiecutter_dict = Ok x'.
Proof.
  induction items as [|[k x] items IH]; intros acc v seen Hacc Hrun.
  - inversion Hrun; subst. exists acc. split; [reflexivity|]. split; [simpl; lia|].
    intros k' x' Hin. destruct (Hacc _ _ Hin) as [_ [_ [k [x [Hk Hr]]]]].
    exists k, x. rewrite app_nil_r. split; assumption.
  - apply bind_ok in Hrun. destruct Hrun as [k1 [Hk1 Hrun]].
    apply bind_ok in Hrun. destruct Hrun as [x1 [Hx1 Hrun]].
    destruct (hashable k1) eqn:Hh; [|discriminate].
    apply (IH _ _ (seen ++ [(k, x)])%list) in Hrun.
    + destruct Hrun as [items' [-> [Hlen Hfrom]]]. exists items'.
      split; [reflexivity|]. split.
      * pose proof (dict_set_length k1 x1 acc). simpl. lia.
      * intros k' x' Hin. destruct (Hfrom _ _ Hin) as [k0 [x0 [Hin0 Hr0]]].
        exists k0, x0. rewrite <- app_assoc in Hin0. split; assumption.
    + intros k' x' Hin. apply dict_set_items in Hin.
      assert (Hnew : exists k0 x0, In (k0, x0) (seen ++ [(k, x)])%list /\
                render_variable env k0 cookiecutter_dict = Ok k1 /\
                render_variable env x0 cookiecutter_dict = Ok x1).
      { exists k, x. split; [apply in_or_app; right; left; reflexivity|].
        split; assumption. }
      destruct Hin as [Hold|[-> [->|[Hk' Hpe]]]].
      * destruct (Hacc _ _ Hold) as [Hh' [Hn' [k0 [x0 [Hin0 Hr0]]]]].
        split; [exact Hh'|]. split; [exact Hn'|].
        exists k0, x0. split; [apply in_or_app; left; exact Hin0 | exact Hr0].
      * split; [exact Hh|]. split; [eapply render_variable_not_int; exact Hk1|].
        exact Hnew.
      * apply in_map_iff in Hk'. destruct Hk' as [[k2 x2] [Hfst Hin2]].
        simpl in Hfst. subst k2.
        destruct (Hacc _ _ Hin2) as [Hh' [Hn' _]].
        assert (k' = k1).
        { apply rendered_keys_equal; try assumption.
          eapply render_variable_not_int; exact Hk1. }
        subst k'. split; [exact Hh|]. split; [exact Hn'|]. exact Hnew.
Qed.

Lemma render_list_each : forall l l',
  (fix each (l : list pyval) : result (list pyval) :=
     match l with
     | [] => Ok []
     | v :: l' =>
         v' <- render_variable env v cookiecutter_dict ;;
         vs <- each l' ;;
         Ok (v' :: vs)
     end) l = Ok l' ->
  Forall2 (fun x y => render_variable env x cookiecutter_dict = Ok y) l l'.
Proof.
  induction l as [|x l IH]; intros l' Hrun.
  - inversion Hrun. constructor.
  - apply bind_ok in Hrun. destruct Hrun as [y [Hy Hrun]].
    apply bind_ok in Hrun. destruct Hrun as [ys [Hys Hrun]].
    inversion Hrun; subst. constructor; [exact Hy | apply IH; exact Hys].
Qed.

End RenderFacts.

(** X18.  [render_variable] keeps the kind of what it is given: [None] and
    booleans come back as they are, text and ints come back as text, a list
    comes back as the list of its renderings, and a dict as a dict no
    longer than the raw one whose every item is the rendering of a raw
    item. *)
Theorem render_variable_keeps_kind {H : Host} (env : Environment) (raw : pyval)
    (cookiecutter_dict : odict) (v : pyval) :
  render_variable env raw cookiecutter_dict = Ok v ->
  match raw with
  | VNone | VBool _ => v = raw
  | VInt _ | VStr _ => is_str v = true
  | VList l =>
      exists l', v = VList l' /\
        Forall2 (fun x y => render_variable env x cookiecutter_dict = Ok y) l l'
  | VDict items =>
      exists items', v = VDict items' /\
        List.length items' <= List.length items /\
        forall k' x', In (k', x') items' ->
          exists k x, In (k, x) items /\
                      render_variable env k cookiecutter_dict = Ok k' /\
                      render_variable env x cookiecutter_dict = Ok x'
  end.
Proof.
  intros Hrun. destruct raw as [|b|n|s|l|items]; cbn [render_variable] in Hrun.
  - inversion Hrun. reflexivity.
  - inversion Hrun. reflexivity.
  - apply bind_ok in Hrun. destruct Hrun as [s [_ Hrun]]. inversion Hrun. reflexivity.
  - apply bind_ok in Hrun. destruct Hrun as [s' [_ Hrun]]. inversion Hrun. reflexivity.
  - apply bind_ok in Hrun. destruct Hrun as [l' [Hl Hrun]]. inversion Hrun; subst.
    exists l'. split; [reflexivity|]. apply render_list_each. exact Hl.
  - apply (render_items_origin env cookiecutter_dict items [] v []) in Hrun.
    + exact Hrun.
    + intros k' x' [].
Qed.

Lemma render_variable_keeps_kind_witness :
  exists items',
    VDict [(VStr "7", VStr "b"); (VBool true, VList [VStr "v"; VNone])] = VDict items' /\
    List.length items' <= 3 /\
    forall k' x', In (k', x') items' ->
      exists k x,
        In (k, x) [(VInt 7, VStr "a"); (VBool true, VList [VStr "$k"; VNone]);
                   (VStr "7", VStr "b")] /\
        render_variable (H := toy_host) tt k [("k", VStr "v")] = Ok k' /\
        render_variable (H := toy_host) tt x [("k", VStr "v")] = Ok x'.
Proof.
  apply (render_variable_keeps_kind (H := toy_host) tt
           (VDict [(VInt 7, VStr "a"); (VBool true, VList [VStr "$k"; VNone]);
                   (VStr "7", VStr "b")])
           [("k", VStr "v")]
           (VDict [(VStr "7", VStr "b"); (VBool true, VList [VStr "v"; VNone])])).
  vm_compute. reflexivity.
Defined.

(* ===================================================================== *)
(** ** Further properties: building trees, replay files                   *)
(* ===================================================================== *)

Section BuildFacts.

Lemma mapM_from_dict_canonical : forall children vars,
  Forall (fun y => forall t, from_dict y = Ok t -> canonical t = true) children ->
  mapM from_dict children = Ok vars ->
  forallb canonical vars = true.
Proof.
  induction children as [|y ys IH]; intros vars Hall Hrun.
  - inversion Hrun. reflexivity.
  - cbn [mapM] in Hrun.
    apply bind_ok in Hrun. destruct Hrun as [t [Ht Hrun]].
    apply bind_ok in Hrun. destruct Hrun as [ts [Hts Hrun]].
    inversion Hrun; subst. inversion Hall; subst.
    cbn [forallb]. rewrite (H1 _ Ht), (IH _ H2 Hts). reflexivity.
Qed.

Lemma dict_get_in (k : pyval) (items : list (pyval * pyval)) (x : pyval) :
  dict_get k items = Some x -> exists k', In (k', x) items.
Proof.
  induction items as [|[k' v] items IH]; simpl; [discriminate|].
  destruct (py_eq k' k).
  - intros Heq. inversion Heq; subst. exists k'. left; reflexivity.
  - intros Hget. destruct (IH Hget) as [k0 Hin]. exists k0. right; exact Hin.
Qed.

(** Whatever [from_dict] builds has, at every node, a prompt that is empty
    only where the name is. *)
Lemma from_dict_canonical_strong (d : pyval) :
  (forall t, from_dict d = Ok t -> canonical t = true) /\
  (forall children, iter d = Ok children ->
     Forall (fun y => forall t, from_dict y = Ok t -> canonical t = true) children).
Proof.
  induction d as [| | |s|l IH|items IH] using value_ind.
  - split; [discriminate | discriminate].
  - split; [discriminate | discriminate].
  - split; [discriminate | discriminate].
  - split; [discriminate|]. intros children Hiter. inversion Hiter; subst.
    clear Hiter. induction s as [|a s IHs]; [constructor|].
    constructor; [discriminate | exact IHs].
  - split; [discriminate|]. intros children Hiter. inversion Hiter; subst.
    eapply Forall_impl; [|exact IH]. intros y Hy. exact (proj1 Hy).
  - split.
    + intros t Hrun. rewrite from_dict_unfold in Hrun. unfold dict_method_get in Hrun.
      cbn [bind] in Hrun.
      apply bind_ok in Hrun. destruct Hrun as [children [Hiter Hrun]].
      apply bind_ok in Hrun. destruct Hrun as [vars [Hvars Hrun]].
      apply bind_ok in Hrun. destruct Hrun as [n [_ Hrun]].
      apply bind_ok in Hrun. destruct Hrun as [p [_ Hrun]].
      inversion Hrun; subst t; clear Hrun.
      assert (Hch : Forall (fun y => forall t, from_dict y = Ok t -> canonical t = true)
                           children).
      { destruct (dict_get (VStr "variables") items) as [x|] eqn:Hget.
        - apply dict_get_in in Hget. destruct Hget as [k' Hin].
          rewrite Forall_forall in IH. apply IH in Hin. simpl in Hin.
          apply (proj2 (proj2 Hin)). exact Hiter.
        - inversion Hiter. constructor. }
      rewrite canonical_unfold. unfold VariablesPy.init. cbn [prompt name variables].
      rewrite (mapM_from_dict_canonical _ _ Hch Hvars), andb_true_r.
      destruct (String.eqb p "") eqn:Ep.
      * destruct (String.eqb n ""); reflexivity.
      * rewrite Ep. reflexivity.
    + intros children Hiter. inversion Hiter; subst.
      rewrite Forall_forall in IH. apply Forall_forall. intros y Hy.
      apply in_map_iff in Hy. destruct Hy as [[k x] [<- Hin]].
      apply IH in Hin. exact (proj1 (proj1 Hin)).
Qed.

Lemma context_get_set_same (k : pyval) (v : ctxval) (ctx : context) :
  py_eq k k = true -> context_get k (context_set k v ctx) = Some v.
Proof.
  intros Hk. induction ctx as [|[k' v'] ctx IH]; simpl.
  - rewrite Hk. reflexivity.
  - destruct (py_eq k' k) eqn:E; simpl; rewrite E; [reflexivity | exact IH].
Qed.

Lemma append_cancel_left (a x y : string) : a ++ x = a ++ y -> x = y.
Proof.
  induction a as [|ch a IH]; simpl; intros Heq; [exact Heq|].
  inversion Heq. apply IH. assumption.
Qed.

Lemma list_ascii_of_append (a b : string) :
  list_ascii_of_string (a ++ b) = (list_ascii_of_string a ++ list_ascii_of_string b)%list.
Proof. induction a as [|ch a IH]; simpl; [reflexivity | rewrite IH; reflexivity]. Qed.

Lemma list_ascii_inj (a b : string) :
  list_ascii_of_string a = list_ascii_of_string b -> a = b.
Proof.
  intros Heq. rewrite <- (string_of_list_ascii_of_string a),
    <- (string_of_list_ascii_of_string b), Heq. reflexivity.
Qed.

Lemma append_cancel_right (a b x : string) : a ++ x = b ++ x -> a = b.
Proof.
  intros Heq. apply list_ascii_inj.
  apply (f_equal list_ascii_of_string) in Heq.
  rewrite !list_ascii_of_append in Heq. eapply app_inv_tail. exact Heq.
Qed.

Lemma yaml_json_differ (a b : string) : a ++ ".yaml" <> b ++ ".json".
Proof.
  intros Heq. apply (f_equal list_ascii_of_string) in Heq.
  rewrite !list_ascii_of_append in Heq.
  apply (f_equal (@rev ascii)) in Heq. rewrite !rev_app_distr in Heq.
  simpl in Heq. discriminate.
Qed.

End BuildFacts.

(** X19.  [from_dict] and [__init__]: in a tree that [from_dict] built, no node
    has an empty prompt beside a name that is not empty, and writing the
    tree out and building it again gives the same tree. *)
Theorem from_dict_builds_canonical (d : pyval) (t : CookiecutterVariable) :
  from_dict d = Ok t ->
  canonical t = true /\ from_dict (serialize t) = Ok t.
Proof.
  intros Hrun.
  assert (Hc : canonical t = true)
    by (apply (proj1 (from_dict_canonical_strong d)); exact Hrun).
  split; [exact Hc | apply from_dict_serialize; exact Hc].
Qed.

Lemma from_dict_builds_canonical_witness :
  canonical (mkVariable "top" VNone "top"
               [mkVariable "a" (VInt 1) "a" [] VNone VNone;
                mkVariable "" VNone "" [] VNone VNone] VNone VNone) = true /\
  from_dict (serialize (mkVariable "top" VNone "top"
               [mkVariable "a" (VInt 1) "a" [] VNone VNone;
                mkVariable "" VNone "" [] VNone VNone] VNone VNone))
    = Ok (mkVariable "top" VNone "top"
               [mkVariable "a" (VInt 1) "a" [] VNone VNone;
                mkVariable "" VNone "" [] VNone VNone] VNone VNone).
Proof.
  apply (from_dict_builds_canonical
           (VDict [(VStr "name", VStr "top"); (VStr "prompt", VStr "");
                   (VStr "variables",
                    VList [VDict [(VStr "name", VStr "a"); (VStr "value", VInt 1);
                                  (VStr "prompt", VNone)];
                           VDict []])])).
  reflexivity.
Defined.

(** X20.  [get_file_name]: two template names that do not begin with a slash
    get the same file only if they are the same name; a name that begins
    with a slash leaves the replay directory out. *)
Theorem replay_files_distinct (replay_dir a b : string) :
  (startswith a "/" = false -> startswith b "/" = false ->
   get_file_name replay_dir a = get_file_name replay_dir b -> a = b) /\
  (startswith a "/" = true ->
   get_file_name replay_dir a = a ++ (if endswith a ".yaml" then ".json" else ".yaml")).
Proof.
  split.
  - intros Ha Hb Heq. unfold get_file_name, os_path_join in Heq.
    assert (Hfile : forall n ext, startswith n "/" = false ->
                                  startswith ext "/" = false ->
                                  startswith (n ++ ext) "/" = false)
      by (intros n ext Hn Hext; rewrite startswith_char_append; assumption).
    assert (Hsame : a ++ (if negb (endswith a ".yaml") then ".yaml" else ".json")
                    = b ++ (if negb (endswith b ".yaml") then ".yaml" else ".json")).
    { rewrite (Hfile a) in Heq by (try assumption; destruct (endswith a ".yaml"); reflexivity).
      rewrite (Hfile b) in Heq by (try assumption; destruct (endswith b ".yaml"); reflexivity).
      destruct (String.eqb replay_dir "" || endswith replay_dir "/").
      - eapply append_cancel_left. exact Heq.
      - eapply append_cancel_left. eapply append_cancel_left. exact Heq. }
    destruct (endswith a ".yaml"), (endswith b ".yaml"); cbn [negb] in Hsame.
    + eapply append_cancel_right. exact Hsame.
    + symmetry in Hsame. apply yaml_json_differ in Hsame. contradiction.
    + apply yaml_json_differ in Hsame. contradiction.
    + eapply append_cancel_right. exact Hsame.
  - intros Ha. unfold get_file_name, os_path_join.
    destruct (endswith a ".yaml"); cbn [negb];
      rewrite startswith_char_append by reflexivity; rewrite Ha; reflexivity.
Qed.

Lemma replay_files_distinct_witness :
  (get_file_name "replay" "demo" = get_file_name "replay" "demo" -> "demo" = "demo") /\
  get_file_name "replay" "/tmp/demo" = "/tmp/demo" ++ ".yaml".
Proof.
  split.
  - apply (proj1 (replay_files_distinct "replay" "demo" "demo")); reflexivity.
  - apply (proj2 (replay_files_distinct "replay" "/tmp/demo" "/tmp/demo")). reflexivity.
Defined.

(** X21.  [load]: what it returns holds a variable tree under [cookiecutter], so
    [dump] accepts it and [prompt_for_config] finds its variables. *)
Theorem loaded_context_has_tree {S : Store} (replay_dir template_name : string)
    (fs : FileSystem) (ctx : context) :
  load replay_dir template_name fs = Ok ctx ->
  exists t,
    context_get (VStr "cookiecutter") ctx = Some (Tree t) /\
    canonical t = true /\
    has_cookiecutter ctx = true /\
    Prompt.context_variables ctx = Ok (variables t).
Proof.
  unfold load. intros Hrun.
  apply bind_ok in Hrun. destruct Hrun as [text [_ Hrun]].
  apply bind_ok in Hrun. destruct Hrun as [doc [_ Hrun]].
  apply bind_ok in Hrun. destruct Hrun as [has [_ Hrun]].
  destruct (negb has); [discriminate|].
  apply bind_ok in Hrun. destruct Hrun as [cookiecutter [_ Hrun]].
  apply bind_ok in Hrun. destruct Hrun as [tree [Htree Hrun]].
  destruct doc as [| | | | |items]; try discriminate.
  inversion Hrun; subst ctx; clear Hrun.
  assert (Hget : context_get (VStr "cookiecutter")
                   (context_set (VStr "cookiecutter") (Tree tree) (plain_context items))
                 = Some (Tree tree))
    by (apply context_get_set_same; reflexivity).
  exists tree. split; [exact Hget|]. split.
  - apply (proj1 (from_dict_canonical_strong cookiecutter)). exact Htree.
  - unfold has_cookiecutter, Prompt.context_variables. rewrite Hget.
    split; reflexivity.
Qed.

Lemma loaded_context_has_tree_witness :
  exists t,
    context_get (VStr "cookiecutter")
      [ (VStr "_template", Plain (VStr "gh:demo"));
        (VStr "cookiecutter", Tree (node "root" VNone [leaf "kind" (VStr "x")])) ]
      = Some (Tree t) /\
    canonical t = true /\
    has_cookiecutter
      [ (VStr "_template", Plain (VStr "gh:demo"));
        (VStr "cookiecutter", Tree (node "root" VNone [leaf "kind" (VStr "x")])) ] = true /\
    Prompt.context_variables
      [ (VStr "_template", Plain (VStr "gh:demo"));
        (VStr "cookiecutter", Tree (node "root" VNone [leaf "kind" (VStr "x")])) ]
      = Ok (variables t).
Proof.
  apply (loaded_context_has_tree (S := toy_store) "replay" "demo"
           [ ("replay/demo.yaml",
              VDict [ (VStr "_template", VStr "gh:demo");
                      (VStr "cookiecutter",
                       VDict [ (VStr "name", VStr "root");
                               (VStr "variables",
                                VList [VDict [(VStr "name", VStr "kind");
                                              (VStr "value", VStr "x")]]) ]) ]) ]).
  reflexivity.
Defined.

(* ===================================================================== *)
(** ** Further properties: template labels                                *)
(* ===================================================================== *)

Section LabelFacts.
Context {H : Host}.

Lemma py_eq_hashable_refl (k : pyval) : hashable k = true -> py_eq k k = true.
Proof.
  destruct k; simpl; intros Hk; try discriminate.
  - reflexivity.
  - destruct b; reflexivity.
  - apply Z.eqb_refl.
  - apply String.eqb_refl.
Qed.

Lemma dict_get_set_same (k v : pyval) (d : list (pyval * pyval)) :
  py_eq k k = true -> dict_get k (dict_set k v d) = Some v.
Proof.
  intros Hk. induction d as [|[k' v'] d IH]; simpl.
  - rewrite Hk. reflexivity.
  - destruct (py_eq k' k) eqn:E; simpl; rewrite E; [reflexivity | exact IH].
Qed.

Lemma dict_set_keeps_keys (k v q : pyval) (d : list (pyval * pyval)) :
  dict_get q d <> None -> dict_get q (dict_set k v d) <> None.
Proof.
  induction d as [|[k' v'] d IH]; simpl; intros Hq; [contradiction|].
  destruct (py_eq k' k) eqn:E; simpl.
  - destruct (py_eq k' q); [discriminate | exact Hq].
  - destruct (py_eq k' q); [discriminate | apply IH; exact Hq].
Qed.

(** The loop of [_prompts_from_options], from any dict built so far. *)
Lemma prompts_loop_labels : forall opts start prompts,
  fold_left
    (fun acc opt =>
       prompts <- acc ;;
       title <- getitem opt (VStr "name") ;;
       description <- dict_method_get opt "description" (VStr "") ;;
       let label := if py_eq title description then title
                    else VStr (py_str title ++ " (" ++ py_str description ++ ")") in
       if hashable title then Ok (dict_set title label prompts) else Raise TypeError)
    opts start = Ok prompts ->
  exists first,
    start = Ok first /\
    (forall q, dict_get q first <> None -> dict_get q prompts <> None) /\
    (forall opt, In opt opts ->
       exists title, getitem opt (VStr "name") = Ok title /\
                     dict_get title prompts <> None).
Proof.
  intros options. induction options as [|opt opts IH]; intros start prompts Hrun;
    simpl in Hrun.
  - exists prompts. split; [exact Hrun|]. split.
    + intros q Hq. exact Hq.
    + intros o Ho. destruct Ho.
  - apply IH in Hrun. destruct Hrun as [second [Hstep [Hkeep Hopts]]].
    apply bind_ok in Hstep. destruct Hstep as [first [Hstart Hstep]].
    apply bind_ok in Hstep. destruct Hstep as [title [Htitle Hstep]].
    apply bind_ok in Hstep. destruct Hstep as [description [_ Hstep]].
    cbn zeta in Hstep. destruct (hashable title) eqn:Hh; [|discriminate].
    inversion Hstep; subst second; clear Hstep.
    exists first. split; [exact Hstart|]. split.
    + intros q Hq. apply Hkeep. apply dict_set_keeps_keys. exact Hq.
    + intros o Ho. destruct Ho as [<-|Ho]; [|apply Hopts; exact Ho].
      exists title. split; [exact Htitle|]. apply Hkeep.
      rewrite dict_get_set_same by (apply py_eq_hashable_refl; exact Hh).
      discriminate.
Qed.

End LabelFacts.

(** X22.  [_prompts_from_options]: the dict it returns has the heading key
    [__prompt__] and a label under the name of every option. *)
Theorem every_option_is_labelled {H : Host} (options p : pyval) :
  _prompts_from_options options = Ok p ->
  exists opts prompts,
    iter options = Ok opts /\ p = VDict prompts /\
    dict_get (VStr "__prompt__") prompts <> None /\
    forall opt, In opt opts ->
      exists title, getitem opt (VStr "name") = Ok title /\
                    dict_get title prompts <> None.
Proof.
  unfold _prompts_from_options. intros Hrun.
  apply bind_ok in Hrun. destruct Hrun as [opts [Hiter Hrun]].
  apply bind_ok in Hrun. destruct Hrun as [prompts [Hloop Hrun]].
  inversion Hrun; subst p; clear Hrun.
  apply prompts_loop_labels in Hloop.
  destruct Hloop as [first [Hfirst [Hkeep Hopts]]].
  inversion Hfirst; subst first; clear Hfirst.
  exists opts, prompts. split; [exact Hiter|]. split; [reflexivity|].
  split; [apply Hkeep; discriminate | exact Hopts].
Qed.

Lemma every_option_is_labelled_witness :
  exists opts prompts,
    iter (VList [VDict [(VStr "name", VStr "web"); (VStr "description", VStr "a site")];
                 VDict [(VStr "name", VStr "__prompt__")]]) = Ok opts /\
    VDict [(VStr "__prompt__", VStr "__prompt__ ()"); (VStr "web", VStr "web (a site)")]
      = VDict prompts /\
    dict_get (VStr "__prompt__") prompts <> None /\
    forall opt, In opt opts ->
      exists title, getitem opt (VStr "name") = Ok title /\
                    dict_get title prompts <> None.
Proof.
  apply (every_option_is_labelled (H := toy_host)
           (VList [VDict [(VStr "name", VStr "web"); (VStr "description", VStr "a site")];
                   VDict [(VStr "name", VStr "__prompt__")]])).
  reflexivity.
Defined.
